(** * pdf2editable: page extraction, OCR fallback, font mapping and DOCX assembly

    A shallow embedding of the processing core of the repository
    ([app/services/font_mapper.py], [ocr_processor.py], [pdf_processor.py],
    [docx_generator.py]) together with the properties stated about it.

    Conventions of the embedding.
    - A Python [str] is a [string]; every character stands for a code point
      below 256, and [isupper], [islower] and [isspace] are the Unicode
      predicates restricted to that range.
    - A Python [int] is a [Z].  A Python [float] that results from arithmetic
      on integers is the rational it denotes, rounded to binary64 ([PyFloat]).
      Layout quantities read from a PDF (coordinates, font sizes) are
      rationals ([Q]), and the one operation on them, the subtraction of the
      paragraph grouping, is exact.
    - A Python [dict] is a [gmap], a [set] a [gset].
    - A call that may raise returns a [result]; the calls made to the OCR
      engine are recorded in a trace, so that "OCR was invoked" is a
      statement about the trace.
    - The third-party libraries (pdfplumber, PyMuPDF, PIL, pytesseract,
      python-docx) are the Variables of the sections below. *)

From Stdlib Require Import Ascii String ZArith QArith Qabs Qminmax Lia Lqa.
From Stdlib Require Floats Uint63.
From stdpp Require Import gmap strings list sorting.

Local Open Scope string_scope.
Local Open Scope list_scope.
Local Open Scope Z_scope.

(** ** Python strings *)

Module PyStr.

Definition code (c : ascii) : N := N_of_ascii c.

Definition in_range (lo hi : N) (c : ascii) : bool :=
  ((lo <=? code c) && (code c <=? hi))%N.

(** [str.isupper] on one character. *)
Definition isupper (c : ascii) : bool :=
  in_range 65 90 c || in_range 192 214 c || in_range 216 222 c.

(** [str.islower] on one character. *)
Definition islower (c : ascii) : bool :=
  in_range 97 122 c || (code c =? 170)%N || (code c =? 181)%N
  || (code c =? 186)%N || in_range 223 246 c || in_range 248 255 c.

(** [str.isspace] on one character. *)
Definition isspace (c : ascii) : bool :=
  in_range 9 13 c || in_range 28 32 c || (code c =? 133)%N || (code c =? 160)%N.

(** [s.startswith(p)]. *)
Fixpoint startswith (s p : string) {struct p} : bool :=
  match p, s with
  | EmptyString, _ => true
  | String _ _, EmptyString => false
  | String a p', String b s' => if Ascii.eqb a b then startswith s' p' else false
  end.

(** [s.replace(old, new)] for a non-empty [old]: occurrences are replaced
    from the left and do not overlap.  [skip] counts the characters of the
    occurrence just matched that are still to be passed over. *)
Fixpoint replace_from (old new s : string) (skip : nat) : string :=
  match s with
  | EmptyString => EmptyString
  | String c s' =>
      match skip with
      | S k => replace_from old new s' k
      | O =>
          if startswith s old
          then new +:+ replace_from old new s' (Nat.pred (String.length old))
          else String c (replace_from old new s' O)
      end
  end.

Definition replace (s old new : string) : string := replace_from old new s O.

Fixpoint lstrip (s : string) : string :=
  match s with
  | String c s' => if isspace c then lstrip s' else s
  | EmptyString => EmptyString
  end.

Fixpoint rstrip (s : string) : string :=
  match s with
  | EmptyString => EmptyString
  | String c s' =>
      match rstrip s' with
      | EmptyString => if isspace c then EmptyString else String c EmptyString
      | r => String c r
      end
  end.

(** [s.strip()]. *)
Definition strip (s : string) : string := rstrip (lstrip s).

(** [s.split(sep)] for a one-character separator: the pieces between the
    separators, empty pieces included. *)
Fixpoint split (sep : ascii) (s : string) : list string :=
  match s with
  | EmptyString => [EmptyString]
  | String c s' =>
      if Ascii.eqb c sep then EmptyString :: split sep s'
      else match split sep s' with
           | piece :: rest => String c piece :: rest
           | [] => [String c EmptyString]
           end
  end.

(** ["+".join(l)] and friends. *)
Fixpoint join (sep : string) (l : list string) : string :=
  match l with
  | [] => EmptyString
  | [s] => s
  | s :: rest => s +:+ sep +:+ join sep rest
  end.

(** Python truth value of a string. *)
Definition truthy (s : string) : bool :=
  match s with EmptyString => false | _ => true end.

End PyStr.

(** ** Exceptions *)

Inductive exn : Type :=
  | IndexError
  | OverflowError
  | ZeroDivisionError
  | ImportError
  | RuntimeError
  | LibraryError (what : string).

Inductive result (A : Type) : Type :=
  | Ok (a : A)
  | Raise (e : exn).
Arguments Ok {A} a.
Arguments Raise {A} e.

(** ** Font mapping ([app/services/font_mapper.py]) *)

Module FontMapper.

(** The class attribute [FONT_SUBSTITUTION], in the order it is written. *)
Definition FONT_SUBSTITUTION_items : list (string * string) :=
  [ ("UTM Avo", "Arial");
    ("UTM Times", "Times New Roman");
    ("VNI-Times", "Times New Roman");
    ("VNI-Helve", "Arial");
    (".VnTime", "Times New Roman");
    (".VnArial", "Arial");
    ("Helvetica", "Arial");
    ("Helvetica Neue", "Arial");
    ("SF Pro", "Segoe UI");
    ("SF Pro Display", "Segoe UI");
    ("Roboto", "Arial");
    ("Open Sans", "Arial");
    ("Lato", "Arial");
    ("Georgia", "Times New Roman");
    ("Palatino", "Times New Roman");
    ("Cambria", "Times New Roman");
    ("Courier", "Courier New");
    ("Monaco", "Courier New");
    ("Consolas", "Courier New") ].

Definition FONT_SUBSTITUTION : gmap string string :=
  list_to_map FONT_SUBSTITUTION_items.

Definition WEB_SAFE_FONTS : gset string :=
  list_to_set
    [ "Arial"; "Times New Roman"; "Courier New"; "Verdana"; "Georgia";
      "Comic Sans MS"; "Trebuchet MS"; "Arial Black"; "Impact" ].

(** The suffixes removed by [_clean_font_name], in the order of its loop. *)
Definition suffixes : list string :=
  [ "-Bold"; "-Italic"; "-BoldItalic"; "-Regular"; "MT" ].

(** The second loop of [_clean_font_name]: a space goes before every
    upper-case character that follows a lower-case one.  [prev] is
    [font_name[i-1]], absent at [i = 0]. *)
Fixpoint camel_spaces (prev : option ascii) (s : string) : string :=
  match s with
  | EmptyString => EmptyString
  | String c s' =>
      let rest := String c (camel_spaces (Some c) s') in
      match prev with
      | Some p =>
          if PyStr.isupper c && PyStr.islower p then String " " rest else rest
      | None => rest
      end
  end.

Definition _clean_font_name (font_name : string) : string :=
  let font_name :=
    fold_left (fun name suffix => PyStr.replace name suffix "") suffixes font_name in
  PyStr.strip (camel_spaces None font_name).

Definition map_font (pdf_font_name : string) : string :=
  let clean_name := _clean_font_name pdf_font_name in
  if decide (clean_name ∈ WEB_SAFE_FONTS) then clean_name
  else match FONT_SUBSTITUTION !! clean_name with
       | Some mapped => mapped
       | None => "Arial"
       end.

(** The dictionary returned by [get_font_info]. *)
Record FontInfo : Type := {
  original : string;
  cleaned : string;
  mapped : string;
  reason : string
}.

Definition get_font_info (pdf_font_name : string) : FontInfo :=
  let mapped := map_font pdf_font_name in
  let clean_original := _clean_font_name pdf_font_name in
  let reason :=
    if decide (clean_original = mapped) then "web-safe"
    else if decide (is_Some (FONT_SUBSTITUTION !! clean_original)) then "substituted"
    else "fallback" in
  {| original := pdf_font_name; cleaned := clean_original;
     mapped := mapped; reason := reason |}.

End FontMapper.

(** ** Python floats obtained from integers

    Binary64 arithmetic on exact rationals: a finite float is the rational it
    denotes, and every operation rounds its exact result to the nearest
    double, ties to even, with gradual underflow and overflow to infinity. *)

Module PyFloat.

Inductive float : Type :=
  | Finite (q : Q)
  | Infinite (negative : bool).

(** Nearest integer to [a / b], ties to even ([0 <= a], [0 < b]). *)
Definition rne (a b : Z) : Z :=
  let k := a / b in
  let r := a mod b in
  if 2 * r <? b then k
  else if b <? 2 * r then k + 1
  else if Z.even k then k else k + 1.

(** [n / d] scaled by [2 ^ (- e)], as a numerator and a denominator. *)
Definition scaled_num (n e : Z) : Z := n * 2 ^ Z.max 0 (- e).
Definition scaled_den (d e : Z) : Z := d * 2 ^ Z.max 0 e.

(** The binary exponent of [n / d]: the [e] with [2^e <= n/d < 2^(e+1)]. *)
Definition ilog2 (n d : Z) : Z :=
  let lg := Z.log2 n - Z.log2 d in
  if scaled_den d lg <=? scaled_num n lg then lg else lg - 1.

(** The exponent of the last place of the double nearest to [n / d]. *)
Definition ulp_exp (n d : Z) : Z := Z.max (ilog2 n d - 52) (-1074).

(** Rounding of a positive rational [n / d]; the result is an integer
    multiple [m] of [2 ^ ulp_exp]. *)
Definition round_pos (n d : Z) : Z * Z :=
  let sh := ulp_exp n d in
  (rne (scaled_num n sh) (scaled_den d sh), sh).

Definition value (m sh : Z) : Q :=
  Qmake (m * 2 ^ Z.max 0 sh) (Z.to_pos (2 ^ Z.max 0 (- sh))).

Definition huge : Z := 2 ^ 1024.

Definition round (q : Q) : float :=
  match Qnum q with
  | 0 => Finite 0
  | Z.pos n =>
      let '(m, sh) := round_pos (Z.pos n) (Z.pos (Qden q)) in
      let v := value m sh in
      if Qle_bool (inject_Z huge) v then Infinite false else Finite v
  | Z.neg n =>
      let '(m, sh) := round_pos (Z.pos n) (Z.pos (Qden q)) in
      let v := value m sh in
      if Qle_bool (inject_Z huge) v then Infinite true else Finite (- v)
  end.

(** [float(n)], as performed when an [int] meets a [float] in arithmetic. *)
Definition of_int (n : Z) : result Q :=
  match round (inject_Z n) with
  | Finite q => Ok q
  | Infinite _ => Raise OverflowError
  end.

(** [a / b] on two [int]s: the correctly rounded quotient. *)
Definition truediv (a b : Z) : result Q :=
  if b =? 0 then Raise ZeroDivisionError
  else
    match round (Qmake (a * Z.sgn b) (Z.to_pos (Z.abs b))) with
    | Finite q => Ok q
    | Infinite _ => Raise OverflowError
    end.

(** [x * y] on two finite [float]s. *)
Definition mul (x y : Q) : float := round (x * y).

(** [x - y] on two finite [float]s. *)
Definition sub (x y : Q) : float := round (x - y).

(** [int(x)]: truncation toward zero. *)
Definition to_int (x : float) : result Z :=
  match x with
  | Finite q => Ok (Z.quot (Qnum q) (Z.pos (Qden q)))
  | Infinite _ => Raise OverflowError
  end.

(** [int(x * n)] for a float [x] and an int [n]. *)
Definition int_of_product (x : Q) (n : Z) : result Z :=
  match of_int n with
  | Ok y => to_int (mul x y)
  | Raise e => Raise e
  end.

End PyFloat.

(** ** Data shared by the services *)

Abbreviation bytes := (list Byte.byte).

Module PDFTextBlock.

(** Modelled from the spec: [ocr_processor.py] imports its text block class
    from [app.models.schemas], which declares none; the class is the spec's
    TextRun, that is the fields of [pdf_processor.PDFTextBlock] and a
    [page_number].  One record stands for both classes: [page_number] is
    [None] for a block built by [pdf_processor.py], whose dataclass has no
    such field. *)
Record t : Type := {
  page_number : option Z;
  text : string;
  x0 : Q;
  y0 : Q;
  x1 : Q;
  y1 : Q;
  font_name : string;
  font_size : Q
}.

End PDFTextBlock.

Module PDFImage.

(** [pdf_processor.PDFImage]. *)
Record t : Type := {
  data : bytes;
  width : Z;
  height : Z;
  dpi : Z;
  format : string;
  position : Q * Q * Q * Q
}.

End PDFImage.

Module PDFPage.

(** [pdf_processor.PDFPage]. *)
Record t : Type := {
  page_number : Z;
  text_blocks : list PDFTextBlock.t;
  images : list PDFImage.t;
  width : Q;
  height : Q;
  has_text : bool;
  has_images : bool
}.

End PDFPage.

(** ** OCR ([app/services/ocr_processor.py]) *)

Module OCRProcessor.

(** A PIL image: its mode, its size and its raster. *)
Record Image {Raster : Type} : Type := {
  mode : string;
  size : Z * Z;
  raster : Raster
}.
Arguments Image Raster : clear implicits.

Record t : Type := {
  languages : list string;
  lang_string : string
}.

Section Engine.

(** PIL and pytesseract. *)
Variable Raster : Type.
Variable TESSERACT_AVAILABLE : bool.
Variable get_tesseract_version : result string.
Variable Image_open : bytes -> result (Image Raster).
Variable convert : Raster -> string -> result Raster.
Variable resize : Raster -> Z * Z -> result Raster.
Variable image_to_string : Image Raster -> string -> string -> result string.
Variable image_to_osd : Image Raster -> result string.

Definition default_languages : list string := [ "chi_sim"; "eng" ].

Definition __init__ (languages : option (list string)) : result t :=
  if negb TESSERACT_AVAILABLE then Raise ImportError
  else
    let languages :=
      match languages with
      | Some (l :: ls) => l :: ls
      | _ => default_languages
      end in
    match get_tesseract_version with
    | Ok _ => Ok {| languages := languages; lang_string := PyStr.join "+" languages |}
    | Raise _ => Raise RuntimeError
    end.

Definition image_width (image : Image Raster) : Z := fst (size image).
Definition image_height (image : Image Raster) : Z := snd (size image).

Definition max_dimension : Z := 4000.

Definition _preprocess_image (image : Image Raster) : result (Image Raster) :=
  match
    (if decide (mode image = "L") then Ok image
     else match convert (raster image) "L" with
          | Ok r => Ok {| mode := "L"; size := size image; raster := r |}
          | Raise e => Raise e
          end)
  with
  | Raise e => Raise e
  | Ok image =>
      let longest := Z.max (image_width image) (image_height image) in
      if max_dimension <? longest then
        match PyFloat.truediv max_dimension longest with
        | Raise e => Raise e
        | Ok ratio =>
            match PyFloat.int_of_product ratio (image_width image),
                  PyFloat.int_of_product ratio (image_height image) with
            | Ok w, Ok h =>
                match resize (raster image) (w, h) with
                | Ok r => Ok {| mode := mode image; size := (w, h); raster := r |}
                | Raise e => Raise e
                end
            | Raise e, _ => Raise e
            | _, Raise e => Raise e
            end
        end
      else Ok image
  end.

Definition extract_text_from_image
    (self : t) (image_data : bytes) (page_number : Z) : list PDFTextBlock.t :=
  match Image_open image_data with
  | Raise _ => []
  | Ok image =>
      match _preprocess_image image with
      | Raise _ => []
      | Ok image =>
          match image_to_string image (lang_string self) "--psm 6" with
          | Raise _ => []
          | Ok text =>
              if negb (PyStr.truthy (PyStr.strip text)) then []
              else
                [ {| PDFTextBlock.page_number := Some page_number;
                     PDFTextBlock.text := PyStr.strip text;
                     PDFTextBlock.x0 := 0;
                     PDFTextBlock.y0 := 0;
                     PDFTextBlock.x1 := inject_Z (image_width image);
                     PDFTextBlock.y1 := inject_Z (image_height image);
                     PDFTextBlock.font_name := "OCR-Result";
                     PDFTextBlock.font_size := 12 |} ]
          end
      end
  end.

Definition script_map : gmap string string :=
  {[ "Han" := "chi_sim"; "Latin" := "eng"; "Vietnamese" := "vie" ]}.

(** The loop of [detect_language] over the lines of the OSD report; [None]
    when the loop ends without a [return]. *)
Fixpoint scan_osd (lines : list string) : result (option string) :=
  match lines with
  | [] => Ok None
  | line :: rest =>
      if PyStr.startswith line "Script:" then
        match PyStr.split ":" line !! 1%nat with
        | Some piece =>
            let script := PyStr.strip piece in
            Ok (Some (default "eng" (script_map !! script)))
        | None => Raise IndexError
        end
      else scan_osd rest
  end.

Definition newline : ascii := Ascii.ascii_of_nat 10.

Definition detect_language (self : t) (image_data : bytes) : string :=
  match Image_open image_data with
  | Raise _ => "eng"
  | Ok image =>
      match _preprocess_image image with
      | Raise _ => "eng"
      | Ok image =>
          match image_to_osd image with
          | Raise _ => "eng"
          | Ok osd =>
              match scan_osd (PyStr.split newline osd) with
              | Ok (Some code) => code
              | Ok None => "eng"
              | Raise _ => "eng"
              end
          end
      end
  end.

End Engine.

Arguments image_width {Raster} image.
Arguments image_height {Raster} image.

End OCRProcessor.

(** ** The trace of OCR invocations *)

Record OcrCall : Type := {
  call_image : bytes;
  call_page : Z
}.

(** A computation that may raise and that appends to the trace of calls
    made to [OCRProcessor.extract_text_from_image]. *)
Definition M (A : Type) : Type := list OcrCall -> result A * list OcrCall.

Definition ret {A} (a : A) : M A := fun tr => (Ok a, tr).
Definition bind {A B} (m : M A) (k : A -> M B) : M B :=
  fun tr =>
    match m tr with
    | (Ok a, tr') => k a tr'
    | (Raise e, tr') => (Raise e, tr')
    end.
Definition lift {A} (r : result A) : M A := fun tr => (r, tr).
Definition run {A} (m : M A) : result A * list OcrCall := m [].

Notation "'let*' x := m 'in' k" := (bind m (fun x => k))
  (at level 10, x name, m at level 100, k at level 200).

(** ** Page extraction ([app/services/pdf_processor.py]) *)

(** Python's [l[i]] on a list: a negative index counts from the end. *)
Definition py_index {A} (l : list A) (i : Z) : result A :=
  let n := Z.of_nat (length l) in
  let j := if i <? 0 then i + n else i in
  if (j <? 0) || (n <=? j) then Raise IndexError
  else match l !! Z.to_nat j with
       | Some a => Ok a
       | None => Raise IndexError
       end.

(** PyMuPDF's [doc[i]]: [IndexError] unless [i < len(doc)]; a negative
    index has the page count added to it until it is not negative.  On a
    document without pages that loop has no end, and no page is given. *)
Definition fitz_index {A} (l : list A) (i : Z) : result A :=
  let n := Z.of_nat (length l) in
  if n <=? i then Raise IndexError
  else if n =? 0 then Raise (LibraryError "no page")
  else match l !! Z.to_nat (i mod n) with
       | Some a => Ok a
       | None => Raise IndexError
       end.

(** [max(l, key=f)]: the first element whose key is the largest. *)
Definition py_max_by {A} (key : A -> Z) (first : A) (rest : list A) : A :=
  fold_left (fun best a => if key best <? key a then a else best) rest first.

Module PDFProcessor.

(** A word of [page.extract_words]: a dictionary, read with [get] and a
    default for each key. *)
Record Word : Type := {
  w_text : option string;
  w_x0 : option Q;
  w_y0 : option Q;
  w_x1 : option Q;
  w_y1 : option Q;
  w_fontname : option string;
  w_height : option Q
}.

(** A page as pdfplumber gives it. *)
Record PlumberPage : Type := {
  words : list Word;
  page_width : Q;
  page_height : Q
}.

(** An embedded image as PyMuPDF gives it: [extract_image(xref)] and
    [get_image_bbox]. *)
Record EmbeddedImage : Type := {
  img_image : bytes;
  img_width : Z;
  img_height : Z;
  img_ext : string;
  img_rect : Q * Q * Q * Q
}.

(** The file at [pdf_path], as each of the two libraries reads it. *)
Record PDF : Type := {
  pages : list PlumberPage;
  doc : list (list EmbeddedImage)
}.

Record t : Type := {
  pdf_path : PDF;
  enable_ocr : bool;
  ocr_processor : option OCRProcessor.t
}.

Section Services.

(** Whether [app.services.ocr_processor] could be imported, the
    constructor of [OCRProcessor] and its recognition method. *)
Variable OCR_AVAILABLE : bool.
Variable OCRProcessor_new : option (list string) -> result OCRProcessor.t.
Variable ocr_extract_text_from_image :
  OCRProcessor.t -> bytes -> Z -> list PDFTextBlock.t.

Definition __init__
    (pdf_path : PDF) (enable_ocr : bool) (ocr_languages : option (list string))
    : result t :=
  let enable_ocr := enable_ocr && OCR_AVAILABLE in
  if enable_ocr then
    match OCRProcessor_new ocr_languages with
    | Ok ocr =>
        Ok {| pdf_path := pdf_path; enable_ocr := enable_ocr;
              ocr_processor := Some ocr |}
    | Raise e => Raise e
    end
  else
    Ok {| pdf_path := pdf_path; enable_ocr := enable_ocr;
          ocr_processor := None |}.

Definition get_page_count (self : t) : Z :=
  Z.of_nat (length (pages (pdf_path self))).

(** The body of the loop over [words]. *)
Definition text_block_of_word (word : Word) : PDFTextBlock.t :=
  {| PDFTextBlock.page_number := None;
     PDFTextBlock.text := default "" (w_text word);
     PDFTextBlock.x0 := default 0%Q (w_x0 word);
     PDFTextBlock.y0 := default 0%Q (w_y0 word);
     PDFTextBlock.x1 := default 0%Q (w_x1 word);
     PDFTextBlock.y1 := default 0%Q (w_y1 word);
     PDFTextBlock.font_name := default "Arial" (w_fontname word);
     PDFTextBlock.font_size := default 12%Q (w_height word) |}.

(** The body of the loop over [image_list]. *)
Definition pdf_image_of (img : EmbeddedImage) : PDFImage.t :=
  {| PDFImage.data := img_image img;
     PDFImage.width := img_width img;
     PDFImage.height := img_height img;
     PDFImage.dpi := 72;
     PDFImage.format := img_ext img;
     PDFImage.position := img_rect img |}.

Definition extract_images (self : t) (page_number : Z) : result (list PDFImage.t) :=
  let doc := doc (pdf_path self) in
  if Z.of_nat (length doc) <=? page_number then Ok []
  else
    match fitz_index doc page_number with
    | Raise e => Raise e
    | Ok image_list => Ok (map pdf_image_of image_list)
    end.

Definition area (img : PDFImage.t) : Z :=
  PDFImage.width img * PDFImage.height img.

(** The call [self.ocr_processor.extract_text_from_image(...)], recorded. *)
Definition invoke_ocr (ocr : OCRProcessor.t) (image_data : bytes) (page_number : Z)
    : M (list PDFTextBlock.t) :=
  fun tr =>
    (Ok (ocr_extract_text_from_image ocr image_data page_number),
     tr ++ [ {| call_image := image_data; call_page := page_number |} ]).

(** The part of [extract_text_blocks] that follows the [with] block. *)
Definition ocr_fallback
    (self : t) (page_number : Z) (text_blocks : list PDFTextBlock.t)
    : M (list PDFTextBlock.t) :=
  match text_blocks, enable_ocr self, ocr_processor self with
  | [], true, Some ocr =>
      let* images := lift (extract_images self page_number) in
      match images with
      | first :: rest =>
          let largest_image := py_max_by area first rest in
          invoke_ocr ocr (PDFImage.data largest_image) page_number
      | [] => ret text_blocks
      end
  | _, _, _ => ret text_blocks
  end.

Definition extract_text_blocks (self : t) (page_number : Z) : M (list PDFTextBlock.t) :=
  let pages := pages (pdf_path self) in
  if Z.of_nat (length pages) <=? page_number then ret []
  else
    let* page := lift (py_index pages page_number) in
    ocr_fallback self page_number (map text_block_of_word (words page)).

Definition process_page (self : t) (page_number : Z) : M PDFPage.t :=
  let* text_blocks := extract_text_blocks self page_number in
  let* images := lift (extract_images self page_number) in
  let* page := lift (py_index (pages (pdf_path self)) page_number) in
  ret {| PDFPage.page_number := page_number;
         PDFPage.text_blocks := text_blocks;
         PDFPage.images := images;
         PDFPage.width := page_width page;
         PDFPage.height := page_height page;
         PDFPage.has_text := bool_decide (0 < length text_blocks)%nat;
         PDFPage.has_images := bool_decide (0 < length images)%nat |}.

(** [[f(i) for i in l]]. *)
Fixpoint for_each {A B} (f : A -> M B) (l : list A) : M (list B) :=
  match l with
  | [] => ret []
  | a :: l' => let* b := f a in let* bs := for_each f l' in ret (b :: bs)
  end.

Definition process_all_pages (self : t) : M (list PDFPage.t) :=
  let page_count := get_page_count self in
  for_each (process_page self) (map Z.of_nat (seq 0 (Z.to_nat page_count))).

End Services.

End PDFProcessor.

(** ** DOCX assembly ([app/services/docx_generator.py]) *)

Module DOCXGenerator.

(** A run of a paragraph: its text, [run.font.name], and the points that
    [run.font.size] is built from by [Pt]; the font name and the size are
    [None] on a run that they were not set on. *)
Record Run : Type := {
  run_text : string;
  run_font_name : option string;
  run_font_size : option Q
}.

(** The run that [add_run()] makes: no text, nothing set. *)
Definition empty_run : Run :=
  {| run_text := ""; run_font_name := None; run_font_size := None |}.

(** The body of the document that python-docx builds. *)
Inductive Element : Type :=
  | Paragraph (runs : list Run)
  | Picture (image_stream : bytes) (width : Z) (height : option Z)
  | PageBreak.

Definition Document : Type := list Element.

(** python-docx lengths are whole numbers of English Metric Units.  The
    lengths made by [Inches] are compared by the code and are modelled down
    to that unit; the length made by [Pt] is only stored. *)
Definition EMUS_PER_INCH : Z := 914400.

(** [Inches(n)] for an [int]. *)
Definition Inches_int (inches : Z) : Z := inches * EMUS_PER_INCH.

(** [Inches(x)] for a [float]: [int(x * 914400)]. *)
Definition Inches (inches : Q) : result Z :=
  PyFloat.int_of_product inches EMUS_PER_INCH.

(** The sort key [(b.y0, b.x0)] and the order of Python tuples on it. *)
Definition key (b : PDFTextBlock.t) : Q * Q := (PDFTextBlock.y0 b, PDFTextBlock.x0 b).

Definition Qlt_bool (a b : Q) : bool := negb (Qle_bool b a).

Definition key_lt (a b : Q * Q) : bool :=
  if Qeq_bool (fst a) (fst b) then Qlt_bool (snd a) (snd b)
  else Qlt_bool (fst a) (fst b).

(** [sorted(l, key=...)]: the stable sort, by insertion from the right. *)
Fixpoint insert_sorted (b : PDFTextBlock.t) (l : list PDFTextBlock.t)
    : list PDFTextBlock.t :=
  match l with
  | [] => [b]
  | c :: l' => if key_lt (key c) (key b) then c :: insert_sorted b l' else b :: c :: l'
  end.

Definition sorted (l : list PDFTextBlock.t) : list PDFTextBlock.t :=
  foldr insert_sorted [] l.

(** The state of the loop of [_group_text_into_paragraphs]. *)
Record Grouping : Type := {
  paragraphs : list (list PDFTextBlock.t);
  current_para : list PDFTextBlock.t;
  current_y : Q
}.

(** The test [abs(block.y0 - current_y) <= y_tolerance]: the coordinates
    are floats, and so is their difference. *)
Definition within_tolerance (y_tolerance y0 current_y : Q) : bool :=
  match PyFloat.sub y0 current_y with
  | PyFloat.Finite difference => Qle_bool (Qabs difference) y_tolerance
  | PyFloat.Infinite _ => false
  end.

Definition group_step (y_tolerance : Q) (st : Grouping) (block : PDFTextBlock.t)
    : Grouping :=
  if within_tolerance y_tolerance (PDFTextBlock.y0 block) (current_y st) then
    {| paragraphs := paragraphs st;
       current_para := current_para st ++ [block];
       current_y := current_y st |}
  else
    {| paragraphs := paragraphs st ++ [current_para st];
       current_para := [block];
       current_y := PDFTextBlock.y0 block |}.

Definition group_with (y_tolerance : Q) (text_blocks : list PDFTextBlock.t)
    : list (list PDFTextBlock.t) :=
  match text_blocks with
  | [] => []
  | _ =>
      match sorted text_blocks with
      | [] => []
      | first :: rest =>
          let st :=
            fold_left (group_step y_tolerance) rest
              {| paragraphs := []; current_para := [first];
                 current_y := PDFTextBlock.y0 first |} in
          match current_para st with
          | [] => paragraphs st
          | _ => paragraphs st ++ [current_para st]
          end
      end
  end.

(** The default [y_tolerance = 5.0]. *)
Definition _group_text_into_paragraphs (text_blocks : list PDFTextBlock.t)
    : list (list PDFTextBlock.t) :=
  group_with 5 text_blocks.

Section Docx.

(** python-docx's [add_picture]: the exception it raises on a stream and a
    width, if any. *)
Variable picture_error : bytes -> Z -> option exn.

Definition max_width : Z := Inches_int 6.

(** The width handed to [add_picture]. *)
Definition picture_width (img : PDFImage.t) : result Z :=
  match PyFloat.truediv (PDFImage.width img) 72 with
  | Raise e => Raise e
  | Ok inches =>
      match Inches inches with
      | Raise e => Raise e
      | Ok w => Ok (Z.min max_width w)
      end
  end.

(** The body of the [try] of [_add_image_to_document]: the document as
    the body leaves it, and the exception that ends it, if any.  python-docx's
    [add_picture] appends a paragraph with an empty run and then reads the
    image: when it raises, the paragraph and the run stay in the document. *)
Definition add_image_body (doc : Document) (img : PDFImage.t) : Document * option exn :=
  match
    (if 0 <? PDFImage.width img
     then PyFloat.truediv (PDFImage.height img) (PDFImage.width img)
     else Ok 1%Q)
  with
  | Raise e => (doc, Some e)
  | Ok aspect_ratio =>
      match picture_width img with
      | Raise e => (doc, Some e)
      | Ok width =>
          match picture_error (PDFImage.data img) width with
          | Some e => (doc ++ [Paragraph [empty_run]], Some e)
          | None =>
              (doc ++ [Picture (PDFImage.data img) width None; Paragraph []], None)
          end
      end
  end.

(** The outcome of the [try]: the document when the body completes, the
    exception when it raises. *)
Definition try_add_image (doc : Document) (img : PDFImage.t) : result Document :=
  match add_image_body doc img with
  | (doc', None) => Ok doc'
  | (_, Some e) => Raise e
  end.

(** The exception is caught and printed: the document stays as the body
    left it. *)
Definition _add_image_to_document (doc : Document) (img : PDFImage.t) : Document :=
  fst (add_image_body doc img).

(** The run added for one block. *)
Definition run_of_block (block : PDFTextBlock.t) : Run :=
  {| run_text := PDFTextBlock.text block +:+ " ";
     run_font_name := Some (FontMapper.map_font (PDFTextBlock.font_name block));
     run_font_size := Some (PDFTextBlock.font_size block) |}.

Definition _add_page_to_document (doc : Document) (page : PDFPage.t) : Document :=
  let paragraphs := _group_text_into_paragraphs (PDFPage.text_blocks page) in
  let doc :=
    fold_left (fun doc para_blocks => doc ++ [Paragraph (map run_of_block para_blocks)])
      paragraphs doc in
  fold_left _add_image_to_document (PDFPage.images page) doc.

Definition add_page_break (doc : Document) : Document := doc ++ [PageBreak].

(** The document that [create_document] builds and saves. *)
Definition create_document (pages : list PDFPage.t) : Document :=
  fold_left
    (fun doc page =>
       let doc := _add_page_to_document doc page in
       if PDFPage.page_number page <? Z.of_nat (length pages) - 1
       then add_page_break doc
       else doc)
    pages [].

End Docx.

(** The sections of a document: what lies between its page breaks. *)
Fixpoint page_sections (doc : Document) : list (list Element) :=
  match doc with
  | [] => [[]]
  | PageBreak :: doc' => [] :: page_sections doc'
  | e :: doc' =>
      match page_sections doc' with
      | s :: ss => (e :: s) :: ss
      | [] => [[e]]
      end
  end.

Definition is_page_break (e : Element) : bool :=
  match e with PageBreak => true | _ => false end.

Definition page_breaks (doc : Document) : nat :=
  length (List.filter is_page_break doc).

(** Sections joined by one page break between neighbours. *)
Fixpoint join_pages (sections : list (list Element)) : Document :=
  match sections with
  | [] => []
  | [s] => s
  | s :: rest => s ++ PageBreak :: join_pages rest
  end.

End DOCXGenerator.

(** ** The exceptions of python-docx that nothing catches *)

Module DOCXGeneratorRaising.
Import DOCXGenerator.

Section Docx.

(** [picture_error] is what [add_picture] raises, inside the [try] of
    [_add_image_to_document].  [run_error] is what python-docx raises for
    the run of a block, if anything, in [p.add_run] and in the two
    assignments to [run.font]: lxml refuses a text with a NULL byte or a
    control character.  Nothing in [DOCXGenerator] catches that, so it ends
    [create_document]. *)
Variable picture_error : bytes -> Z -> option exn.
Variable run_error : PDFTextBlock.t -> option exn.

(** The inner loop of [_add_page_to_document], over the blocks of one
    paragraph. *)
Fixpoint add_runs (runs : list Run) (para_blocks : list PDFTextBlock.t)
    : result (list Run) :=
  match para_blocks with
  | [] => Ok runs
  | block :: para_blocks' =>
      match run_error block with
      | Some e => Raise e
      | None => add_runs (runs ++ [run_of_block block]) para_blocks'
      end
  end.

(** Its outer loop, over the paragraphs. *)
Fixpoint add_paragraphs (doc : Document) (paragraphs : list (list PDFTextBlock.t))
    : result Document :=
  match paragraphs with
  | [] => Ok doc
  | para_blocks :: paragraphs' =>
      match add_runs [] para_blocks with
      | Raise e => Raise e
      | Ok runs => add_paragraphs (doc ++ [Paragraph runs]) paragraphs'
      end
  end.

Definition _add_page_to_document (doc : Document) (page : PDFPage.t) : result Document :=
  match add_paragraphs doc (_group_text_into_paragraphs (PDFPage.text_blocks page)) with
  | Raise e => Raise e
  | Ok doc =>
      Ok (fold_left (_add_image_to_document picture_error) (PDFPage.images page) doc)
  end.

(** The loop of [create_document] over the pages, [total] of them in all. *)
Fixpoint add_pages (total : nat) (doc : Document) (pages : list PDFPage.t)
    : result Document :=
  match pages with
  | [] => Ok doc
  | page :: pages' =>
      match _add_page_to_document doc page with
      | Raise e => Raise e
      | Ok doc =>
          add_pages total
            (if PDFPage.page_number page <? Z.of_nat total - 1
             then add_page_break doc
             else doc)
            pages'
      end
  end.

(** [create_document] up to [doc.save]: the document that is handed to
    [save], or the exception of the first run that python-docx refuses. *)
Definition create_document (pages : list PDFPage.t) : result Document :=
  add_pages (length pages) [] pages.

End Docx.

End DOCXGeneratorRaising.

(** ** More of Python strings: [lower] and [endswith] *)

Module PyStrCase.

(** [str.lower] on one character: the upper-case characters are 32 below
    their lower-case ones. *)
Definition lower_char (c : ascii) : ascii :=
  if PyStr.isupper c then ascii_of_N (PyStr.code c + 32) else c.

(** [s.lower()]. *)
Fixpoint lower (s : string) : string :=
  match s with
  | EmptyString => EmptyString
  | String c s' => String (lower_char c) (lower s')
  end.

(** [s.endswith(suffix)]: [suffix] is what is left of [s] from some
    position on. *)
Fixpoint endswith (s suffix : string) : bool :=
  String.eqb s suffix
  || match s with
     | EmptyString => false
     | String _ s' => endswith s' suffix
     end.

End PyStrCase.

(** ** Settings ([app/core/config.py]) *)

Module Settings.

(** The fields of [Settings] that are text and numbers; the three
    directories are in the file system of the endpoints below. *)
Record t : Type := {
  app_name : string;
  version : string;
  debug : bool;
  host : string;
  port : Z;
  max_file_size_mb : Z;
  allowed_extensions : string;
  file_ttl_hours : Z;
  allowed_origins : string
}.

(** The values of the class, which the environment may override. *)
Definition defaults : t :=
  {| app_name := "PDF2Editable";
     version := "0.1.0";
     debug := false;
     host := "0.0.0.0";
     port := 8000;
     max_file_size_mb := 150;
     allowed_extensions := "pdf";
     file_ttl_hours := 1;
     allowed_origins := "http://localhost:3000,http://localhost:8000" |}.

Definition cors_origins (self : t) : list string :=
  map PyStr.strip (PyStr.split "," (allowed_origins self)).

Definition max_file_size_bytes (self : t) : Z :=
  max_file_size_mb self * 1024 * 1024.

End Settings.

(** ** The conversion endpoints ([app/api/endpoints/convert.py]) *)

Module Convert.

(** What an endpoint answers: a response, or the status code of the
    [HTTPException] that it raises. *)
Inductive outcome (A : Type) : Type :=
  | Respond (response : A)
  | HTTPException (status_code : Z).
Arguments Respond {A} response.
Arguments HTTPException {A} status_code.

(** [schemas.ConversionResponse], without the processing time, which is
    read from the clock. *)
Record ConversionResponse : Type := {
  file_id : string;
  status : string;
  message : option string;
  download_url : option string;
  pages_processed : option Z
}.

Record FileResponse : Type := {
  path : string;
  media_type : string;
  filename : string
}.

(** The upload directory and the output directory of the settings: the
    files in each, by name. *)
Record Files : Type := {
  upload_dir : gmap string bytes;
  output_dir : gmap string DOCXGenerator.Document
}.

Inductive Path : Type :=
  | UploadPath (name : string)
  | OutputPath (name : string).

Definition exists_ (file_path : Path) (fs : Files) : bool :=
  match file_path with
  | UploadPath name => bool_decide (is_Some (upload_dir fs !! name))
  | OutputPath name => bool_decide (is_Some (output_dir fs !! name))
  end.

Definition unlink (file_path : Path) (fs : Files) : Files :=
  match file_path with
  | UploadPath name =>
      {| upload_dir := delete name (upload_dir fs); output_dir := output_dir fs |}
  | OutputPath name =>
      {| upload_dir := upload_dir fs; output_dir := delete name (output_dir fs) |}
  end.

(** [cleanup_file], once its delay is over. *)
Definition cleanup_file (file_path : Path) (fs : Files) : Files :=
  if exists_ file_path fs then unlink file_path fs else fs.

Section Endpoints.

(** The settings, what pdfplumber and PyMuPDF read from the bytes of a
    file, the OCR module as [PDFProcessor] sees it, and python-docx:
    [picture_error] is what [add_picture] raises, which
    [_add_image_to_document] catches, [run_error] what the run of a block
    raises, which nothing in [create_document] catches, and [save_error]
    what [doc.save] raises for a document and the name of its file, if
    anything, with what it then leaves under that name, which may be a part
    of the file. *)
Variable settings : Settings.t.
Variable read_pdf : bytes -> result PDFProcessor.PDF.
Variable OCR_AVAILABLE : bool.
Variable OCRProcessor_new : option (list string) -> result OCRProcessor.t.
Variable ocr_extract_text_from_image :
  OCRProcessor.t -> bytes -> Z -> list PDFTextBlock.t.
Variable picture_error : bytes -> Z -> option exn.
Variable run_error : PDFTextBlock.t -> option exn.
Variable save_error :
  string -> DOCXGenerator.Document -> option (exn * option DOCXGenerator.Document).

(** The [try] block of [convert_pdf_to_docx], up to [doc.save]: the pages
    and the document made from them.  Every exception is answered alike, so
    which of the constructor and the reading fails first is not kept. *)
Definition convert_pages (file_content : bytes)
    : result (list PDFPage.t * DOCXGenerator.Document) :=
  match read_pdf file_content with
  | Raise e => Raise e
  | Ok pdf =>
      match PDFProcessor.__init__ OCR_AVAILABLE OCRProcessor_new pdf true None with
      | Raise e => Raise e
      | Ok processor =>
          match fst (run (PDFProcessor.process_all_pages
                            ocr_extract_text_from_image processor)) with
          | Raise e => Raise e
          | Ok pages =>
              match DOCXGeneratorRaising.create_document picture_error run_error pages with
              | Raise e => Raise e
              | Ok document => Ok (pages, document)
              end
          end
      end
  end.

(** [convert_pdf_to_docx]: [file_id] is the fresh UUID, [tasks] the
    background tasks. *)
Definition convert_pdf_to_docx
    (file_id : string) (file_name : string) (file_content : bytes)
    (fs : Files) (tasks : list Path)
    : outcome ConversionResponse * Files * list Path :=
  if negb (PyStrCase.endswith (PyStrCase.lower file_name) ".pdf") then
    (HTTPException 400, fs, tasks)
  else if Settings.max_file_size_bytes settings <? Z.of_nat (length file_content) then
    (HTTPException 413, fs, tasks)
  else
    let upload_path := file_id +:+ ".pdf" in
    let fs :=
      {| upload_dir := <[upload_path := file_content]> (upload_dir fs);
         output_dir := output_dir fs |} in
    match convert_pages file_content with
    | Ok (pages, document) =>
        let output_path := file_id +:+ ".docx" in
        match save_error output_path document with
        | None =>
            (Respond
               {| file_id := file_id;
                  status := "completed";
                  message := Some "PDF successfully converted to DOCX";
                  download_url := Some ("/api/download/" +:+ file_id);
                  pages_processed := Some (Z.of_nat (length pages)) |},
             {| upload_dir := upload_dir fs;
                output_dir := <[output_path := document]> (output_dir fs) |},
             tasks ++ [UploadPath upload_path; OutputPath output_path])
        | Some (_, remains) =>
            let fs :=
              {| upload_dir := upload_dir fs;
                 output_dir :=
                   match remains with
                   | Some part => <[output_path := part]> (output_dir fs)
                   | None => output_dir fs
                   end |} in
            (HTTPException 500,
             (if exists_ (UploadPath upload_path) fs
              then unlink (UploadPath upload_path) fs else fs),
             tasks)
        end
    | Raise _ =>
        (HTTPException 500,
         (if exists_ (UploadPath upload_path) fs
          then unlink (UploadPath upload_path) fs else fs),
         tasks)
    end.

(** [download_converted_file]. *)
Definition download_converted_file (file_id : string) (fs : Files)
    : outcome FileResponse :=
  let file_path := file_id +:+ ".docx" in
  if negb (exists_ (OutputPath file_path) fs) then HTTPException 404
  else
    Respond
      {| path := file_path;
         media_type :=
           "application/vnd.openxmlformats-officedocument.wordprocessingml.document";
         filename := "converted_" +:+ file_id +:+ ".docx" |}.

End Endpoints.

End Convert.

(** * Auxiliary definitions

    What the statements below are written with: predicates on the results,
    and sample inputs. *)

Module FontSpec.
Import FontMapper.

(** The check made on every entry of the substitution table. *)
Definition entry_ok (entry : string * string) : bool :=
  let '(k, v) := entry in
  if String.eqb k ".VnTime" || String.eqb k ".VnArial" then true
  else if bool_decide (k ∈ WEB_SAFE_FONTS) then
    String.eqb (map_font k) k && String.eqb (reason (get_font_info k)) "web-safe"
  else
    String.eqb (map_font k) v && String.eqb (reason (get_font_info k)) "substituted".

End FontSpec.

Module StringSpec.

(** Whether a character occurs in a string. *)
Fixpoint has_char (c : ascii) (s : string) : bool :=
  match s with
  | EmptyString => false
  | String a s' => Ascii.eqb a c || has_char c s'
  end.

End StringSpec.

Module OCRSamples.
Import OCRProcessor.

(** A sample engine: every stream decodes to one fixed image, and the
    recognition results are fixed too. *)
Definition sample_image (w h : Z) : Image unit :=
  {| mode := "RGB"; size := (w, h); raster := tt |}.

Definition sample_ocr : OCRProcessor.t :=
  {| languages := default_languages; lang_string := "chi_sim+eng" |}.

Definition osd_report (script : string) : string :=
  PyStr.join (String newline EmptyString)
    [ "Page number: 0"; "Orientation in degrees: 0"; "Rotate: 0";
      "Orientation confidence: 3.52"; "Script: " +:+ script;
      "Script confidence: 1.25"; "" ].

Definition sample_detect (script : string) : string :=
  detect_language unit (fun _ => Ok (sample_image 800 600))
    (fun r _ => Ok r) (fun r _ => Ok r)
    (fun _ => Ok (osd_report script)) sample_ocr [].

Definition sample_extract (w h : Z) (recognized : string) : list PDFTextBlock.t :=
  extract_text_from_image unit (fun _ => Ok (sample_image w h))
    (fun r _ => Ok r) (fun r _ => Ok r)
    (fun _ _ _ => Ok recognized) sample_ocr [] 0.

End OCRSamples.

Module PDFSamples.
Import PDFProcessor.

Definition sample_word (w : string) (x y : Q) : Word :=
  {| w_text := Some w; w_x0 := Some x; w_y0 := Some y; w_x1 := Some (x + 30)%Q;
     w_y1 := Some (y + 12)%Q; w_fontname := Some "Helvetica"; w_height := Some 12%Q |}.

Definition sample_scan (w h : Z) (content : bytes) : EmbeddedImage :=
  {| img_image := content; img_width := w; img_height := h; img_ext := "png";
     img_rect := (0, 0, 612, 792)%Q |}.

Definition text_page : PlumberPage :=
  {| words := [sample_word "Normal" 0 0; sample_word "Text" 55 0];
     page_width := 612; page_height := 792 |}.

Definition blank_page : PlumberPage :=
  {| words := []; page_width := 612; page_height := 792 |}.

Definition logo : bytes := [Byte.x01].
Definition scan : bytes := [Byte.x02].
Definition stamp : bytes := [Byte.x03].

(** Three pages: text, a scan with two smaller images, and text with an
    image. *)
Definition sample_pdf : PDF :=
  {| pages := [text_page; blank_page; text_page];
     doc := [ [];
              [sample_scan 100 100 logo; sample_scan 4724 7087 scan;
               sample_scan 7087 4724 stamp];
              [sample_scan 100 100 logo] ] |}.

Definition sample_processor (ocr : bool) : t :=
  {| pdf_path := sample_pdf; enable_ocr := ocr;
     ocr_processor := if ocr then Some OCRSamples.sample_ocr else None |}.

Definition sample_recognition (_ : OCRProcessor.t) (image_data : bytes) (page_number : Z)
    : list PDFTextBlock.t :=
  [ {| PDFTextBlock.page_number := Some page_number;
       PDFTextBlock.text := "Extracted via OCR";
       PDFTextBlock.x0 := 0; PDFTextBlock.y0 := 0;
       PDFTextBlock.x1 := 100; PDFTextBlock.y1 := 20;
       PDFTextBlock.font_name := "OCR-Result"; PDFTextBlock.font_size := 12 |} ].

End PDFSamples.

Module RoundingSpec.

(** The relative error of one rounding of a binary64 number that is not
    subnormal is at most [2 ^ -53]: the factors [1 - 2 ^ -53] and
    [1 + 2 ^ -53]. *)
Definition below : Q := Qmake (2 ^ 53 - 1) (Z.to_pos (2 ^ 53)).
Definition above : Q := Qmake (2 ^ 53 + 1) (Z.to_pos (2 ^ 53)).

End RoundingSpec.

Module GroupingSpec.
Import DOCXGenerator.

(** The order of the sort keys: [key_le a b] when [b] is not below [a]. *)
Definition key_le (a b : PDFTextBlock.t) : Prop := key_lt (key b) (key a) = false.

(** The order of the sort, on the coordinates: ascending [y0], and
    ascending [x0] among equal [y0]. *)
Definition by_y0_x0 (a b : PDFTextBlock.t) : Prop :=
  (PDFTextBlock.y0 a < PDFTextBlock.y0 b)%Q
  \/ (PDFTextBlock.y0 a == PDFTextBlock.y0 b
      /\ PDFTextBlock.x0 a <= PDFTextBlock.x0 b)%Q.

(** A block is within the tolerance of an anchor: the float that is the
    difference of their [y0] is at most the tolerance in absolute value. *)
Definition within (y_tolerance anchor_y : Q) (b : PDFTextBlock.t) : Prop :=
  exists difference,
    PyFloat.sub (PDFTextBlock.y0 b) anchor_y = PyFloat.Finite difference
    /\ (Qabs difference <= y_tolerance)%Q.

(** Every group starts with an anchor that all its other blocks are within
    the tolerance of, and an anchor is beyond the tolerance of the anchor
    before it ([prev]). *)
Fixpoint anchored (y_tolerance : Q) (prev : option Q) (groups : list (list PDFTextBlock.t))
    : Prop :=
  match groups with
  | [] => True
  | [] :: _ => False
  | (a :: members) :: rest =>
      match prev with
      | Some y => ~ within y_tolerance y a
      | None => True
      end
      /\ Forall (within y_tolerance (PDFTextBlock.y0 a)) members
      /\ anchored y_tolerance (Some (PDFTextBlock.y0 a)) rest
  end.

(** Whether a block has the sort key [k]. *)
Definition same_key (k : Q * Q) (b : PDFTextBlock.t) : bool :=
  Qeq_bool (fst (key b)) (fst k) && Qeq_bool (snd (key b)) (snd k).

(** A text block with given coordinates, for the examples. *)
Definition block_at (y x : Q) : PDFTextBlock.t :=
  {| PDFTextBlock.page_number := None; PDFTextBlock.text := "word";
     PDFTextBlock.x0 := x; PDFTextBlock.y0 := y;
     PDFTextBlock.x1 := x + 20; PDFTextBlock.y1 := y + 10;
     PDFTextBlock.font_name := "Helvetica"; PDFTextBlock.font_size := 10 |}.

(** The doubles nearest to 0.7 and to 5.7: they are more than 5 apart, and
    their float difference is 5. *)
Definition double_0_7 : Q := 6305039478318694 # 9007199254740992.
Definition double_5_7 : Q := 6417629469002957 # 1125899906842624.

(** The anchor of the open paragraph is the [y0] of its first block, and
    the paragraphs built so far are anchored. *)
Definition anchored_state (tol : Q) (st : Grouping) : Prop :=
  exists a members,
    current_para st = a :: members
    /\ current_y st = PDFTextBlock.y0 a
    /\ anchored tol None (paragraphs st ++ [current_para st]).

End GroupingSpec.

Module DocumentSpec.
Import DOCXGenerator.

(** A part of a document without page breaks. *)
Definition no_page_break (part : list Element) : Prop :=
  Forall (fun e => is_page_break e = false) part.

(** A page record with given number and content, for the examples. *)
Definition sample_page (n : Z) (blocks : list PDFTextBlock.t) (images : list PDFImage.t)
    : PDFPage.t :=
  {| PDFPage.page_number := n;
     PDFPage.text_blocks := blocks;
     PDFPage.images := images;
     PDFPage.width := 612;
     PDFPage.height := 792;
     PDFPage.has_text := bool_decide (0 < length blocks)%nat;
     PDFPage.has_images := bool_decide (0 < length images)%nat |}.

Definition sample_picture (w h : Z) : PDFImage.t :=
  {| PDFImage.data := [Byte.x89; Byte.x50]; PDFImage.width := w; PDFImage.height := h;
     PDFImage.dpi := 72; PDFImage.format := "png";
     PDFImage.position := (0, 0, 612, 792)%Q |}.

(** The round trip of the spec: text, then a scan with its recognized
    text, then an empty page. *)
Definition three_pages : list PDFPage.t :=
  [ sample_page 0 [GroupingSpec.block_at 0 0; GroupingSpec.block_at 0 40] [];
    sample_page 1 [GroupingSpec.block_at 0 0] [sample_picture 4724 7087];
    sample_page 2 [] [] ].

(** python-docx accepting every picture. *)
Definition no_picture_error (_ : bytes) (_ : Z) : option exn := None.

End DocumentSpec.

Module PictureSpec.
Import DOCXGenerator.

(** The width in EMU that an image of [w] pixels would have at 72 pixels to
    the inch, were it computed exactly. *)
Definition exact_emu (w : Z) : Z := w * EMUS_PER_INCH / 72.

(** The check made on every width below 432 pixels: the width handed to
    python-docx is the exact one or one EMU less, it is the exact one when
    [w / 72] is a binary fraction, and it is under six inches. *)
Definition small_width_ok (w : Z) : bool :=
  match picture_width (DocumentSpec.sample_picture w 0) with
  | Ok e =>
      (exact_emu w - 1 <=? e) && (e <=? exact_emu w) && (e <? max_width)
      && ((negb (w mod 9 =? 0)) || (e =? exact_emu w))
  | Raise _ => false
  end.

End PictureSpec.

(** The computations of [PyFloat] on the primitive floats of the kernel,
    read back as rationals. *)
Module KernelFloat.
Import PyFloat.

Definition of_spec_float (x : SpecFloat.spec_float) : option Q :=
  match x with
  | SpecFloat.S754_zero _ => Some 0%Q
  | SpecFloat.S754_finite negative m e =>
      let v := value (Z.pos m) e in
      Some (if negative then (- v)%Q else v)
  | _ => None
  end.

Definition kernel_float (n : Z) : PrimFloat.float :=
  PrimFloat.of_uint63 (Uint63.of_Z n).

(** [(a / b) * c] on [int]s below [2 ^ 53], by the kernel and by the model. *)
Definition kernel_quotient_times (a b c : Z) : option Q :=
  of_spec_float
    (FloatOps.Prim2SF
       (PrimFloat.mul (PrimFloat.div (kernel_float a) (kernel_float b)) (kernel_float c))).

Definition model_quotient_times (a b c : Z) : option Q :=
  match truediv a b, of_int c with
  | Ok x, Ok y =>
      match mul x y with
      | Finite v => Some v
      | Infinite _ => None
      end
  | _, _ => None
  end.

Definition agree (a b c : Z) : bool :=
  match kernel_quotient_times a b c, model_quotient_times a b c with
  | Some u, Some v => Qeq_bool u v
  | _, _ => false
  end.

(** [a / b - c / d] on [int]s below [2 ^ 53], by the kernel and by the
    model. *)
Definition kernel_difference (a b c d : Z) : PrimFloat.float :=
  PrimFloat.sub
    (PrimFloat.div (kernel_float a) (kernel_float b))
    (PrimFloat.div (kernel_float c) (kernel_float d)).

Definition model_difference (a b c d : Z) : option Q :=
  match truediv a b, truediv c d with
  | Ok x, Ok y =>
      match sub x y with
      | Finite v => Some v
      | Infinite _ => None
      end
  | _, _ => None
  end.

Definition agree_difference (a b c d : Z) : bool :=
  match of_spec_float (FloatOps.Prim2SF (kernel_difference a b c d)),
        model_difference a b c d with
  | Some u, Some v => Qeq_bool u v
  | _, _ => false
  end.

(** [abs(a / b - c / d) <= 5], by the kernel and by the model. *)
Definition kernel_within_5 (a b c d : Z) : bool :=
  PrimFloat.leb (PrimFloat.abs (kernel_difference a b c d)) (kernel_float 5).

Definition model_within_5 (a b c d : Z) : bool :=
  match truediv a b, truediv c d with
  | Ok x, Ok y => DOCXGenerator.within_tolerance 5 x y
  | _, _ => false
  end.

End KernelFloat.

Module FontChecks.
Import FontMapper.

(** The check made on every web-safe name: it is left as it is. *)
Definition web_safe_ok (name : string) : bool :=
  String.eqb (_clean_font_name name) name
  && String.eqb (map_font name) name
  && String.eqb (reason (get_font_info name)) "web-safe".

(** The checks made on every entry of the substitution table: its target
    is a web-safe font or [Segoe UI], and it does not map a name to
    itself. *)
Definition target_ok (entry : string * string) : bool :=
  bool_decide (snd entry ∈ WEB_SAFE_FONTS) || String.eqb (snd entry) "Segoe UI".

Definition proper_entry (entry : string * string) : bool :=
  negb (String.eqb (fst entry) (snd entry)).

End FontChecks.

Module LineSpec.
Import DOCXGenerator RoundingSpec.

(** A run lies in the band that starts at [y] and is [tol] high. *)
Definition in_band (tol y : Q) (b : PDFTextBlock.t) : Prop :=
  (y <= PDFTextBlock.y0 b <= y + tol)%Q.

(** Two runs lie more than 5 apart, by more than the error of one
    rounding. *)
Definition apart (a b : PDFTextBlock.t) : Prop :=
  (5 < Qabs (PDFTextBlock.y0 a - PDFTextBlock.y0 b) * below)%Q.

End LineSpec.

Module DocumentView.
Import DOCXGenerator.

(** The runs of the paragraphs of a document, in their order.  The run
    that holds an accepted picture is part of its [Picture]. *)
Definition runs_of (doc : Document) : list Run :=
  flat_map (fun e => match e with Paragraph runs => runs | _ => [] end) doc.

(** The runs that carry text.  A run made for a text block does: its text
    ends with a space. *)
Definition has_text (run : Run) : bool := negb (String.eqb (run_text run) "").

Definition text_runs (doc : Document) : list Run := List.filter has_text (runs_of doc).

(** The pictures of a document: their streams and widths. *)
Definition pictures_of (doc : Document) : list (bytes * Z) :=
  omap (fun e => match e with Picture data w _ => Some (data, w) | _ => None end) doc.

(** The picture that an image gives when python-docx accepts it at the
    computed width. *)
Definition accepted (picture_error : bytes -> Z -> option exn) (img : PDFImage.t)
    : option (bytes * Z) :=
  match picture_width img with
  | Ok w =>
      match picture_error (PDFImage.data img) w with
      | None => Some (PDFImage.data img, w)
      | Some _ => None
      end
  | Raise _ => None
  end.

(** The test made after each page by the loop of [create_document], for a
    list of [total] pages. *)
Definition break_after (total : nat) (page : PDFPage.t) : bool :=
  PDFPage.page_number page <? Z.of_nat total - 1.

(** python-docx refusing the streams that start with a zero byte. *)
Definition zero_byte_error (data : bytes) (_ : Z) : option exn :=
  match data with
  | Byte.x00 :: _ => Some (LibraryError "unrecognized image")
  | _ => None
  end.

(** python-docx refusing the runs whose text has a character below the
    space other than the tab, the line feed and the carriage return. *)
Definition is_control (c : ascii) : bool :=
  let n := N_of_ascii c in
  (n <? 32)%N && negb ((n =? 9)%N || (n =? 10)%N || (n =? 13)%N).

Definition control_character_error (block : PDFTextBlock.t) : option exn :=
  if existsb is_control (list_ascii_of_string (PDFTextBlock.text block))
  then Some (LibraryError "All strings must be XML compatible")
  else None.

(** A page all of whose runs python-docx takes. *)
Definition runs_accepted (run_error : PDFTextBlock.t -> option exn) (page : PDFPage.t)
    : Prop :=
  Forall (fun block => run_error block = None) (PDFPage.text_blocks page).

End DocumentView.

Module ProcessSpec.
Import PDFProcessor.

(** The image that OCR is run on for a page, and the processor that runs
    it: there is one when the page has no word, OCR is enabled and the page
    has an image. *)
Definition ocr_target (self : t) (pg : PlumberPage) (imgs : list EmbeddedImage)
    : option (OCRProcessor.t * PDFImage.t) :=
  match words pg, enable_ocr self, ocr_processor self, map pdf_image_of imgs with
  | [], true, Some ocr, first :: rest => Some (ocr, py_max_by area first rest)
  | _, _, _, _ => None
  end.

Definition ocr_calls (self : t) (i : Z) (pg : PlumberPage) (imgs : list EmbeddedImage)
    : list OcrCall :=
  match ocr_target self pg imgs with
  | Some (_, img) => [ {| call_image := PDFImage.data img; call_page := i |} ]
  | None => []
  end.

Definition page_text
    (ocr_extract_text_from_image : OCRProcessor.t -> bytes -> Z -> list PDFTextBlock.t)
    (self : t) (i : Z) (pg : PlumberPage) (imgs : list EmbeddedImage)
    : list PDFTextBlock.t :=
  match ocr_target self pg imgs with
  | Some (ocr, img) => ocr_extract_text_from_image ocr (PDFImage.data img) i
  | None => map text_block_of_word (words pg)
  end.

(** The record of the page [i], read as [pg] by pdfplumber and as [imgs]
    by PyMuPDF. *)
Definition page_record
    (ocr_extract_text_from_image : OCRProcessor.t -> bytes -> Z -> list PDFTextBlock.t)
    (self : t) (i : Z) (pg : PlumberPage) (imgs : list EmbeddedImage) : PDFPage.t :=
  let text_blocks := page_text ocr_extract_text_from_image self i pg imgs in
  {| PDFPage.page_number := i;
     PDFPage.text_blocks := text_blocks;
     PDFPage.images := map pdf_image_of imgs;
     PDFPage.width := page_width pg;
     PDFPage.height := page_height pg;
     PDFPage.has_text := bool_decide (0 < length text_blocks)%nat;
     PDFPage.has_images := bool_decide (0 < length (map pdf_image_of imgs))%nat |}.

End ProcessSpec.

Module UploadSpec.

(** A file name that ends with [.pdf] in some mix of cases. *)
Definition pdf_name (file_name : string) : Prop :=
  exists stem p d f,
    file_name = stem +:+ String "." (String p (String d (String f EmptyString)))
    /\ (p = "p" \/ p = "P")%char
    /\ (d = "d" \/ d = "D")%char
    /\ (f = "f" \/ f = "F")%char.

(** The number of times a character occurs in a string. *)
Fixpoint count_char (c : ascii) (s : string) : nat :=
  match s with
  | EmptyString => O
  | String a s' => (if Ascii.eqb a c then 1 else 0) + count_char c s'
  end.

(** A sample file and the reading of it. *)
Definition sample_upload : bytes := [Byte.x25; Byte.x50; Byte.x44; Byte.x46].

Definition sample_read (_ : bytes) : result PDFProcessor.PDF :=
  Ok PDFSamples.sample_pdf.

(** [doc.save] writing every document. *)
Definition saved (_ : string) (_ : DOCXGenerator.Document)
    : option (exn * option DOCXGenerator.Document) :=
  None.

Definition no_files : Convert.Files :=
  {| Convert.upload_dir := ∅; Convert.output_dir := ∅ |}.

End UploadSpec.

(** Case analysis on a character whose lower-case form is given. *)
Ltac lower_char_cases c :=
  destruct c as [[] [] [] [] [] [] [] []]; vm_compute; intros H;
  first [discriminate H | by left | by right | reflexivity].

(** Case analysis on the integer comparisons of a goal. *)
Ltac case_compare :=
  repeat match goal with
    | |- context [?a <? ?b] => destruct (Z.ltb_spec a b)
    | |- context [?a <=? ?b] => destruct (Z.leb_spec a b)
    | |- context [?a =? ?b] => destruct (Z.eqb_spec a b)
    end;
  cbn [orb andb negb]; try lia; try done.

(** * Properties *)

(** ** Font mapping *)

Module FontMapperFacts.
Import FontMapper.

Lemma FONT_SUBSTITUTION_items_lookup (k v : string) :
  FONT_SUBSTITUTION !! k = Some v -> (k, v) ∈ FONT_SUBSTITUTION_items.
Proof. apply elem_of_list_to_map_2. Qed.

(** The three branches of [map_font]. *)
Lemma map_font_web_safe (name : string) :
  _clean_font_name name ∈ WEB_SAFE_FONTS -> map_font name = _clean_font_name name.
Proof. intros Hin. unfold map_font. by rewrite decide_True. Qed.

Lemma map_font_substituted (name v : string) :
  _clean_font_name name ∉ WEB_SAFE_FONTS ->
  FONT_SUBSTITUTION !! _clean_font_name name = Some v ->
  map_font name = v.
Proof. intros Hnot Hv. unfold map_font. rewrite decide_False by done. by rewrite Hv. Qed.

Lemma map_font_fallback (name : string) :
  _clean_font_name name ∉ WEB_SAFE_FONTS ->
  FONT_SUBSTITUTION !! _clean_font_name name = None ->
  map_font name = "Arial".
Proof. intros Hnot Hv. unfold map_font. rewrite decide_False by done. by rewrite Hv. Qed.

(** Cleaning breaks the two keys that mix cases: they are looked up under
    another name and fall through to the default font. *)
Lemma clean_VnTime : _clean_font_name ".VnTime" = ".Vn Time".
Proof. reflexivity. Qed.

Lemma map_font_VnTime :
  FONT_SUBSTITUTION !! ".VnTime" = Some "Times New Roman"
  /\ map_font ".VnTime" = "Arial"
  /\ reason (get_font_info ".VnTime") = "fallback".
Proof. by vm_compute. Qed.

Lemma map_font_VnArial :
  FONT_SUBSTITUTION !! ".VnArial" = Some "Arial"
  /\ _clean_font_name ".VnArial" = ".Vn Arial"
  /\ reason (get_font_info ".VnArial") = "fallback".
Proof. by vm_compute. Qed.

(** C3, as stated, fails: [Georgia] is a key of the substitution table and
    also a web-safe font, and the web-safe test comes first, so [map_font]
    returns it unchanged with reason [web-safe]. *)
Lemma map_font_Georgia_is_web_safe :
  ~ (forall k v : string,
       FONT_SUBSTITUTION !! k = Some v ->
       map_font k = v /\ reason (get_font_info k) = "substituted").
Proof.
  intros H. destruct (H "Georgia" "Times New Roman") as [Hmap _].
  - by vm_compute.
  - vm_compute in Hmap. discriminate Hmap.
Qed.

Lemma FONT_SUBSTITUTION_items_checked :
  forallb FontSpec.entry_ok FONT_SUBSTITUTION_items = true.
Proof. vm_compute. reflexivity. Qed.

(** C3, amended: for every entry [(k, v)] of the substitution table, the
    keys [.VnTime] and [.VnArial] apart, [map_font] maps [k] to [v] and
    [get_font_info] reports [substituted], unless [k] is itself a web-safe
    font, which [map_font] returns unchanged and [get_font_info] reports as
    [web-safe]. *)
Theorem map_font_substitution_entries (k v : string) :
  FONT_SUBSTITUTION !! k = Some v ->
  k <> ".VnTime" ->
  k <> ".VnArial" ->
  (k ∉ WEB_SAFE_FONTS ->
   map_font k = v /\ reason (get_font_info k) = "substituted")
  /\ (k ∈ WEB_SAFE_FONTS ->
      map_font k = k /\ reason (get_font_info k) = "web-safe").
Proof.
  intros Hkv Htime Harial.
  apply FONT_SUBSTITUTION_items_lookup in Hkv.
  pose proof FONT_SUBSTITUTION_items_checked as Hall.
  rewrite forallb_forall in Hall.
  specialize (Hall (k, v) (proj1 (list_elem_of_In _ _) Hkv)).
  unfold FontSpec.entry_ok in Hall.
  rewrite (proj2 (String.eqb_neq _ _) Htime), (proj2 (String.eqb_neq _ _) Harial) in Hall.
  cbn [orb] in Hall.
  destruct (bool_decide (k ∈ WEB_SAFE_FONTS)) eqn:Hsafe.
  - apply bool_decide_eq_true in Hsafe.
    apply andb_prop in Hall as [Hmap%String.eqb_eq Hreason%String.eqb_eq].
    split; [intros Hout; exfalso; exact (Hout Hsafe) | intros _; split; assumption].
  - apply bool_decide_eq_false in Hsafe.
    apply andb_prop in Hall as [Hmap%String.eqb_eq Hreason%String.eqb_eq].
    split; [intros _; split; assumption | intros Hin; exfalso; exact (Hsafe Hin)].
Qed.

Lemma map_font_substitution_entries_witness :
  map_font "Helvetica" = "Arial"
  /\ reason (get_font_info "Helvetica") = "substituted".
Proof.
  apply (proj1 (map_font_substitution_entries "Helvetica" "Arial"
                  ltac:(by vm_compute) ltac:(discriminate) ltac:(discriminate))).
  apply (proj1 (bool_decide_eq_false _)). by vm_compute.
Defined.

(** The entry of the table that a web-safe key shadows. *)
Example map_font_Georgia :
  FONT_SUBSTITUTION !! "Georgia" = Some "Times New Roman"
  /\ map_font "Georgia" = "Georgia"
  /\ reason (get_font_info "Georgia") = "web-safe".
Proof. by vm_compute. Qed.

(** The cases of [tests/test_font_mapper.py]. *)
Example test_font_mapper :
  map_font "Arial" = "Arial"
  /\ map_font "Times New Roman" = "Times New Roman"
  /\ map_font "UTM Avo" = "Arial"
  /\ map_font "VNI-Times" = "Times New Roman"
  /\ map_font "Helvetica" = "Arial"
  /\ map_font "Roboto" = "Arial"
  /\ map_font "SomeRandomFont123" = "Arial"
  /\ _clean_font_name "Arial-Bold" = "Arial"
  /\ reason (get_font_info "Arial") = "web-safe"
  /\ reason (get_font_info "UTM Avo") = "substituted"
  /\ mapped (get_font_info "UTM Avo") = "Arial"
  /\ reason (get_font_info "UnknownFont") = "fallback".
Proof. by vm_compute. Qed.

End FontMapperFacts.

(** ** Strings *)

Module PyStrFacts.
Import PyStr StringSpec.

Lemma truthy_false (s : string) : truthy s = false <-> s = EmptyString.
Proof. destruct s; simpl; split; congruence. Qed.

Lemma append_nil_l (s : string) : EmptyString +:+ s = s.
Proof. reflexivity. Qed.

Lemma append_cons (a : ascii) (p s : string) :
  String a p +:+ s = String a (p +:+ s).
Proof. reflexivity. Qed.

Lemma append_nil_r (p : string) : p +:+ EmptyString = p.
Proof.
  induction p as [|a p IH]; [done|].
  by rewrite append_cons, IH.
Qed.

Lemma startswith_app (p s : string) : startswith (p +:+ s) p = true.
Proof.
  induction p as [|a p IH]; [done|].
  rewrite append_cons. simpl. by rewrite Ascii.eqb_refl.
Qed.

Lemma split_without_sep (sep : ascii) (piece : string) :
  has_char sep piece = false -> split sep piece = [piece].
Proof.
  induction piece as [|a piece IH]; simpl; [done|].
  intros [Ha Hrest]%orb_false_elim.
  rewrite Ha, (IH Hrest). done.
Qed.

Lemma split_at_sep (sep : ascii) (piece rest : string) :
  has_char sep piece = false ->
  split sep (piece +:+ String sep rest) = piece :: split sep rest.
Proof.
  induction piece as [|a piece IH].
  - intros _. rewrite append_nil_l. simpl. by rewrite Ascii.eqb_refl.
  - intros Hpiece. simpl in Hpiece.
    apply orb_false_elim in Hpiece as [Ha Hrest].
    rewrite append_cons. simpl. rewrite Ha, (IH Hrest). done.
Qed.

(** The first piece of what follows a separator. *)
Lemma split_first_piece (sep : ascii) (piece tail : string) :
  has_char sep piece = false ->
  tail = EmptyString \/ startswith tail (String sep EmptyString) = true ->
  exists more, split sep (piece +:+ tail) = piece :: more.
Proof.
  intros Hpiece [-> | Htail].
  - exists []. rewrite append_nil_r. by apply split_without_sep.
  - destruct tail as [|b tail]; simpl in Htail; [done|].
    destruct (Ascii.eqb sep b) eqn:Hb; [|done].
    apply Ascii.eqb_eq in Hb as <-.
    eexists. by apply split_at_sep.
Qed.

End PyStrFacts.

(** ** OCR *)

Module OCRFacts.
Import OCRProcessor OCRSamples.

Section Engine.

Variable Raster : Type.
Variable Image_open : bytes -> result (Image Raster).
Variable convert : Raster -> string -> result Raster.
Variable resize : Raster -> Z * Z -> result Raster.
Variable image_to_string : Image Raster -> string -> string -> result string.
Variable image_to_osd : Image Raster -> result string.

Local Abbreviation preprocess := (_preprocess_image Raster convert resize).
Local Abbreviation extract :=
  (extract_text_from_image Raster Image_open convert resize image_to_string).
Local Abbreviation detect :=
  (detect_language Raster Image_open convert resize image_to_osd).

(** Preprocessing yields a grayscale image. *)
Lemma _preprocess_image_mode (image image' : Image Raster) :
  preprocess image = Ok image' -> mode image' = "L".
Proof.
  unfold _preprocess_image. intros H.
  destruct (decide (mode image = "L")) as [HL | HL].
  - repeat (case_match; simplify_eq; try done).
  - destruct (convert (raster image) "L"); [|done].
    repeat (case_match; simplify_eq; try done).
Qed.

(** An image whose sides are within the ceiling keeps its size. *)
Lemma _preprocess_image_small (image image' : Image Raster) :
  Z.max (image_width image) (image_height image) <= max_dimension ->
  preprocess image = Ok image' -> size image' = size image.
Proof.
  unfold _preprocess_image. intros Hsmall H.
  destruct (decide (mode image = "L")) as [HL | HL].
  - rewrite (proj2 (Z.ltb_ge _ _)) in H by done. by simplify_eq.
  - destruct (convert (raster image) "L"); [|done].
    unfold image_width, image_height in H; simpl in H.
    rewrite (proj2 (Z.ltb_ge _ _)) in H by done. by simplify_eq.
Qed.

(** Any failure on the way to the recognized text gives no text run. *)
Lemma extract_text_from_image_failure (self : t) (data : bytes) (page_number : Z) :
  (exists e, Image_open data = Raise e)
  \/ (exists image e, Image_open data = Ok image /\ preprocess image = Raise e)
  \/ (exists image image' e,
        Image_open data = Ok image /\ preprocess image = Ok image'
        /\ image_to_string image' (lang_string self) "--psm 6" = Raise e) ->
  extract self data page_number = [].
Proof.
  unfold extract_text_from_image.
  intros [[e ->] | [(image & e & -> & ->) | (image & image' & e & -> & -> & ->)]]; done.
Qed.

(** C6: when the stream decodes and the engine recognizes [text] on the
    preprocessed image, the result is empty if [text] is blank, and otherwise
    is one run that carries the trimmed text, the font name [OCR-Result], the
    font size 12 and the box [(0, 0, width, height)] of the preprocessed
    image, which is grayscale. *)
Theorem extract_text_from_image_result
    (self : t) (data : bytes) (page_number : Z)
    (image image' : Image Raster) (recognized : string) :
  Image_open data = Ok image ->
  preprocess image = Ok image' ->
  image_to_string image' (lang_string self) "--psm 6" = Ok recognized ->
  mode image' = "L"
  /\ (PyStr.strip recognized = "" -> extract self data page_number = [])
  /\ (PyStr.strip recognized <> "" ->
      exists run,
        extract self data page_number = [run]
        /\ PDFTextBlock.font_name run = "OCR-Result"
        /\ PDFTextBlock.font_size run = 12%Q
        /\ (PDFTextBlock.x0 run, PDFTextBlock.y0 run,
            PDFTextBlock.x1 run, PDFTextBlock.y1 run)
           = (0%Q, 0%Q, inject_Z (image_width image'), inject_Z (image_height image'))
        /\ PDFTextBlock.text run = PyStr.strip recognized
        /\ PDFTextBlock.page_number run = Some page_number).
Proof.
  intros Hopen Hpre Hocr.
  split; [by eapply _preprocess_image_mode|].
  unfold extract_text_from_image. rewrite Hopen, Hpre, Hocr.
  split.
  - intros ->. done.
  - intros Hne.
    destruct (PyStr.truthy (PyStr.strip recognized)) eqn:Htruthy.
    + simpl. eexists. split; [done|]. done.
    + by apply PyStrFacts.truthy_false in Htruthy.
Qed.

(** The loop over the lines of the report stops at the first line that
    starts with [Script:] and looks its script up in the table. *)
Lemma scan_osd_skips (pre rest : list string) :
  Forall (fun line => PyStr.startswith line "Script:" = false) pre ->
  scan_osd (pre ++ rest) = scan_osd rest.
Proof.
  induction 1 as [|line pre Hline _ IH]; [done|].
  rewrite <- app_comm_cons. cbn [scan_osd]. by rewrite Hline.
Qed.

Lemma scan_osd_no_script (lines : list string) :
  Forall (fun line => PyStr.startswith line "Script:" = false) lines ->
  scan_osd lines = Ok None.
Proof.
  intros H. rewrite <- (app_nil_r lines). by rewrite scan_osd_skips.
Qed.

Lemma scan_osd_script_line (piece tail : string) (post : list string) :
  StringSpec.has_char ":" piece = false ->
  tail = "" \/ PyStr.startswith tail ":" = true ->
  scan_osd (("Script:" +:+ piece +:+ tail) :: post)
  = Ok (Some (default "eng" (script_map !! PyStr.strip piece))).
Proof.
  intros Hpiece Htail.
  destruct (PyStrFacts.split_first_piece ":" piece tail Hpiece Htail) as [more Hsplit].
  cbn [scan_osd]. rewrite PyStrFacts.startswith_app.
  change ("Script:" +:+ piece +:+ tail)
    with ("Script" +:+ String ":" (piece +:+ tail)).
  rewrite PyStrFacts.split_at_sep by done.
  rewrite Hsplit. done.
Qed.

Lemma script_map_lookup (script : string) :
  default "eng" (script_map !! script)
  = if decide (script = "Han") then "chi_sim"
    else if decide (script = "Vietnamese") then "vie"
    else "eng".
Proof.
  unfold script_map.
  destruct (decide (script = "Han")) as [-> | HHan]; [done|].
  rewrite lookup_insert_ne by done.
  destruct (decide (script = "Latin")) as [-> | HLatin]; [done|].
  rewrite lookup_insert_ne by done.
  destruct (decide (script = "Vietnamese")) as [-> | HViet]; [done|].
  rewrite lookup_singleton_ne by done. done.
Qed.

(** C8, amended: the script named on the first [Script:] line of the report
    is mapped by a fixed table that sends [Han] to [chi_sim], [Latin] to [eng]
    and [Vietnamese] to [vie]; every other script, a report without such a
    line, and every failure of decoding, preprocessing or detection give
    [eng]. *)
Theorem detect_language_table (self : t) (data : bytes) :
  (forall image image' osd pre piece tail post,
      Image_open data = Ok image ->
      preprocess image = Ok image' ->
      image_to_osd image' = Ok osd ->
      PyStr.split newline osd = pre ++ ("Script:" +:+ piece +:+ tail) :: post ->
      Forall (fun line => PyStr.startswith line "Script:" = false) pre ->
      StringSpec.has_char ":" piece = false ->
      tail = "" \/ PyStr.startswith tail ":" = true ->
      (PyStr.strip piece = "Han" -> detect self data = "chi_sim")
      /\ (PyStr.strip piece = "Latin" -> detect self data = "eng")
      /\ (PyStr.strip piece = "Vietnamese" -> detect self data = "vie")
      /\ (PyStr.strip piece <> "Han" -> PyStr.strip piece <> "Vietnamese" ->
          detect self data = "eng"))
  /\ (forall image image' osd,
        Image_open data = Ok image ->
        preprocess image = Ok image' ->
        image_to_osd image' = Ok osd ->
        Forall (fun line => PyStr.startswith line "Script:" = false)
          (PyStr.split newline osd) ->
        detect self data = "eng")
  /\ ((exists e, Image_open data = Raise e)
      \/ (exists image e, Image_open data = Ok image /\ preprocess image = Raise e)
      \/ (exists image image' e,
            Image_open data = Ok image /\ preprocess image = Ok image'
            /\ image_to_osd image' = Raise e) ->
      detect self data = "eng").
Proof.
  split; [|split].
  - intros image image' osd pre piece tail post Hopen Hpre Hosd Hlines Hskip Hpiece Htail.
    assert (detect self data = default "eng" (script_map !! PyStr.strip piece)) as ->.
    { unfold detect_language. rewrite Hopen, Hpre, Hosd, Hlines.
      rewrite scan_osd_skips by done.
      by rewrite scan_osd_script_line. }
    rewrite script_map_lookup.
    repeat split.
    + intros ->. done.
    + intros ->. done.
    + intros ->. done.
    + intros HHan HViet. by rewrite !decide_False.
  - intros image image' osd Hopen Hpre Hosd Hnone.
    unfold detect_language. rewrite Hopen, Hpre, Hosd.
    by rewrite scan_osd_no_script.
  - unfold detect_language.
    intros [[e ->] | [(image & e & -> & ->) | (image & image' & e & -> & -> & ->)]]; done.
Qed.

End Engine.

Lemma extract_text_from_image_result_witness :
  exists run,
    sample_extract 4724 7087 "  Hello  " = [run]
    /\ PDFTextBlock.font_name run = "OCR-Result"
    /\ PDFTextBlock.font_size run = 12%Q
    /\ (PDFTextBlock.x0 run, PDFTextBlock.y0 run,
        PDFTextBlock.x1 run, PDFTextBlock.y1 run)
       = (0%Q, 0%Q, inject_Z 2666, inject_Z 4000)
    /\ PDFTextBlock.text run = "Hello"
    /\ PDFTextBlock.page_number run = Some 0.
Proof.
  refine
    (proj2 (proj2
       (extract_text_from_image_result unit (fun _ => Ok (sample_image 4724 7087))
          (fun r _ => Ok r) (fun r _ => Ok r) (fun _ _ _ => Ok "  Hello  ")
          sample_ocr [] 0 (sample_image 4724 7087)
          {| mode := "L"; size := (2666, 4000); raster := tt |}
          "  Hello  " _ _ _)) _).
  - reflexivity.
  - vm_compute. reflexivity.
  - reflexivity.
  - vm_compute. discriminate.
Defined.

(** C8, as stated, fails: [Vietnamese] is neither [Han] nor [Latin], and a
    report that names it gives [vie], not the default [eng]. *)
Lemma detect_language_Vietnamese :
  ~ (forall script : string,
       script <> "Han" -> script <> "Latin" -> sample_detect script = "eng").
Proof.
  intros H. specialize (H "Vietnamese").
  vm_compute in H. by specialize (H ltac:(discriminate) ltac:(discriminate)).
Qed.

Lemma detect_language_table_witness :
  sample_detect "Han" = "chi_sim".
Proof.
  refine
    (proj1
       (proj1
          (detect_language_table unit (fun _ => Ok (sample_image 800 600))
             (fun r _ => Ok r) (fun r _ => Ok r)
             (fun _ => Ok (osd_report "Han")) sample_ocr [])
          (sample_image 800 600)
          {| mode := "L"; size := (800, 600); raster := tt |}
          (osd_report "Han")
          [ "Page number: 0"; "Orientation in degrees: 0"; "Rotate: 0";
            "Orientation confidence: 3.52" ]
          " Han" "" [ "Script confidence: 1.25"; "" ] _ _ _ _ _ _ _) _).
  - reflexivity.
  - reflexivity.
  - reflexivity.
  - reflexivity.
  - repeat constructor.
  - reflexivity.
  - left. reflexivity.
  - reflexivity.
Defined.

(** The default languages of the constructor. *)
Lemma init_default_languages (version : string) :
  __init__ true (Ok version) None
  = Ok {| languages := [ "chi_sim"; "eng" ]; lang_string := "chi_sim+eng" |}
  /\ __init__ true (Ok version) (Some []) = __init__ true (Ok version) None
  /\ (forall languages, __init__ false (Ok version) languages = Raise ImportError)
  /\ (forall e languages, __init__ true (Raise e) languages = Raise RuntimeError).
Proof. repeat split. Qed.

End OCRFacts.

(** ** Page extraction *)

Module PDFProcessorFacts.
Import PDFProcessor PDFSamples.

(** [max(l, key=f)] picks the first element of the largest key. *)
Lemma py_max_by_invariant {A} (key : A -> Z) (rest pre post : list A) (best : A) :
  Forall (fun a => key a < key best) pre ->
  Forall (fun a => key a <= key best) post ->
  exists pre' post',
    pre ++ best :: post ++ rest = pre' ++ py_max_by key best rest :: post'
    /\ Forall (fun a => key a < key (py_max_by key best rest)) pre'
    /\ Forall (fun a => key a <= key (py_max_by key best rest)) post'.
Proof.
  revert pre post best.
  induction rest as [|a rest IH]; intros pre post best Hpre Hpost.
  - exists pre, post. by rewrite app_nil_r.
  - unfold py_max_by in *. cbn [fold_left].
    destruct (key best <? key a) eqn:Hlt.
    + apply Z.ltb_lt in Hlt.
      destruct (IH (pre ++ best :: post) [] a) as (pre' & post' & Heq & H1 & H2).
      * apply Forall_app. split.
        -- eapply Forall_impl; [exact Hpre|]. simpl. lia.
        -- constructor; [lia|]. eapply Forall_impl; [exact Hpost|]. simpl. lia.
      * constructor.
      * exists pre', post'. split; [|done].
        rewrite <- Heq. by rewrite <- !app_assoc.
    + apply Z.ltb_ge in Hlt.
      destruct (IH pre (post ++ [a]) best) as (pre' & post' & Heq & H1 & H2).
      * done.
      * apply Forall_app. split; [done|]. by constructor.
      * exists pre', post'. split; [|done].
        rewrite <- Heq. by rewrite <- !app_assoc.
Qed.

Lemma py_max_by_first_largest {A} (key : A -> Z) (first : A) (rest : list A) :
  exists pre post,
    first :: rest = pre ++ py_max_by key first rest :: post
    /\ Forall (fun a => key a < key (py_max_by key first rest)) pre
    /\ Forall (fun a => key a <= key (py_max_by key first rest)) post.
Proof.
  destruct (py_max_by_invariant key rest [] [] first) as (pre & post & Heq & H);
    [constructor | constructor |].
  exists pre, post. split; [exact Heq | exact H].
Qed.

(** Indexing. *)
Lemma py_index_in_range {A} (l : list A) (i : Z) (a : A) :
  py_index l i = Ok a -> - Z.of_nat (length l) <= i < Z.of_nat (length l).
Proof. unfold py_index. case_compare. Qed.

Lemma py_index_nonnegative {A} (l : list A) (i : nat) (a : A) :
  l !! i = Some a -> py_index l (Z.of_nat i) = Ok a.
Proof.
  intros Hi. pose proof (lookup_lt_Some _ _ _ Hi) as Hlt.
  unfold py_index. case_compare. by rewrite Nat2Z.id, Hi.
Qed.

Lemma py_index_from_end {A} (l : list A) (k : nat) (a : A) :
  (1 <= k <= length l)%nat ->
  l !! (length l - k)%nat = Some a ->
  py_index l (- Z.of_nat k) = Ok a.
Proof.
  intros Hk Hi. unfold py_index. case_compare.
  replace (Z.to_nat (- Z.of_nat k + Z.of_nat (length l))) with (length l - k)%nat by lia.
  by rewrite Hi.
Qed.

Lemma py_index_too_large {A} (l : list A) (i : Z) :
  Z.of_nat (length l) <= i -> py_index l i = Raise IndexError.
Proof. intros Hi. unfold py_index. case_compare. Qed.

Lemma fitz_index_nonnegative {A} (l : list A) (i : nat) (a : A) :
  l !! i = Some a -> fitz_index l (Z.of_nat i) = Ok a.
Proof.
  intros Hi. pose proof (lookup_lt_Some _ _ _ Hi) as Hlt.
  unfold fitz_index. case_compare.
  rewrite Z.mod_small by lia.
  by rewrite Nat2Z.id, Hi.
Qed.

Lemma fitz_index_from_end {A} (l : list A) (k : nat) (a : A) :
  (1 <= k <= length l)%nat ->
  l !! (length l - k)%nat = Some a ->
  fitz_index l (- Z.of_nat k) = Ok a.
Proof.
  intros Hk Hi. unfold fitz_index. case_compare.
  replace (- Z.of_nat k mod Z.of_nat (length l))
    with (Z.of_nat (length l) - Z.of_nat k).
  - replace (Z.to_nat (Z.of_nat (length l) - Z.of_nat k)) with (length l - k)%nat by lia.
    by rewrite Hi.
  - apply Z.mod_unique with (q := -1); lia.
Qed.

Section Services.

Variable ocr_extract_text_from_image :
  OCRProcessor.t -> bytes -> Z -> list PDFTextBlock.t.

Local Abbreviation extract_text := (extract_text_blocks ocr_extract_text_from_image).
Local Abbreviation fallback := (ocr_fallback ocr_extract_text_from_image).
Local Abbreviation process := (process_page ocr_extract_text_from_image).
Local Abbreviation process_all := (process_all_pages ocr_extract_text_from_image).

(** Past the guard, [extract_text_blocks] is the fallback applied to the
    native blocks of the page. *)
Lemma extract_text_blocks_in_range (self : t) (p : Z) (page : PlumberPage) :
  py_index (pages (pdf_path self)) p = Ok page ->
  extract_text self p
  = fallback self p (map text_block_of_word (words page)).
Proof.
  intros Hpage. pose proof (py_index_in_range _ _ _ Hpage) as Hrange.
  unfold extract_text_blocks.
  rewrite (proj2 (Z.leb_gt _ _)) by lia.
  unfold bind, lift. by rewrite Hpage.
Qed.

(** Native text switches the fallback off. *)
Lemma ocr_fallback_native (self : t) (p : Z) (blocks : list PDFTextBlock.t) :
  blocks <> [] -> fallback self p blocks = ret blocks.
Proof. unfold ocr_fallback. by destruct blocks. Qed.

(** Without OCR, a page without native text has no text. *)
Lemma ocr_fallback_disabled (self : t) (p : Z) :
  enable_ocr self = false \/ ocr_processor self = None ->
  fallback self p [] = ret [].
Proof.
  unfold ocr_fallback.
  intros [-> | ->]; [done|]. by destruct (enable_ocr self).
Qed.

(** C1: on a page that pdfplumber gives, native text is returned as it is
    and the trace of OCR calls does not grow; without native text, with OCR
    enabled and a non-empty image list, OCR is called exactly once, on the
    image whose width times height is the largest, the first of them when
    several are, and its result is returned. *)
Theorem extract_text_blocks_ocr_fallback
    (self : t) (p : Z) (page : PlumberPage) (tr : list OcrCall) :
  py_index (pages (pdf_path self)) p = Ok page ->
  let native := map text_block_of_word (words page) in
  (native <> [] -> extract_text self p tr = (Ok native, tr))
  /\ (native = [] ->
      enable_ocr self = true ->
      forall ocr images,
        ocr_processor self = Some ocr ->
        extract_images self p = Ok images ->
        images <> [] ->
        exists before largest after,
          images = before ++ largest :: after
          /\ Forall
               (fun img =>
                  PDFImage.width img * PDFImage.height img
                  < PDFImage.width largest * PDFImage.height largest)
               before
          /\ Forall
               (fun img =>
                  PDFImage.width img * PDFImage.height img
                  <= PDFImage.width largest * PDFImage.height largest)
               after
          /\ extract_text self p tr
             = (Ok (ocr_extract_text_from_image ocr (PDFImage.data largest) p),
                tr ++ [ {| call_image := PDFImage.data largest; call_page := p |} ])).
Proof.
  intros Hpage native.
  rewrite (extract_text_blocks_in_range _ _ _ Hpage). fold native.
  split.
  - intros Hnative. by rewrite ocr_fallback_native.
  - intros -> Henabled ocr images Hocr Himages Hne.
    destruct images as [|first rest]; [done|].
    destruct (py_max_by_first_largest area first rest) as (before & after & Heq & Hlt & Hle).
    exists before, (py_max_by area first rest), after.
    repeat split; [done..|].
    unfold ocr_fallback. rewrite Henabled, Hocr.
    unfold bind, lift. by rewrite Himages.
Qed.

(** C5, on the code: past the last page both extractors return an empty
    list, and [process_page] then raises [IndexError] when it reads the page
    size. *)
Theorem process_page_out_of_range (self : t) (p : Z) (tr : list OcrCall) :
  Z.of_nat (length (pages (pdf_path self))) <= p ->
  Z.of_nat (length (doc (pdf_path self))) <= p ->
  extract_text self p tr = (Ok [], tr)
  /\ extract_images self p = Ok []
  /\ process self p tr = (Raise IndexError, tr).
Proof.
  intros Hpages Hdoc.
  assert (extract_text self p tr = (Ok [], tr)) as Htext.
  { unfold extract_text_blocks. by rewrite (proj2 (Z.leb_le _ _)). }
  assert (extract_images self p = Ok []) as Himages.
  { unfold extract_images. by rewrite (proj2 (Z.leb_le _ _)). }
  repeat split; [done..|].
  unfold process_page, bind, lift.
  by rewrite Htext, Himages, py_index_too_large.
Qed.

(** Before the first page counted from the end, [extract_text_blocks]
    itself raises. *)
Lemma extract_text_blocks_below_range (self : t) (p : Z) (tr : list OcrCall) :
  p < - Z.of_nat (length (pages (pdf_path self))) ->
  extract_text self p tr = (Raise IndexError, tr).
Proof.
  intros Hp. unfold extract_text_blocks, bind, lift, py_index.
  case_compare.
Qed.

(** C10: a negative index within the page count passes both guards and
    selects the page counted from the end: the text blocks are those of that
    page (its native blocks when it has any) and the images are its
    images. *)
Theorem negative_index_counts_from_end
    (self : t) (k : nat) (page : PlumberPage) (image_list : list EmbeddedImage)
    (tr : list OcrCall) :
  (1 <= k <= length (pages (pdf_path self)))%nat ->
  (1 <= k <= length (doc (pdf_path self)))%nat ->
  pages (pdf_path self) !! (length (pages (pdf_path self)) - k)%nat = Some page ->
  doc (pdf_path self) !! (length (doc (pdf_path self)) - k)%nat = Some image_list ->
  extract_text self (- Z.of_nat k) tr
  = fallback self (- Z.of_nat k) (map text_block_of_word (words page)) tr
  /\ (words page <> [] ->
      extract_text self (- Z.of_nat k) tr
      = (Ok (map text_block_of_word (words page)), tr))
  /\ extract_images self (- Z.of_nat k) = Ok (map pdf_image_of image_list).
Proof.
  intros Hk Hk' Hpage Himages.
  pose proof (py_index_from_end _ _ _ Hk Hpage) as Hindex.
  rewrite (extract_text_blocks_in_range _ _ _ Hindex).
  repeat split.
  - intros Hwords. rewrite ocr_fallback_native; [done|].
    by destruct (words page).
  - unfold extract_images.
    rewrite (proj2 (Z.leb_gt _ _)) by lia.
    by rewrite (fitz_index_from_end _ _ _ Hk' Himages).
Qed.

(** On a file that both libraries read with the same page count, every
    page is processed and numbered by its position. *)
Lemma process_page_in_range (self : t) (i : nat) (tr : list OcrCall) :
  length (doc (pdf_path self)) = length (pages (pdf_path self)) ->
  (i < length (pages (pdf_path self)))%nat ->
  exists page tr',
    process self (Z.of_nat i) tr = (Ok page, tr')
    /\ PDFPage.page_number page = Z.of_nat i.
Proof.
  intros Hlen Hi.
  destruct (lookup_lt_is_Some_2 (pages (pdf_path self)) i Hi) as [pg Hpg].
  destruct (lookup_lt_is_Some_2 (doc (pdf_path self)) i ltac:(lia)) as [imgs Himgs].
  pose proof (py_index_nonnegative _ _ _ Hpg) as Hindex.
  assert (extract_images self (Z.of_nat i) = Ok (map pdf_image_of imgs)) as Himages.
  { unfold extract_images. rewrite (proj2 (Z.leb_gt _ _)) by lia.
    by rewrite (fitz_index_nonnegative _ _ _ Himgs). }
  unfold process_page, bind at 1.
  rewrite (extract_text_blocks_in_range _ _ _ Hindex).
  unfold ocr_fallback, bind, lift, ret, invoke_ocr.
  rewrite Himages, Hindex.
  repeat case_match; simplify_eq; eauto.
Qed.

Lemma for_each_numbered (self : t) (l : list nat) (tr : list OcrCall) :
  length (doc (pdf_path self)) = length (pages (pdf_path self)) ->
  Forall (fun i => (i < length (pages (pdf_path self)))%nat) l ->
  exists processed tr',
    for_each (process self) (map Z.of_nat l) tr = (Ok processed, tr')
    /\ map PDFPage.page_number processed = map Z.of_nat l.
Proof.
  intros Hlen Hl. revert tr.
  induction Hl as [|i l Hi _ IH]; intros tr.
  - by exists [], tr.
  - destruct (process_page_in_range self i tr Hlen Hi) as (page & tr1 & Hpage & Hnum).
    destruct (IH tr1) as (processed & tr2 & Hrest & Hnums).
    exists (page :: processed), tr2.
    cbn [map for_each]. unfold bind at 1. rewrite Hpage.
    unfold bind at 1. rewrite Hrest. unfold ret.
    split; [done|]. cbn [map]. by rewrite Hnum, Hnums.
Qed.

Lemma process_all_pages_numbered (self : t) (tr : list OcrCall) :
  length (doc (pdf_path self)) = length (pages (pdf_path self)) ->
  exists processed tr',
    process_all self tr = (Ok processed, tr')
    /\ map PDFPage.page_number processed
       = map Z.of_nat (seq 0 (length (pages (pdf_path self)))).
Proof.
  intros Hlen. unfold process_all_pages, get_page_count.
  rewrite Nat2Z.id.
  apply for_each_numbered; [done|].
  apply Forall_forall. intros i Hi%elem_of_seq. lia.
Qed.

End Services.

Lemma extract_text_blocks_ocr_fallback_witness :
  exists before largest after,
    map pdf_image_of
      [sample_scan 100 100 logo; sample_scan 4724 7087 scan; sample_scan 7087 4724 stamp]
    = before ++ largest :: after
    /\ Forall
         (fun img =>
            PDFImage.width img * PDFImage.height img
            < PDFImage.width largest * PDFImage.height largest)
         before
    /\ Forall
         (fun img =>
            PDFImage.width img * PDFImage.height img
            <= PDFImage.width largest * PDFImage.height largest)
         after
    /\ extract_text_blocks sample_recognition (sample_processor true) 1 []
       = (Ok (sample_recognition OCRSamples.sample_ocr (PDFImage.data largest) 1),
          [] ++ [ {| call_image := PDFImage.data largest; call_page := 1 |} ]).
Proof.
  apply (proj2
           (extract_text_blocks_ocr_fallback sample_recognition (sample_processor true)
              1 blank_page [] eq_refl)
           eq_refl eq_refl OCRSamples.sample_ocr _ eq_refl eq_refl).
  discriminate.
Defined.

(** On the sample the call goes to the scan, the first of the two images of
    the largest area, and a page with native text leaves the trace empty. *)
Example extract_text_blocks_sample :
  run (extract_text_blocks sample_recognition (sample_processor true) 1)
  = (Ok (sample_recognition OCRSamples.sample_ocr scan 1),
     [ {| call_image := scan; call_page := 1 |} ])
  /\ snd (run (extract_text_blocks sample_recognition (sample_processor true) 0)) = [].
Proof. split; reflexivity. Qed.

Lemma process_page_out_of_range_witness :
  extract_text_blocks sample_recognition (sample_processor true) 3 [] = (Ok [], [])
  /\ extract_images (sample_processor true) 3 = Ok []
  /\ process_page sample_recognition (sample_processor true) 3 [] = (Raise IndexError, []).
Proof.
  apply (process_page_out_of_range sample_recognition (sample_processor true) 3 []).
  - simpl. lia.
  - simpl. lia.
Defined.

Lemma negative_index_counts_from_end_witness :
  extract_text_blocks sample_recognition (sample_processor true) (- Z.of_nat 1) []
  = ocr_fallback sample_recognition (sample_processor true) (- Z.of_nat 1)
      (map text_block_of_word (words text_page)) []
  /\ (words text_page <> [] ->
      extract_text_blocks sample_recognition (sample_processor true) (- Z.of_nat 1) []
      = (Ok (map text_block_of_word (words text_page)), []))
  /\ extract_images (sample_processor true) (- Z.of_nat 1)
     = Ok (map pdf_image_of [sample_scan 100 100 logo]).
Proof.
  apply (negative_index_counts_from_end sample_recognition (sample_processor true)
           1 text_page [sample_scan 100 100 logo] []).
  - simpl. lia.
  - simpl. lia.
  - reflexivity.
  - reflexivity.
Defined.

(** The last page of the sample under the index [-1]: two text blocks and
    one image, not an empty extraction. *)
Example negative_index_sample :
  exists blocks images,
    extract_text_blocks sample_recognition (sample_processor true) (-1) []
    = (Ok blocks, [])
    /\ extract_images (sample_processor true) (-1) = Ok images
    /\ length blocks = 2%nat /\ length images = 1%nat.
Proof. eexists _, _. repeat split; reflexivity. Qed.

(** *** Construction *)

(** A processor built by [__init__] with OCR enabled has an OCR
    processor, and none is enabled when the OCR module is not available. *)
Lemma init_enable_ocr
    (OCR_AVAILABLE : bool)
    (OCRProcessor_new : option (list string) -> result OCRProcessor.t)
    (pdf : PDF) (enable : bool) (languages : option (list string)) (self : t) :
  __init__ OCR_AVAILABLE OCRProcessor_new pdf enable languages = Ok self ->
  pdf_path self = pdf
  /\ enable_ocr self = enable && OCR_AVAILABLE
  /\ (enable_ocr self = true -> exists ocr, ocr_processor self = Some ocr)
  /\ (enable_ocr self = false -> ocr_processor self = None).
Proof.
  unfold __init__. intros Hinit.
  destruct (enable && OCR_AVAILABLE) eqn:Henabled.
  - destruct (OCRProcessor_new languages) as [ocr|]; [|done].
    simplify_eq. simpl. repeat split; [by eexists | done].
  - simplify_eq. simpl. repeat split; done.
Qed.

End PDFProcessorFacts.

(** ** Binary64 rounding *)

Module PyFloatFacts.
Import PyFloat KernelFloat RoundingSpec.

Lemma rne_ge (a b c : Z) : 0 <= a -> 0 < b -> c * b <= a -> c <= rne a b.
Proof.
  intros Ha Hb Hc. unfold rne.
  pose proof (Z.div_mod a b ltac:(lia)) as Hdiv.
  pose proof (Z.mod_pos_bound a b Hb) as Hmod.
  assert (c <= a / b) by nia.
  repeat case_match; lia.
Qed.

Lemma rne_le (a b c : Z) : 0 <= a -> 0 < b -> a <= c * b -> rne a b <= c.
Proof.
  intros Ha Hb Hc. unfold rne.
  pose proof (Z.div_mod a b ltac:(lia)) as Hdiv.
  pose proof (Z.mod_pos_bound a b Hb) as Hmod.
  assert (a / b <= c) by nia.
  destruct (2 * (a mod b) <? b) eqn:Hlow; [lia|].
  apply Z.ltb_ge in Hlow.
  assert (a / b < c) by nia.
  repeat case_match; lia.
Qed.

Lemma pow2_pos (e : Z) : 0 < 2 ^ Z.max 0 e.
Proof. apply Z.pow_pos_nonneg; lia. Qed.

(** The exponent found by [ilog2] is not above that of the quotient. *)
Lemma ilog2_lower (n d : Z) :
  0 < n -> 0 < d ->
  scaled_den d (ilog2 n d) <= scaled_num n (ilog2 n d).
Proof.
  intros Hn Hd. unfold ilog2.
  set (lg := Z.log2 n - Z.log2 d).
  destruct (scaled_den d lg <=? scaled_num n lg) eqn:Htest; [by apply Z.leb_le|].
  pose proof (Z.log2_spec n Hn) as [Hn1 Hn2].
  pose proof (Z.log2_spec d Hd) as [Hd1 Hd2].
  pose proof (Z.log2_nonneg n) as Hn0.
  pose proof (Z.log2_nonneg d) as Hd0.
  unfold scaled_den, scaled_num.
  destruct (Z.le_gt_cases 1 lg) as [Hpos | Hneg].
  - rewrite (Z.max_r 0 (lg - 1)), (Z.max_l 0 (- (lg - 1))) by lia.
    rewrite Z.pow_0_r, Z.mul_1_r.
    assert (2 ^ Z.log2 n = 2 ^ (Z.log2 d + 1) * 2 ^ (lg - 1)) as Hsplit.
    { rewrite <- Z.pow_add_r by lia. f_equal. lia. }
    pose proof (pow2_pos (lg - 1)) as Hp. rewrite Z.max_r in Hp by lia.
    nia.
  - rewrite (Z.max_l 0 (lg - 1)), (Z.max_r 0 (- (lg - 1))) by lia.
    rewrite Z.pow_0_r, Z.mul_1_r.
    assert (2 ^ (Z.log2 d + 1) = 2 ^ Z.log2 n * 2 ^ (- (lg - 1))) as Hsplit.
    { rewrite <- Z.pow_add_r by lia. f_equal. lia. }
    pose proof (pow2_pos (Z.log2 n)) as Hp. rewrite Z.max_r in Hp by lia.
    nia.
Qed.

(** A quotient that is at most [2 ^ k] has an exponent that is at most [k]. *)
Lemma ilog2_upper (n d k : Z) :
  0 < n -> 0 < d -> 0 <= k -> n <= d * 2 ^ k -> ilog2 n d <= k.
Proof.
  intros Hn Hd Hk Hle.
  pose proof (ilog2_lower n d Hn Hd) as Hlow.
  destruct (Z.le_gt_cases (ilog2 n d) k) as [|Hgt]; [done|].
  exfalso. unfold scaled_den, scaled_num in Hlow.
  rewrite Z.max_r, Z.max_l, Z.pow_0_r, Z.mul_1_r in Hlow by lia.
  assert (2 ^ k < 2 ^ ilog2 n d) by (apply Z.pow_lt_mono_r; lia).
  nia.
Qed.

(** Rounding does not pass a whole number below [2 ^ 53] from above: a
    quotient that is at least [T] rounds to at least [T]. *)
Lemma round_pos_ge (n d T : Z) :
  0 < n -> 0 < d -> 0 <= T < 2 ^ 53 -> T * d <= n ->
  T * 2 ^ Z.max 0 (- ulp_exp n d)
  <= rne (scaled_num n (ulp_exp n d)) (scaled_den d (ulp_exp n d))
     * 2 ^ Z.max 0 (ulp_exp n d).
Proof.
  intros Hn Hd HT Hle.
  set (sh := ulp_exp n d).
  pose proof (pow2_pos sh) as Hp. pose proof (pow2_pos (- sh)) as Hq.
  destruct (Z.le_gt_cases sh 0) as [Hsh | Hsh].
  - rewrite (Z.max_l 0 sh), Z.pow_0_r, Z.mul_1_r by lia.
    apply rne_ge.
    + unfold scaled_num. nia.
    + unfold scaled_den. nia.
    + unfold scaled_num, scaled_den.
      rewrite (Z.max_l 0 sh), Z.pow_0_r, Z.mul_1_r by lia. nia.
  - assert (ilog2 n d = sh + 52) as He by (unfold sh, ulp_exp in *; lia).
    pose proof (ilog2_lower n d Hn Hd) as Hlow. rewrite He in Hlow.
    unfold scaled_den, scaled_num in Hlow |- *.
    rewrite (Z.max_r 0 (sh + 52)), (Z.max_l 0 (- (sh + 52))), Z.pow_0_r, Z.mul_1_r
      in Hlow by lia.
    rewrite (Z.max_l 0 (- sh)), (Z.max_r 0 sh), !Z.pow_0_r, !Z.mul_1_r by lia.
    rewrite (Z.max_r 0 sh) in Hp by lia.
    assert (2 ^ 52 <= rne n (d * 2 ^ sh)) as Hm.
    { apply rne_ge; [lia | nia |].
      rewrite Z.pow_add_r in Hlow by lia. nia. }
    assert (2 <= 2 ^ sh) by (change 2 with (2 ^ 1) at 1; apply Z.pow_le_mono_r; lia).
    nia.
Qed.

(** Rounding does not pass a power of two from below. *)
Lemma round_pos_le (n d k : Z) :
  0 < n -> 0 < d -> 0 <= k -> n <= d * 2 ^ k ->
  rne (scaled_num n (ulp_exp n d)) (scaled_den d (ulp_exp n d))
  * 2 ^ Z.max 0 (ulp_exp n d)
  <= 2 ^ k * 2 ^ Z.max 0 (- ulp_exp n d).
Proof.
  intros Hn Hd Hk Hle.
  pose proof (ilog2_upper n d k Hn Hd Hk Hle) as He.
  set (sh := ulp_exp n d).
  assert (sh <= k) as Hsh by (unfold sh, ulp_exp; lia).
  pose proof (pow2_pos sh) as Hp. pose proof (pow2_pos (- sh)) as Hq.
  pose proof (pow2_pos k) as Hpk. rewrite Z.max_r in Hpk by lia.
  destruct (Z.le_gt_cases sh 0) as [Hneg | Hpos].
  - rewrite (Z.max_l 0 sh), Z.pow_0_r, Z.mul_1_r by lia.
    apply rne_le.
    + unfold scaled_num. nia.
    + unfold scaled_den. nia.
    + unfold scaled_num, scaled_den.
      rewrite (Z.max_l 0 sh), Z.pow_0_r, Z.mul_1_r by lia. nia.
  - unfold scaled_num, scaled_den.
    rewrite (Z.max_l 0 (- sh)), (Z.max_r 0 sh), !Z.pow_0_r, !Z.mul_1_r by lia.
    rewrite (Z.max_r 0 sh) in Hp by lia.
    assert (2 ^ k = 2 ^ (k - sh) * 2 ^ sh) as Hsplit.
    { rewrite <- Z.pow_add_r by lia. f_equal. lia. }
    assert (rne n (d * 2 ^ sh) <= 2 ^ (k - sh)) as Hm.
    { apply rne_le; [lia | nia | nia]. }
    nia.
Qed.

(** *** Rounding of rationals *)

Lemma value_den (sh : Z) :
  Z.pos (Z.to_pos (2 ^ Z.max 0 (- sh))) = 2 ^ Z.max 0 (- sh).
Proof. apply Z2Pos.id, pow2_pos. Qed.

(** A non-negative rational that is at most [2 ^ k], [k < 1024], rounds to
    a finite float that is at most [2 ^ k]. *)
Lemma round_finite (q : Q) (k : Z) :
  0 <= k < 1024 ->
  (0 <= q)%Q -> (q <= inject_Z (2 ^ k))%Q ->
  exists v, round q = Finite v /\ (0 <= v)%Q /\ (v <= inject_Z (2 ^ k))%Q.
Proof.
  intros Hk Hq0 Hqk. destruct q as [n d]. unfold round. cbn [Qnum Qden].
  unfold Qle in Hq0, Hqk. cbn [Qnum Qden inject_Z] in Hq0, Hqk.
  destruct n as [|n|n]; [| |lia].
  - exists 0%Q. repeat split; [done|]. unfold Qle. simpl.
    pose proof (pow2_pos k). rewrite Z.max_r in H by lia. lia.
  - unfold round_pos.
    pose proof (round_pos_le (Z.pos n) (Z.pos d) k ltac:(lia) ltac:(lia) ltac:(lia)
                  ltac:(lia)) as Hle.
    set (sh := ulp_exp (Z.pos n) (Z.pos d)) in *.
    set (m := rne (scaled_num (Z.pos n) sh) (scaled_den (Z.pos d) sh)) in *.
    assert (0 <= m) as Hm.
    { apply (rne_ge _ _ 0).
      - unfold scaled_num. pose proof (pow2_pos (- sh)). nia.
      - unfold scaled_den. pose proof (pow2_pos sh). nia.
      - unfold scaled_num. pose proof (pow2_pos (- sh)). nia. }
    assert (value m sh <= inject_Z (2 ^ k))%Q as Hv.
    { unfold Qle, value. cbn [Qnum Qden inject_Z]. rewrite value_den. lia. }
    destruct (Qle_bool (inject_Z huge) (value m sh)) eqn:Hhuge.
    + exfalso. apply Qle_bool_iff in Hhuge.
      pose proof (Qle_trans _ _ _ Hhuge Hv) as Hbad.
      unfold Qle, huge in Hbad. cbn [Qnum Qden inject_Z] in Hbad.
      assert (2 ^ k < 2 ^ 1024) by (apply Z.pow_lt_mono_r; lia). lia.
    + exists (value m sh). repeat split; [|done].
      unfold Qle, value. cbn [Qnum Qden]. pose proof (pow2_pos sh). nia.
Qed.

(** A rational that is at least the whole number [T], [T < 2 ^ 53], rounds
    to at least [T]. *)
Lemma round_ge (q v : Q) (T : Z) :
  0 <= T < 2 ^ 53 ->
  (inject_Z T <= q)%Q -> round q = Finite v -> (inject_Z T <= v)%Q.
Proof.
  intros HT HTq. destruct q as [n d]. unfold round. cbn [Qnum Qden].
  unfold Qle in HTq. cbn [Qnum Qden inject_Z] in HTq.
  destruct n as [|n|n]; [| |lia].
  - intros [= <-]. unfold Qle. simpl. lia.
  - unfold round_pos.
    pose proof (round_pos_ge (Z.pos n) (Z.pos d) T ltac:(lia) ltac:(lia) HT
                  ltac:(lia)) as Hge.
    set (sh := ulp_exp (Z.pos n) (Z.pos d)) in *.
    set (m := rne (scaled_num (Z.pos n) sh) (scaled_den (Z.pos d) sh)) in *.
    destruct (Qle_bool (inject_Z huge) (value m sh)); [done|].
    intros [= <-]. unfold Qle, value. cbn [Qnum Qden inject_Z].
    rewrite value_den. lia.
Qed.

(** [a / b] on integers, for a quotient between [T] and [2 ^ k]. *)
Lemma truediv_between (a b T k : Z) :
  0 < b -> 0 <= T < 2 ^ 53 -> 0 <= k < 1024 ->
  T * b <= a -> a <= b * 2 ^ k ->
  exists x,
    truediv a b = Ok x /\ (inject_Z T <= x)%Q /\ (x <= inject_Z (2 ^ k))%Q.
Proof.
  intros Hb HT Hk Hlow Hhigh. unfold truediv.
  rewrite (proj2 (Z.eqb_neq b 0)) by lia.
  rewrite Z.sgn_pos, Z.mul_1_r, Z.abs_eq by lia.
  assert (inject_Z T <= a # Z.to_pos b)%Q as HTq.
  { unfold Qle. cbn [Qnum Qden inject_Z]. rewrite Z2Pos.id by lia. lia. }
  destruct (round_finite (a # Z.to_pos b) k Hk) as (x & Hx & _ & Hxk).
  - unfold Qle. cbn [Qnum Qden]. nia.
  - unfold Qle. cbn [Qnum Qden inject_Z]. rewrite Z2Pos.id by lia. lia.
  - exists x. rewrite Hx. repeat split; [|done]. by eapply round_ge.
Qed.

(** [int(x)] of a finite float that is at least a whole number. *)
Lemma to_int_ge (v : Q) (T : Z) :
  (inject_Z T <= v)%Q -> exists e, to_int (Finite v) = Ok e /\ T <= e.
Proof.
  intros Hv. destruct v as [n d]. unfold Qle in Hv. cbn [Qnum Qden inject_Z] in Hv.
  eexists. split; [done|]. cbn [Qnum Qden].
  destruct (Z.le_gt_cases 0 T) as [HT | HT].
  - rewrite Z.quot_div_nonneg by nia. apply Z.div_le_lower_bound; lia.
  - destruct (Z.le_gt_cases 0 n) as [Hn | Hn].
    + pose proof (Z.quot_pos n (Z.pos d) Hn ltac:(lia)). lia.
    + apply Z.quot_le_lower_bound; lia.
Qed.

(** Rounding does not pass a whole number below [2 ^ 53] from below: a
    quotient that is at most [T] rounds to at most [T]. *)
Lemma round_pos_le_whole (n d T : Z) :
  0 < n -> 0 < d -> 0 <= T < 2 ^ 53 -> n <= T * d ->
  rne (scaled_num n (ulp_exp n d)) (scaled_den d (ulp_exp n d))
  * 2 ^ Z.max 0 (ulp_exp n d)
  <= T * 2 ^ Z.max 0 (- ulp_exp n d).
Proof.
  intros Hn Hd HT Hle.
  set (sh := ulp_exp n d).
  pose proof (pow2_pos sh) as Hp. pose proof (pow2_pos (- sh)) as Hq.
  destruct (Z.le_gt_cases sh 0) as [Hsh | Hsh].
  - rewrite (Z.max_l 0 sh), Z.pow_0_r, Z.mul_1_r by lia.
    apply rne_le.
    + unfold scaled_num. nia.
    + unfold scaled_den. nia.
    + unfold scaled_num, scaled_den.
      rewrite (Z.max_l 0 sh), Z.pow_0_r, Z.mul_1_r by lia. nia.
  - exfalso.
    assert (ilog2 n d = sh + 52) as He by (unfold sh, ulp_exp in *; lia).
    pose proof (ilog2_lower n d Hn Hd) as Hlow. rewrite He in Hlow.
    unfold scaled_den, scaled_num in Hlow.
    rewrite (Z.max_r 0 (sh + 52)), (Z.max_l 0 (- (sh + 52))), Z.pow_0_r, Z.mul_1_r
      in Hlow by lia.
    assert (2 ^ 53 <= 2 ^ (sh + 52)) by (apply Z.pow_le_mono_r; lia).
    nia.
Qed.

(** A rational that is at most the whole number [T], [T < 2 ^ 53], rounds
    to at most [T]. *)
Lemma round_le (q v : Q) (T : Z) :
  0 <= T < 2 ^ 53 ->
  (q <= inject_Z T)%Q -> round q = Finite v -> (v <= inject_Z T)%Q.
Proof.
  intros HT HqT. destruct q as [n d]. unfold round. cbn [Qnum Qden].
  unfold Qle in HqT. cbn [Qnum Qden inject_Z] in HqT.
  destruct n as [|n|n].
  - intros [= <-]. unfold Qle. simpl. lia.
  - unfold round_pos.
    pose proof (round_pos_le_whole (Z.pos n) (Z.pos d) T ltac:(lia) ltac:(lia) HT
                  ltac:(lia)) as Hle.
    set (sh := ulp_exp (Z.pos n) (Z.pos d)) in *.
    set (m := rne (scaled_num (Z.pos n) sh) (scaled_den (Z.pos d) sh)) in *.
    destruct (Qle_bool (inject_Z huge) (value m sh)); [done|].
    intros [= <-]. unfold Qle, value. cbn [Qnum Qden inject_Z].
    rewrite value_den. lia.
  - unfold round_pos.
    set (sh := ulp_exp (Z.pos n) (Z.pos d)) in *.
    set (m := rne (scaled_num (Z.pos n) sh) (scaled_den (Z.pos d) sh)) in *.
    assert (0 <= m) as Hm.
    { apply (rne_ge _ _ 0).
      - unfold scaled_num. pose proof (pow2_pos (- sh)). nia.
      - unfold scaled_den. pose proof (pow2_pos sh). nia.
      - unfold scaled_num. pose proof (pow2_pos (- sh)). nia. }
    destruct (Qle_bool (inject_Z huge) (value m sh)); [done|].
    intros [= <-]. unfold Qle, value. cbn [Qnum Qden inject_Z Qopp].
    pose proof (pow2_pos sh). nia.
Qed.

(** *** The error of a rounding *)

(** The nearest integer is within a half of the quotient. *)
Lemma rne_error (a b : Z) :
  0 <= a -> 0 < b ->
  2 * (rne a b * b) - b <= 2 * a <= 2 * (rne a b * b) + b.
Proof.
  intros Ha Hb. unfold rne.
  pose proof (Z.div_mod a b ltac:(lia)) as Hdiv.
  pose proof (Z.mod_pos_bound a b Hb) as Hmod.
  repeat case_match; nia.
Qed.

(** The quotient is below the next power of two after its exponent. *)
Lemma ilog2_below (n d : Z) :
  0 < n -> 0 < d ->
  scaled_num n (ilog2 n d + 1) < scaled_den d (ilog2 n d + 1).
Proof.
  intros Hn Hd. unfold ilog2.
  set (lg := Z.log2 n - Z.log2 d).
  destruct (scaled_den d lg <=? scaled_num n lg) eqn:Htest.
  - pose proof (Z.log2_spec n Hn) as [Hn1 Hn2].
    pose proof (Z.log2_spec d Hd) as [Hd1 Hd2].
    pose proof (Z.log2_nonneg n) as Hn0.
    pose proof (Z.log2_nonneg d) as Hd0.
    unfold scaled_den, scaled_num.
    destruct (Z.le_gt_cases 0 (lg + 1)) as [Hpos | Hneg].
    + rewrite (Z.max_r 0 (lg + 1)), (Z.max_l 0 (- (lg + 1))) by lia.
      rewrite Z.pow_0_r, Z.mul_1_r.
      assert (2 ^ Z.succ (Z.log2 n) = 2 ^ Z.log2 d * 2 ^ (lg + 1)) as Hsplit.
      { rewrite <- Z.pow_add_r by lia. f_equal. lia. }
      pose proof (pow2_pos (lg + 1)) as Hp. rewrite Z.max_r in Hp by lia.
      nia.
    + rewrite (Z.max_l 0 (lg + 1)), (Z.max_r 0 (- (lg + 1))) by lia.
      rewrite Z.pow_0_r, Z.mul_1_r.
      assert (2 ^ Z.log2 d = 2 ^ Z.succ (Z.log2 n) * 2 ^ (- (lg + 1))) as Hsplit.
      { rewrite <- Z.pow_add_r by lia. f_equal. lia. }
      pose proof (pow2_pos (- (lg + 1))) as Hp. rewrite Z.max_r in Hp by lia.
      nia.
  - apply Z.leb_gt in Htest. by replace (lg - 1 + 1) with lg by lia.
Qed.

(** A quotient that is at least [2 ^ - k] has an exponent that is at least
    [- k]. *)
Lemma ilog2_ge (n d k : Z) :
  0 < n -> 0 < d -> 0 <= k -> d <= n * 2 ^ k -> - k <= ilog2 n d.
Proof.
  intros Hn Hd Hk Hle.
  pose proof (ilog2_below n d Hn Hd) as Hbelow.
  destruct (Z.le_gt_cases (- k) (ilog2 n d)) as [|Hlt]; [done|].
  exfalso. unfold scaled_den, scaled_num in Hbelow.
  rewrite (Z.max_l 0 (ilog2 n d + 1)), (Z.max_r 0 (- (ilog2 n d + 1))) in Hbelow by lia.
  rewrite Z.pow_0_r, Z.mul_1_r in Hbelow.
  assert (2 ^ k <= 2 ^ (- (ilog2 n d + 1))) by (apply Z.pow_le_mono_r; lia).
  nia.
Qed.

(** The rounding of a quotient with an exponent from -1022 to 52: the
    last place is a negative power of two, and the multiple [m] of it that
    is chosen is within [2 ^ -53] of the quotient, relatively. *)
Lemma round_pos_error (n d : Z) :
  0 < n -> 0 < d -> -1022 <= ilog2 n d <= 52 ->
  let sh := ulp_exp n d in
  let m := rne (scaled_num n sh) (scaled_den d sh) in
  sh <= 0
  /\ (2 ^ 53 - 1) * (n * 2 ^ (- sh)) <= 2 ^ 53 * (m * d)
     <= (2 ^ 53 + 1) * (n * 2 ^ (- sh)).
Proof.
  intros Hn Hd He sh m.
  assert (sh = ilog2 n d - 52) as Hsh by (unfold sh, ulp_exp; lia).
  split; [lia|].
  pose proof (ilog2_lower n d Hn Hd) as Hlow.
  assert (scaled_num n sh = n * 2 ^ (- sh)) as Hnum
    by (unfold scaled_num; by rewrite Z.max_r by lia).
  assert (scaled_den d sh = d) as Hden
    by (unfold scaled_den; rewrite Z.max_l by lia; lia).
  assert (0 < 2 ^ (- sh)) as Hp by (apply Z.pow_pos_nonneg; lia).
  assert (d * 2 ^ 52 <= n * 2 ^ (- sh)) as Hbig.
  { unfold scaled_den, scaled_num in Hlow.
    destruct (Z.le_gt_cases 0 (ilog2 n d)) as [Hpos | Hneg].
    - rewrite (Z.max_r 0 (ilog2 n d)), (Z.max_l 0 (- ilog2 n d)) in Hlow by lia.
      rewrite Z.pow_0_r, Z.mul_1_r in Hlow.
      assert (2 ^ 52 = 2 ^ ilog2 n d * 2 ^ (- sh)) as ->.
      { rewrite <- Z.pow_add_r by lia. f_equal. lia. }
      nia.
    - rewrite (Z.max_l 0 (ilog2 n d)), (Z.max_r 0 (- ilog2 n d)) in Hlow by lia.
      rewrite Z.pow_0_r, Z.mul_1_r in Hlow.
      assert (2 ^ (- sh) = 2 ^ (- ilog2 n d) * 2 ^ 52) as ->.
      { rewrite <- Z.pow_add_r by lia. f_equal. lia. }
      nia. }
  pose proof (rne_error (scaled_num n sh) (scaled_den d sh)) as Herr.
  fold m in Herr. rewrite Hnum, Hden in Herr.
  specialize (Herr ltac:(nia) Hd).
  generalize dependent (n * 2 ^ (- sh)). generalize dependent (m * d).
  intros. lia.
Qed.

Lemma above_ge_1 : (1 <= above)%Q.
Proof. by vm_compute. Qed.

(** The relative error of a rounding that is not subnormal: for a
    rational from [2 ^ -1022] to [2 ^ 52], the float differs from it by at
    most a [2 ^ 53]-th of it. *)
Lemma round_error (q v : Q) :
  (0 < q)%Q -> (q <= inject_Z (2 ^ 52))%Q -> (1 <= q * inject_Z (2 ^ 1022))%Q ->
  round q = Finite v ->
  (q * below <= v)%Q /\ (v <= q * above)%Q.
Proof.
  intros Hpos Hhigh Hlow. destruct q as [n d]. unfold round. cbn [Qnum Qden].
  unfold Qlt, Qle in Hpos, Hhigh, Hlow.
  cbn [Qnum Qden inject_Z Qmult] in Hpos, Hhigh, Hlow.
  destruct n as [|n|n]; [lia | | lia].
  unfold round_pos.
  assert (-1022 <= ilog2 (Z.pos n) (Z.pos d) <= 52) as He.
  { split.
    - apply (ilog2_ge _ _ 1022); lia.
    - apply ilog2_upper; lia. }
  pose proof (round_pos_error (Z.pos n) (Z.pos d) ltac:(lia) ltac:(lia) He) as Herr.
  cbv zeta in Herr.
  set (sh := ulp_exp (Z.pos n) (Z.pos d)) in *.
  set (m := rne (scaled_num (Z.pos n) sh) (scaled_den (Z.pos d) sh)) in *.
  destruct Herr as (Hsh & Herr1 & Herr2).
  destruct (Qle_bool (inject_Z huge) (value m sh)); [done|].
  intros [= <-].
  unfold Qle, value, below, above. cbn [Qnum Qden Qmult inject_Z].
  rewrite value_den.
  rewrite (Z.max_l 0 sh), (Z.max_r 0 (- sh)), Z.pow_0_r, Z.mul_1_r by lia.
  rewrite !Pos2Z.inj_mul.
  change (Z.pos (Z.to_pos (2 ^ 53))) with (2 ^ 53).
  split; lia.
Qed.

(** [int(x)] of a float from 0 to below a whole number. *)
Lemma to_int_lt (v : Q) (T : Z) :
  (0 <= v)%Q -> (v < inject_Z (T + 1))%Q ->
  exists e, to_int (Finite v) = Ok e /\ 0 <= e <= T.
Proof.
  intros Hlow Hhigh. destruct v as [n d].
  unfold Qle, Qlt in *. cbn [Qnum Qden inject_Z to_int] in *.
  eexists. split; [reflexivity|].
  rewrite Z.quot_div_nonneg by lia.
  split; [apply Z.div_pos; lia|].
  assert (n / Z.pos d < T + 1); [|lia].
  apply Z.div_lt_upper_bound; lia.
Qed.

(** *** The model against the kernel's binary64 *)

(** Every [(w / 72) * 914400] with [w] below 1000, and the scaling of both
    sides of some large images to the ceiling of 4000 pixels. *)
Example model_agrees_with_kernel :
  forallb (fun w => agree w 72 914400) (map Z.of_nat (seq 0 1000)) = true
  /\ forallb (fun m => agree 4000 m m && agree 4000 m 3000)
       (map Z.of_nat (seq 4001 500)) = true.
Proof. split; vm_compute; reflexivity. Qed.

(** Differences of tenths, and the two doubles that are more than 5 apart
    and pass the tolerance test. *)
Example model_differences_agree_with_kernel :
  forallb
    (fun i => forallb (fun j => agree_difference i 10 j 10) [0; 7; 57])
    (map Z.of_nat (seq 0 60)) = true
  /\ model_quotient_times 7 10 1 = Some GroupingSpec.double_0_7
  /\ model_quotient_times 57 10 1 = Some GroupingSpec.double_5_7
  /\ kernel_within_5 57 10 7 10 = true
  /\ model_within_5 57 10 7 10 = true.
Proof. repeat split; vm_compute; reflexivity. Qed.

End PyFloatFacts.

(** ** Paragraph grouping *)

Module GroupingFacts.
Import DOCXGenerator GroupingSpec RoundingSpec.

Lemma Qlt_bool_iff (a b : Q) : Qlt_bool a b = true <-> (a < b)%Q.
Proof.
  unfold Qlt_bool. rewrite negb_true_iff, <- not_true_iff_false, Qle_bool_iff.
  split; [apply Qnot_le_lt | apply Qlt_not_le].
Qed.

Lemma key_lt_iff (a b : Q * Q) :
  key_lt a b = true
  <-> (fst a < fst b)%Q \/ (fst a == fst b /\ snd a < snd b)%Q.
Proof.
  unfold key_lt. destruct (Qeq_bool (fst a) (fst b)) eqn:Heq.
  - apply Qeq_bool_iff in Heq. rewrite Qlt_bool_iff. split.
    + intros H. by right.
    + intros [H | [_ H]]; [|done]. rewrite Heq in H. by apply Qlt_irrefl in H.
  - apply Qeq_bool_neq in Heq. rewrite Qlt_bool_iff. split.
    + intros H. by left.
    + intros [H | [H _]]; done.
Qed.

Lemma key_le_iff (a b : PDFTextBlock.t) :
  key_le a b
  <-> (PDFTextBlock.y0 a < PDFTextBlock.y0 b)%Q
      \/ (PDFTextBlock.y0 a == PDFTextBlock.y0 b
          /\ PDFTextBlock.x0 a <= PDFTextBlock.x0 b)%Q.
Proof.
  unfold key_le. rewrite <- not_true_iff_false, key_lt_iff. unfold key. simpl. split.
  - intros H.
    destruct (Q_dec (PDFTextBlock.y0 a) (PDFTextBlock.y0 b)) as [[Hlt | Hgt] | Heq].
    + by left.
    + exfalso. apply H. by left.
    + right. split; [done|]. apply Qnot_lt_le. intros Hx. apply H. right.
      split; [by symmetry | done].
  - intros [Hlt | [Heq Hle]] [Hgt | [Heq' Hgt]]; lra.
Qed.

Lemma key_le_total (a b : PDFTextBlock.t) : key_lt (key a) (key b) = true -> key_le a b.
Proof.
  rewrite key_lt_iff, key_le_iff. unfold key. simpl.
  intros [H | [H1 H2]]; [by left|]. right. split; [done|]. by apply Qlt_le_weak.
Qed.

Lemma key_le_trans (a b c : PDFTextBlock.t) : key_le a b -> key_le b c -> key_le a c.
Proof.
  rewrite !key_le_iff. intros [H1 | [H1 H1']] [H2 | [H2 H2']].
  - left. lra.
  - left. lra.
  - left. lra.
  - right. split; lra.
Qed.

(** *** [sorted] sorts *)

Lemma insert_sorted_Permutation (b : PDFTextBlock.t) (l : list PDFTextBlock.t) :
  insert_sorted b l ≡ₚ b :: l.
Proof.
  induction l as [|c l IH]; simpl; [done|].
  destruct (key_lt (key c) (key b)); [|done].
  rewrite IH. apply Permutation_swap.
Qed.

Lemma sorted_Permutation (l : list PDFTextBlock.t) : sorted l ≡ₚ l.
Proof.
  induction l as [|b l IH]; simpl; [done|].
  by rewrite insert_sorted_Permutation, IH.
Qed.

Lemma insert_sorted_HdRel (a b : PDFTextBlock.t) (l : list PDFTextBlock.t) :
  key_le a b -> HdRel key_le a l -> HdRel key_le a (insert_sorted b l).
Proof.
  intros Hab Hl. destruct l as [|c l]; simpl; [by constructor|].
  destruct (key_lt (key c) (key b)); constructor; [|done].
  by inversion Hl.
Qed.

Lemma insert_sorted_Sorted (b : PDFTextBlock.t) (l : list PDFTextBlock.t) :
  Sorted key_le l -> Sorted key_le (insert_sorted b l).
Proof.
  induction 1 as [|c l Hl IH Hc]; simpl; [by repeat constructor|].
  destruct (key_lt (key c) (key b)) eqn:Hcb.
  - constructor; [done|]. apply insert_sorted_HdRel; [|done]. by apply key_le_total.
  - constructor; [by constructor|]. by constructor.
Qed.

Lemma sorted_Sorted (l : list PDFTextBlock.t) : Sorted key_le (sorted l).
Proof.
  induction l as [|b l IH]; simpl; [constructor|]. by apply insert_sorted_Sorted.
Qed.

(** The sort is stable: blocks of the same key keep the order that they
    have in the input. *)
Lemma same_key_not_lt (k : Q * Q) (b c : PDFTextBlock.t) :
  same_key k b = true -> same_key k c = true -> key_lt (key c) (key b) = false.
Proof.
  unfold same_key.
  intros [Hb1%Qeq_bool_iff Hb2%Qeq_bool_iff]%andb_prop
         [Hc1%Qeq_bool_iff Hc2%Qeq_bool_iff]%andb_prop.
  apply not_true_iff_false. rewrite key_lt_iff. intros [H | [_ H]]; lra.
Qed.

Lemma insert_sorted_stable (k : Q * Q) (b : PDFTextBlock.t) (l : list PDFTextBlock.t) :
  List.filter (same_key k) (insert_sorted b l) = List.filter (same_key k) (b :: l).
Proof.
  induction l as [|c l IH]; [done|].
  cbn [insert_sorted]. destruct (key_lt (key c) (key b)) eqn:Hcb; [|done].
  cbn [List.filter] in *. rewrite IH.
  destruct (same_key k b) eqn:Hb, (same_key k c) eqn:Hc; try done.
  by rewrite (same_key_not_lt k b c Hb Hc) in Hcb.
Qed.

Lemma sorted_stable (k : Q * Q) (l : list PDFTextBlock.t) :
  List.filter (same_key k) (sorted l) = List.filter (same_key k) l.
Proof.
  induction l as [|b l IH]; [done|].
  cbn [sorted foldr]. rewrite insert_sorted_stable. cbn [List.filter].
  fold (sorted l). by rewrite IH.
Qed.

Lemma sorted_nil_inv (l : list PDFTextBlock.t) : sorted l = [] -> l = [].
Proof.
  intros H. apply Permutation_nil_r. by rewrite <- H, sorted_Permutation.
Qed.

(** *** The loop of [_group_text_into_paragraphs] *)

(** The blocks seen so far are the closed paragraphs followed by the open
    one, which is never empty. *)
Lemma group_step_concat (tol : Q) (rest : list PDFTextBlock.t) (st : Grouping) :
  current_para st <> [] ->
  Forall (fun g => g <> []) (paragraphs st) ->
  let st' := fold_left (group_step tol) rest st in
  concat (paragraphs st') ++ current_para st'
  = concat (paragraphs st) ++ current_para st ++ rest
  /\ current_para st' <> []
  /\ Forall (fun g => g <> []) (paragraphs st').
Proof.
  revert st. induction rest as [|b rest IH]; intros st Hcur Hpar; cbn [fold_left].
  - by rewrite app_nil_r.
  - destruct (IH (group_step tol st b)) as (Hcat & Hcur' & Hpar').
    + unfold group_step. case_match; simpl; [|done]. by destruct (current_para st).
    + unfold group_step. case_match; simpl; [done|].
      apply Forall_app. split; [done|]. by constructor.
    + split; [|done]. cbn zeta in Hcat. rewrite Hcat.
      unfold group_step. case_match; simpl.
      * by rewrite <- !app_assoc.
      * rewrite concat_app. simpl. by rewrite app_nil_r, <- !app_assoc.
Qed.

Lemma anchored_snoc_member (tol : Q) (groups : list (list PDFTextBlock.t))
    (prev : option Q) (a b : PDFTextBlock.t) (members : list PDFTextBlock.t) :
  anchored tol prev (groups ++ [a :: members]) ->
  within tol (PDFTextBlock.y0 a) b ->
  anchored tol prev (groups ++ [a :: members ++ [b]]).
Proof.
  revert prev. induction groups as [|g groups IH]; intros prev; simpl.
  - intros (Hprev & Hmem & _) Hb. repeat split; [done|].
    apply Forall_app. split; [done|]. by constructor.
  - destruct g as [|c g]; [done|]. intros (Hprev & Hmem & Hrest) Hb.
    repeat split; [done..|]. by apply IH.
Qed.

Lemma anchored_snoc_group (tol : Q) (groups : list (list PDFTextBlock.t))
    (prev : option Q) (a b : PDFTextBlock.t) (members : list PDFTextBlock.t) :
  anchored tol prev (groups ++ [a :: members]) ->
  ~ within tol (PDFTextBlock.y0 a) b ->
  anchored tol prev ((groups ++ [a :: members]) ++ [[b]]).
Proof.
  revert prev. induction groups as [|g groups IH]; intros prev; simpl.
  - intros (Hprev & Hmem & _) Hb. repeat split; done.
  - destruct g as [|c g]; [done|]. intros (Hprev & Hmem & Hrest) Hb.
    repeat split; [done..|]. by apply IH.
Qed.

Lemma within_tolerance_iff (tol anchor_y : Q) (b : PDFTextBlock.t) :
  within_tolerance tol (PDFTextBlock.y0 b) anchor_y = true <-> within tol anchor_y b.
Proof.
  unfold within_tolerance, within.
  destruct (PyFloat.sub (PDFTextBlock.y0 b) anchor_y) as [difference|negative].
  - rewrite Qle_bool_iff. split.
    + intros Hle. by exists difference.
    + intros (d & Hd & Hle). by simplify_eq.
  - split; [done | by intros (d & Hd & _)].
Qed.

Lemma group_step_anchored (tol : Q) (st : Grouping) (b : PDFTextBlock.t) :
  anchored_state tol st -> anchored_state tol (group_step tol st b).
Proof.
  intros (a & members & Hcur & Hy & Hanch). unfold group_step.
  destruct (within_tolerance tol _ _) eqn:Htest.
  - exists a, (members ++ [b]). simpl. rewrite Hcur. repeat split; [done|].
    rewrite Hcur in Hanch. apply anchored_snoc_member; [done|].
    rewrite <- Hy. by apply within_tolerance_iff.
  - exists b, []. simpl. repeat split.
    rewrite Hcur in Hanch |- *. apply anchored_snoc_group; [done|].
    rewrite <- Hy, <- within_tolerance_iff. by rewrite Htest.
Qed.

Lemma fold_group_step_anchored (tol : Q) (rest : list PDFTextBlock.t) (st : Grouping) :
  anchored_state tol st -> anchored_state tol (fold_left (group_step tol) rest st).
Proof.
  revert st. induction rest as [|b rest IH]; intros st Hst; cbn [fold_left]; [done|].
  by apply IH, group_step_anchored.
Qed.

(** What [group_with] returns, in terms of the final state of its loop. *)
Lemma group_with_unfold (tol : Q) (first : PDFTextBlock.t) (rest l : list PDFTextBlock.t) :
  sorted l = first :: rest ->
  let st :=
    fold_left (group_step tol) rest
      {| paragraphs := []; current_para := [first];
         current_y := PDFTextBlock.y0 first |} in
  group_with tol l = paragraphs st ++ [current_para st]
  /\ concat (paragraphs st) ++ current_para st = sorted l
  /\ Forall (fun g => g <> []) (paragraphs st ++ [current_para st])
  /\ anchored tol None (paragraphs st ++ [current_para st]).
Proof.
  intros Hsorted st.
  destruct (group_step_concat tol rest
              {| paragraphs := []; current_para := [first];
                 current_y := PDFTextBlock.y0 first |})
    as (Hcat & Hcur & Hpar); [done | constructor |].
  fold st in Hcat, Hcur, Hpar. simpl in Hcat.
  assert (anchored_state tol st) as (a & members & Ha & _ & Hanch).
  { apply fold_group_step_anchored. exists first, []. by repeat split. }
  repeat split.
  - unfold group_with. destruct l as [|b l]; [done|].
    rewrite Hsorted. fold st. by destruct (current_para st).
  - by rewrite Hcat, Hsorted.
  - apply Forall_app. split; [done|]. by constructor.
  - done.
Qed.

Lemma group_with_concat (tol : Q) (l : list PDFTextBlock.t) :
  concat (group_with tol l) = sorted l.
Proof.
  destruct (sorted l) as [|first rest] eqn:Hsorted.
  - by rewrite (sorted_nil_inv _ Hsorted).
  - destruct (group_with_unfold tol first rest l Hsorted) as (-> & Hcat & _).
    rewrite concat_app. simpl. by rewrite app_nil_r, Hcat.
Qed.


Lemma group_with_anchored (tol : Q) (l : list PDFTextBlock.t) :
  anchored tol None (group_with tol l).
Proof.
  destruct (sorted l) as [|first rest] eqn:Hsorted.
  - by rewrite (sorted_nil_inv _ Hsorted).
  - by destruct (group_with_unfold tol first rest l Hsorted) as (-> & _ & _ & H).
Qed.


Lemma anchored_groups (tol : Q) (groups : list (list PDFTextBlock.t)) (prev : option Q) :
  anchored tol prev groups ->
  (forall g, g ∈ groups ->
     exists a members,
       g = a :: members /\ Forall (within tol (PDFTextBlock.y0 a)) members)
  /\ (forall before a members a' members' after,
        groups = before ++ (a :: members) :: (a' :: members') :: after ->
        ~ within tol (PDFTextBlock.y0 a) a').
Proof.
  revert prev. induction groups as [|g groups IH]; intros prev Hanch.
  - split.
    + intros g Hg. by apply elem_of_nil in Hg.
    + intros before ??????. by destruct before.
  - destruct g as [|c g]; [done|]. destruct Hanch as (Hprev & Hmem & Hrest).
    destruct (IH _ Hrest) as [IH1 IH2]. split.
    + intros g' [-> | Hg']%elem_of_cons; [by eexists _, _ | by apply IH1].
    + intros before a members a' members' after Heq.
      destruct before as [|g0 before]; simpl in Heq.
      * simplify_eq. simpl in Hrest. by destruct Hrest as (H & _).
      * simplify_eq. by eapply IH2.
Qed.

(** The four runs of the first example and the three of the second, in any
    horizontal position. *)
Lemma example_0_1_2_50 (text_blocks : list PDFTextBlock.t) :
  map PDFTextBlock.y0 text_blocks = [0; 1; 2; 50]%Q ->
  map (map PDFTextBlock.y0) (_group_text_into_paragraphs text_blocks)
  = [[0; 1; 2]; [50]]%Q.
Proof.
  intros H.
  destruct text_blocks as [|[] [|[] [|[] [|[] [|]]]]]; try done.
  simpl in H. simplify_eq. reflexivity.
Qed.

Lemma example_0_6_12 (text_blocks : list PDFTextBlock.t) :
  map PDFTextBlock.y0 text_blocks = [0; 6; 12]%Q ->
  map (map PDFTextBlock.y0) (_group_text_into_paragraphs text_blocks)
  = [[0]; [6]; [12]]%Q.
Proof.
  intros H.
  destruct text_blocks as [|[] [|[] [|[] [|]]]]; try done.
  simpl in H. simplify_eq. reflexivity.
Qed.

(** *** The order of the runs and the distance from the anchor *)

Lemma key_le_y0 (a b : PDFTextBlock.t) :
  key_le a b -> (PDFTextBlock.y0 a <= PDFTextBlock.y0 b)%Q.
Proof. intros [H | [H _]]%key_le_iff; lra. Qed.

Lemma sorted_StronglySorted (l : list PDFTextBlock.t) :
  StronglySorted key_le (sorted l).
Proof.
  apply Sorted.Sorted_StronglySorted; [|apply sorted_Sorted].
  intros a b c. apply key_le_trans.
Qed.

Lemma Sorted_by_y0_x0 (l : list PDFTextBlock.t) :
  Sorted key_le l -> Sorted by_y0_x0 l.
Proof.
  induction 1 as [|a l Hl IH Hhd]; constructor; [done|].
  destruct Hhd; constructor. by apply key_le_iff.
Qed.

(** In a sorted list cut into groups, the runs that follow the first run of
    a group are not above it. *)
Lemma after_anchor (before after : list (list PDFTextBlock.t))
    (a : PDFTextBlock.t) (members : list PDFTextBlock.t) :
  StronglySorted key_le (concat (before ++ (a :: members) :: after)) ->
  Forall (fun b => (PDFTextBlock.y0 a <= PDFTextBlock.y0 b)%Q) (members ++ concat after).
Proof.
  rewrite concat_app, concat_cons. intros H%StronglySorted_app_1_r.
  rewrite <- app_comm_cons in H. apply StronglySorted_cons in H as [H _].
  eapply Forall_impl; [exact H|]. intros b. apply key_le_y0.
Qed.

(** A run from the anchor to a whole tolerance below it passes the test:
    the difference is rounded, and rounding does not pass a whole number. *)
Lemma within_exact (T : Z) (anchor_y : Q) (b : PDFTextBlock.t) :
  0 <= T < 2 ^ 53 ->
  (anchor_y <= PDFTextBlock.y0 b)%Q -> (PDFTextBlock.y0 b <= anchor_y + inject_Z T)%Q ->
  within (inject_Z T) anchor_y b.
Proof.
  intros HT Hlow Hhigh. unfold within, PyFloat.sub.
  set (d := (PDFTextBlock.y0 b - anchor_y)%Q).
  assert (0 <= d)%Q as Hd0 by (unfold d; lra).
  assert (d <= inject_Z T)%Q as HdT by (unfold d; lra).
  destruct (PyFloatFacts.round_finite d 53) as (v & Hv & Hv0 & _); [lia | done | |].
  { apply Qle_trans with (inject_Z T); [done|]. rewrite <- Zle_Qle. lia. }
  exists v. split; [done|].
  rewrite Qabs_pos by done. by apply (PyFloatFacts.round_le d v T).
Qed.

(** A run below the anchor that passes the test with the tolerance 5 is
    at most 5 below it, up to the error of one rounding. *)
Lemma within_upper (anchor_y : Q) (b : PDFTextBlock.t) :
  (anchor_y <= PDFTextBlock.y0 b)%Q ->
  within 5 anchor_y b ->
  ((PDFTextBlock.y0 b - anchor_y) * below <= 5)%Q.
Proof.
  intros Hlow (v & Hv & Hle). unfold PyFloat.sub in Hv.
  set (d := (PDFTextBlock.y0 b - anchor_y)%Q) in *.
  assert (0 <= d)%Q as Hd0 by (unfold d; lra).
  assert (0 <= below)%Q as Hb0 by (by vm_compute).
  assert (below <= 1)%Q as Hb1 by (by vm_compute).
  destruct (Qlt_le_dec 5 d) as [Hbig | Hsmall].
  - apply Qabs_Qle_condition in Hle as [_ Hle].
    destruct (Qlt_le_dec d 6) as [Hd6 | Hd6].
    + destruct (PyFloatFacts.round_error d v) as [Hbelow _]; [lra | | | done | lra].
      * apply Qle_trans with 6%Q; [lra | by vm_compute].
      * apply Qle_trans with (5 * inject_Z (2 ^ 1022))%Q; [by vm_compute|].
        apply Qmult_le_compat_r; [lra | by vm_compute].
    + pose proof (PyFloatFacts.round_ge d v 6 ltac:(done) Hd6 Hv) as Hv6.
      exfalso. change (inject_Z 6) with 6%Q in Hv6. lra.
  - apply Qle_trans with (d * 1)%Q; [|lra].
    rewrite !(Qmult_comm d). by apply Qmult_le_compat_r.
Qed.

(** A run below the anchor that fails the test with the tolerance 5 is
    more than 5 below it. *)
Lemma not_within_above (anchor_y : Q) (b : PDFTextBlock.t) :
  (anchor_y <= PDFTextBlock.y0 b)%Q ->
  ~ within 5 anchor_y b ->
  (anchor_y + 5 < PDFTextBlock.y0 b)%Q.
Proof.
  intros Hlow Hnot. apply Qnot_le_lt. intros Hhigh. apply Hnot.
  apply (within_exact 5); [done | done | exact Hhigh].
Qed.

(** C4, amended: the paragraphs cut the runs sorted by [(y0, x0)]; each
    paragraph starts with an anchor, and a run is put into the paragraph
    exactly when the float difference of its [y0] and the anchor's is at
    most 5 in absolute value.  So every other run of a paragraph lies from
    the anchor to 5 below it, up to the error of one rounding, and the anchor
    of the next paragraph is more than 5 below it.  Runs at [0, 1, 2, 50]
    give two paragraphs, runs at [0, 6, 12] three. *)
Theorem paragraphs_anchored_at_first_run (text_blocks : list PDFTextBlock.t) :
  let paragraphs := _group_text_into_paragraphs text_blocks in
  concat paragraphs ≡ₚ text_blocks
  /\ Sorted by_y0_x0 (concat paragraphs)
  /\ (forall paragraph, paragraph ∈ paragraphs ->
        exists anchor members,
          paragraph = anchor :: members
          /\ Forall
               (fun run =>
                  (exists difference,
                      PyFloat.sub (PDFTextBlock.y0 run) (PDFTextBlock.y0 anchor)
                      = PyFloat.Finite difference
                      /\ (Qabs difference <= 5)%Q)
                  /\ (PDFTextBlock.y0 anchor <= PDFTextBlock.y0 run)%Q
                  /\ ((PDFTextBlock.y0 run - PDFTextBlock.y0 anchor) * below <= 5)%Q)
               members)
  /\ (forall before anchor members anchor' members' after,
        paragraphs
        = before ++ (anchor :: members) :: (anchor' :: members') :: after ->
        ~ (exists difference,
              PyFloat.sub (PDFTextBlock.y0 anchor') (PDFTextBlock.y0 anchor)
              = PyFloat.Finite difference
              /\ (Qabs difference <= 5)%Q)
        /\ (PDFTextBlock.y0 anchor + 5 < PDFTextBlock.y0 anchor')%Q)
  /\ (map PDFTextBlock.y0 text_blocks = [0; 1; 2; 50]%Q ->
      map (map PDFTextBlock.y0) paragraphs = [[0; 1; 2]; [50]]%Q)
  /\ (map PDFTextBlock.y0 text_blocks = [0; 6; 12]%Q ->
      map (map PDFTextBlock.y0) paragraphs = [[0]; [6]; [12]]%Q).
Proof.
  intros paragraphs.
  destruct (anchored_groups 5 paragraphs None (group_with_anchored 5 text_blocks))
    as [Hmembers Hanchors].
  pose proof (group_with_concat 5 text_blocks) as Hconcat.
  change (concat paragraphs = sorted text_blocks) in Hconcat.
  pose proof (sorted_StronglySorted text_blocks) as Hsorted. rewrite <- Hconcat in Hsorted.
  split; [rewrite Hconcat; apply sorted_Permutation|].
  split; [rewrite Hconcat; apply Sorted_by_y0_x0, sorted_Sorted|].
  split; [|split; [|split; [apply example_0_1_2_50 | apply example_0_6_12]]].
  - intros paragraph Hin. destruct (Hmembers _ Hin) as (anchor & members & -> & Hwithin).
    exists anchor, members. split; [done|].
    apply list_elem_of_split in Hin as (before & after & Hsplit).
    rewrite Hsplit in Hsorted. apply after_anchor in Hsorted.
    apply Forall_app in Hsorted as [Hlow _].
    rewrite Forall_forall in Hlow, Hwithin. apply Forall_forall.
    intros run Hrun. specialize (Hlow _ Hrun). specialize (Hwithin _ Hrun).
    split; [exact Hwithin|]. split; [done|]. by apply within_upper.
  - intros before anchor members anchor' members' after Hsplit.
    specialize (Hanchors _ _ _ _ _ _ Hsplit). split; [exact Hanchors|].
    rewrite Hsplit in Hsorted. apply after_anchor in Hsorted.
    apply Forall_app in Hsorted as [_ Hlow]. rewrite concat_cons in Hlow.
    rewrite <- app_comm_cons in Hlow. apply Forall_cons in Hlow as [Hlow _].
    by apply not_within_above.
Qed.

(** C4, as stated, fails: the doubles nearest to 0.7 and to 5.7 are more
    than 5 apart, their float difference is 5, and the two runs share a
    paragraph. *)
Lemma paragraphs_0_7_and_5_7 :
  ~ (forall (text_blocks paragraph : list PDFTextBlock.t),
       paragraph ∈ _group_text_into_paragraphs text_blocks ->
       exists anchor members,
         paragraph = anchor :: members
         /\ Forall
              (fun run =>
                 (Qabs (PDFTextBlock.y0 run - PDFTextBlock.y0 anchor) <= 5)%Q)
              members).
Proof.
  intros H.
  destruct (H [block_at double_5_7 0; block_at double_0_7 0]
              [block_at double_0_7 0; block_at double_5_7 0])
    as (anchor & members & Heq & Hall).
  { vm_compute. apply list_elem_of_In. by left. }
  simplify_eq. apply Forall_cons in Hall as [Hfar _].
  vm_compute in Hfar. by apply Hfar.
Qed.

Lemma paragraphs_anchored_at_first_run_witness :
  map (map PDFTextBlock.y0)
    (_group_text_into_paragraphs [block_at 0 0; block_at 1 40; block_at 2 80; block_at 50 0])
  = [[0; 1; 2]; [50]]%Q.
Proof.
  apply (paragraphs_anchored_at_first_run
           [block_at 0 0; block_at 1 40; block_at 2 80; block_at 50 0]).
  reflexivity.
Defined.

(** The input order does not matter, and the anchor does not move: the run
    at 8 is within 5 of the run at 4 but not of the anchor at 0. *)
Example paragraphs_anchor_does_not_drift :
  map (map PDFTextBlock.y0)
    (_group_text_into_paragraphs
       [block_at 13 0; block_at 4 0; block_at 8 0; block_at 0 0; block_at 14 0])
  = [[0; 4]; [8; 13]; [14]]%Q.
Proof. reflexivity. Qed.

End GroupingFacts.

(** ** Document assembly *)

Module DocumentFacts.
Import DOCXGenerator DocumentSpec.

(** *** Sections and page breaks *)

Lemma page_sections_app (part rest : list Element) :
  no_page_break part ->
  page_sections (part ++ PageBreak :: rest) = part :: page_sections rest.
Proof.
  induction 1 as [|e part He _ IH]; [done|].
  cbn [app page_sections]. rewrite IH. by destruct e.
Qed.

Lemma page_sections_last (part : list Element) :
  no_page_break part -> page_sections part = [part].
Proof.
  induction 1 as [|e part He _ IH]; [done|].
  cbn [page_sections]. rewrite IH. by destruct e.
Qed.

Lemma join_pages_cons (s s' : list Element) (rest : list (list Element)) :
  join_pages (s :: s' :: rest) = s ++ PageBreak :: join_pages (s' :: rest).
Proof. reflexivity. Qed.

Lemma page_sections_join_pages (sections : list (list Element)) :
  sections <> [] ->
  Forall no_page_break sections ->
  page_sections (join_pages sections) = sections.
Proof.
  intros Hne Hall. induction Hall as [|s sections Hs Hall IH]; [done|].
  destruct sections as [|s' sections].
  - by apply page_sections_last.
  - rewrite join_pages_cons, page_sections_app by done. by rewrite IH.
Qed.

Lemma page_breaks_app (a b : list Element) :
  page_breaks (a ++ b) = (page_breaks a + page_breaks b)%nat.
Proof. unfold page_breaks. by rewrite List.filter_app, length_app. Qed.

Lemma page_breaks_none (part : list Element) :
  no_page_break part -> page_breaks part = 0%nat.
Proof.
  unfold page_breaks. induction 1 as [|e part He _ IH]; [done|].
  cbn [List.filter]. by rewrite He.
Qed.

Lemma page_breaks_join_pages (sections : list (list Element)) :
  Forall no_page_break sections ->
  page_breaks (join_pages sections) = (length sections - 1)%nat.
Proof.
  induction 1 as [|s sections Hs Hall IH]; [done|].
  destruct sections as [|s' sections].
  - by apply page_breaks_none.
  - rewrite join_pages_cons.
    change (s ++ PageBreak :: join_pages (s' :: sections))
      with (s ++ [PageBreak] ++ join_pages (s' :: sections)).
    rewrite !page_breaks_app, IH, page_breaks_none by done.
    simpl. lia.
Qed.

Section Docx.

Variable picture_error : bytes -> Z -> option exn.

Local Abbreviation add_image := (_add_image_to_document picture_error).
Local Abbreviation add_page := (_add_page_to_document picture_error).
Local Abbreviation create := (create_document picture_error).

(** *** Adding to a document only appends to it *)

Lemma _add_image_to_document_app (doc : Document) (img : PDFImage.t) :
  add_image doc img = doc ++ add_image [] img.
Proof.
  unfold _add_image_to_document, add_image_body.
  repeat case_match; simplify_eq; cbn [fst]; by rewrite ?app_nil_r.
Qed.

Lemma _add_image_to_document_no_break (img : PDFImage.t) :
  no_page_break (add_image [] img).
Proof.
  unfold _add_image_to_document, add_image_body.
  repeat case_match; simplify_eq; cbn [fst]; by repeat constructor.
Qed.

Lemma add_images_app (images : list PDFImage.t) (doc : Document) :
  fold_left add_image images doc = doc ++ fold_left add_image images [].
Proof.
  revert doc. induction images as [|img images IH]; intros doc; cbn [fold_left].
  - by rewrite app_nil_r.
  - rewrite IH, (IH (add_image [] img)), _add_image_to_document_app.
    by rewrite app_assoc.
Qed.

Lemma add_images_no_break (images : list PDFImage.t) :
  no_page_break (fold_left add_image images []).
Proof.
  induction images as [|img images IH] using rev_ind; [constructor|].
  rewrite fold_left_app. cbn [fold_left].
  rewrite _add_image_to_document_app.
  apply Forall_app. split; [done|]. apply _add_image_to_document_no_break.
Qed.

Lemma add_paragraphs_app (groups : list (list PDFTextBlock.t)) (doc : Document) :
  fold_left (fun doc para_blocks => doc ++ [Paragraph (map run_of_block para_blocks)])
    groups doc
  = doc ++ map (fun para_blocks => Paragraph (map run_of_block para_blocks)) groups.
Proof.
  revert doc. induction groups as [|g groups IH]; intros doc; cbn [fold_left map].
  - by rewrite app_nil_r.
  - by rewrite IH, <- app_assoc.
Qed.

(** The content that a page adds: one paragraph for each group of runs,
    then its pictures, each followed by an empty paragraph. *)
Lemma _add_page_to_document_content (doc : Document) (page : PDFPage.t) :
  add_page doc page
  = doc
    ++ map (fun para_blocks => Paragraph (map run_of_block para_blocks))
         (_group_text_into_paragraphs (PDFPage.text_blocks page))
    ++ fold_left add_image (PDFPage.images page) [].
Proof.
  unfold _add_page_to_document.
  by rewrite add_images_app, add_paragraphs_app, <- app_assoc.
Qed.

Lemma _add_page_to_document_app (doc : Document) (page : PDFPage.t) :
  add_page doc page = doc ++ add_page [] page.
Proof. by rewrite !_add_page_to_document_content. Qed.

Lemma _add_page_to_document_no_break (page : PDFPage.t) :
  no_page_break (add_page [] page).
Proof.
  rewrite _add_page_to_document_content. simpl.
  apply Forall_app. split; [|apply add_images_no_break].
  apply Forall_map. by apply Forall_true.
Qed.

(** A page without runs and without images adds nothing. *)
Lemma _add_page_to_document_empty (page : PDFPage.t) :
  PDFPage.text_blocks page = [] -> PDFPage.images page = [] ->
  add_page [] page = [].
Proof. intros Ht Hi. rewrite _add_page_to_document_content. by rewrite Ht, Hi. Qed.

(** *** The loop of [create_document] *)

(** The loop over pages numbered [first, first + 1, ...] up to
    [total - 1]: a page break follows every page but the last. *)
Lemma create_document_loop (total : Z) (pages : list PDFPage.t) (first : nat)
    (doc : Document) :
  pages <> [] ->
  map PDFPage.page_number pages = map Z.of_nat (seq first (length pages)) ->
  total = Z.of_nat (first + length pages) ->
  fold_left
    (fun doc page =>
       let doc := add_page doc page in
       if PDFPage.page_number page <? total - 1 then add_page_break doc else doc)
    pages doc
  = doc ++ join_pages (map (add_page []) pages).
Proof.
  revert first doc. induction pages as [|page pages IH]; intros first doc Hne Hnum Htotal; [done|].
  cbn [fold_left map length seq] in *. injection Hnum as Hpage Hrest.
  cbv zeta. rewrite _add_page_to_document_app.
  destruct pages as [|page' pages].
  - cbn [fold_left map join_pages length] in *.
    rewrite (proj2 (Z.ltb_ge _ _)) by lia. done.
  - rewrite (proj2 (Z.ltb_lt _ _)) by (cbn [length] in *; lia).
    rewrite (IH (S first)); [| done | done | cbn [length] in *; lia].
    unfold add_page_break. cbn [map]. rewrite join_pages_cons.
    by rewrite <- !app_assoc.
Qed.

(** The document of pages numbered by their position. *)
Lemma create_document_join (pages : list PDFPage.t) :
  pages <> [] ->
  map PDFPage.page_number pages = map Z.of_nat (seq 0 (length pages)) ->
  create pages = join_pages (map (add_page []) pages).
Proof.
  intros Hne Hnum. unfold create_document.
  by rewrite (create_document_loop _ pages 0 []).
Qed.

Lemma page_contents_no_break (pages : list PDFPage.t) :
  Forall no_page_break (map (add_page []) pages).
Proof.
  apply Forall_map, Forall_forall. intros page _.
  apply _add_page_to_document_no_break.
Qed.

(** C2: for pages numbered 0, 1, 2, ... in this order, the document is the
    content of every page, in the same order, with one page break between two
    neighbours and none after the last: it has as many sections as there are
    pages, the section of a page is what that page adds (nothing, for an
    empty page), and there is one page break less than there are pages. *)
Theorem create_document_page_sections (pages : list PDFPage.t) :
  pages <> [] ->
  map PDFPage.page_number pages = map Z.of_nat (seq 0 (length pages)) ->
  create pages = join_pages (map (add_page []) pages)
  /\ page_sections (create pages) = map (add_page []) pages
  /\ length (page_sections (create pages)) = length pages
  /\ page_breaks (create pages) = (length pages - 1)%nat
  /\ (forall i page,
        pages !! i = Some page ->
        PDFPage.text_blocks page = [] -> PDFPage.images page = [] ->
        page_sections (create pages) !! i = Some []).
Proof.
  intros Hne Hnum.
  pose proof (create_document_join pages Hne Hnum) as Hdoc.
  pose proof (page_contents_no_break pages) as Hparts.
  assert (page_sections (create pages) = map (add_page []) pages) as Hsections.
  { rewrite Hdoc. apply page_sections_join_pages; [|done]. by destruct pages. }
  repeat split.
  - exact Hdoc.
  - exact Hsections.
  - by rewrite Hsections, length_map.
  - by rewrite Hdoc, page_breaks_join_pages, length_map.
  - intros i page Hi Ht Himg. rewrite Hsections, list_lookup_fmap, Hi. simpl.
    by rewrite _add_page_to_document_empty.
Qed.

(** The pages that [process_all_pages] hands over are numbered by their
    position, so the document made from them has one section for each page of
    the file and a page break between neighbours only. *)
Corollary conversion_page_sections
    (ocr_extract_text_from_image : OCRProcessor.t -> bytes -> Z -> list PDFTextBlock.t)
    (self : PDFProcessor.t) (tr : list OcrCall) :
  let pdf := PDFProcessor.pdf_path self in
  PDFProcessor.pages pdf <> [] ->
  length (PDFProcessor.doc pdf) = length (PDFProcessor.pages pdf) ->
  exists pages tr',
    PDFProcessor.process_all_pages ocr_extract_text_from_image self tr = (Ok pages, tr')
    /\ length pages = length (PDFProcessor.pages pdf)
    /\ length (page_sections (create pages)) = length pages
    /\ page_breaks (create pages) = (length pages - 1)%nat.
Proof.
  intros pdf Hne Hlen. subst pdf.
  destruct (PDFProcessorFacts.process_all_pages_numbered
              ocr_extract_text_from_image self tr Hlen)
    as (pages & tr' & Hall & Hnum).
  assert (length pages = length (PDFProcessor.pages (PDFProcessor.pdf_path self))) as Hcount.
  { rewrite <- (length_map PDFPage.page_number), Hnum.
    by rewrite length_map, length_seq. }
  exists pages, tr'. rewrite <- Hcount in Hnum.
  assert (pages <> []) as Hpages.
  { intros ->. simpl in Hcount. by destruct (PDFProcessor.pages (PDFProcessor.pdf_path self)). }
  repeat split; [done | done | |].
  - rewrite (create_document_join pages Hpages Hnum).
    rewrite page_sections_join_pages; [by rewrite length_map | | apply page_contents_no_break].
    by destruct pages.
  - rewrite (create_document_join pages Hpages Hnum).
    by rewrite page_breaks_join_pages, length_map by apply page_contents_no_break.
Qed.

End Docx.

Lemma create_document_page_sections_witness :
  length (page_sections (create_document no_picture_error three_pages)) = 3%nat
  /\ page_breaks (create_document no_picture_error three_pages) = 2%nat.
Proof.
  destruct (create_document_page_sections no_picture_error three_pages)
    as (_ & _ & Hsections & Hbreaks & _).
  - discriminate.
  - reflexivity.
  - split; [exact Hsections | exact Hbreaks].
Defined.

(** The numbering is what the loop relies on: it compares the number of
    the page, not its position, with the page count. *)
Remark create_document_page_numbers :
  page_breaks
    (create_document no_picture_error
       [sample_page 0 [] []; sample_page 2 [] []; sample_page 5 [] []]) = 1%nat
  /\ page_breaks
       (create_document no_picture_error [sample_page 0 [] []; sample_page 0 [] []])
     = 2%nat.
Proof. split; reflexivity. Qed.

End DocumentFacts.

(** ** Picture width *)

Module PictureFacts.
Import DOCXGenerator DocumentSpec PictureSpec.

Lemma picture_width_only_width (img : PDFImage.t) :
  picture_width img = picture_width (sample_picture (PDFImage.width img) 0).
Proof. reflexivity. Qed.

Lemma small_widths_checked :
  forallb small_width_ok (map Z.of_nat (seq 0 432)) = true.
Proof. vm_compute. reflexivity. Qed.

Lemma small_width (w : Z) : 0 <= w < 432 -> small_width_ok w = true.
Proof.
  intros Hw.
  pose proof small_widths_checked as Hall.
  rewrite forallb_forall in Hall. apply Hall.
  apply in_map_iff. exists (Z.to_nat w). split; [lia|].
  apply in_seq. lia.
Qed.

Lemma EMUS_PER_INCH_float :
  exists y, PyFloat.of_int EMUS_PER_INCH = Ok y /\ (y == inject_Z EMUS_PER_INCH)%Q.
Proof. eexists. split; [vm_compute; reflexivity | reflexivity]. Qed.

(** Six inches or more, as a float, is at least [Inches(6)] in EMU. *)
Lemma Inches_at_least_six (x : Q) :
  (6 <= x)%Q -> (x <= inject_Z (2 ^ 1000))%Q ->
  exists e, Inches x = Ok e /\ max_width <= e.
Proof.
  intros Hlow Hhigh. unfold Inches, PyFloat.int_of_product.
  destruct EMUS_PER_INCH_float as (y & -> & Hy).
  unfold PyFloat.mul.
  assert (inject_Z max_width <= x * y)%Q as Hprod.
  { rewrite Hy. change (inject_Z max_width) with (6 * inject_Z EMUS_PER_INCH)%Q.
    apply Qmult_le_compat_r; [done|]. done. }
  assert (x * y <= inject_Z (2 ^ 1020))%Q as Hbound.
  { rewrite Hy.
    apply Qle_trans with (inject_Z (2 ^ 1000) * inject_Z EMUS_PER_INCH)%Q.
    - apply Qmult_le_compat_r; [done|]. done.
    - rewrite <- inject_Z_mult. rewrite <- Zle_Qle.
      change (2 ^ 1020) with (2 ^ 1000 * 2 ^ 20). apply Z.mul_le_mono_nonneg_l; [|done].
      by apply Z.pow_nonneg. }
  destruct (PyFloatFacts.round_finite (x * y) 1020) as (v & Hv & _ & _); [lia | | done |].
  { apply Qle_trans with (inject_Z max_width); [done | exact Hprod]. }
  rewrite Hv.
  apply PyFloatFacts.to_int_ge.
  eapply PyFloatFacts.round_ge; [|exact Hprod | exact Hv]. done.
Qed.

Lemma picture_width_capped (img : PDFImage.t) :
  432 <= PDFImage.width img < 2 ^ 1000 ->
  picture_width img = Ok max_width.
Proof.
  intros [Hlow Hhigh]. unfold picture_width.
  destruct (PyFloatFacts.truediv_between (PDFImage.width img) 72 6 1000)
    as (x & -> & Hx6 & Hxk); [lia | done | lia | lia | lia |].
  destruct (Inches_at_least_six x Hx6 Hxk) as (e & -> & He).
  f_equal. lia.
Qed.

(** The aspect ratio, computed and not used, is a finite float. *)
Lemma aspect_ratio_finite (img : PDFImage.t) :
  0 <= PDFImage.height img < 2 ^ 1000 ->
  exists ratio,
    (if 0 <? PDFImage.width img
     then PyFloat.truediv (PDFImage.height img) (PDFImage.width img)
     else Ok 1%Q) = Ok ratio.
Proof.
  intros Hh. destruct (Z.ltb_spec 0 (PDFImage.width img)) as [Hw | Hw]; [|by eexists].
  destruct (PyFloatFacts.truediv_between (PDFImage.height img) (PDFImage.width img)
              0 1000) as (x & Hx & _); [lia | done | lia | lia | | by eexists].
  assert (0 < 2 ^ 1000) by done. nia.
Qed.

Section Docx.

Variable picture_error : bytes -> Z -> option exn.

(** C7, amended: the width handed to python-docx is
    [min(Inches(6), Inches(width / 72))] in whole EMU, 914400 to the inch:
    six inches for every width of 432 pixels or more, and under 432 pixels
    the exact [width / 72] inches or one EMU less, exact whenever the width
    is a multiple of 9; 720 pixels give six inches and 360 pixels five.  The
    picture is added with this width and no height of its own, followed by an
    empty paragraph. *)
Theorem picture_width_in_emu (img : PDFImage.t) :
  (432 <= PDFImage.width img < 2 ^ 1000 -> picture_width img = Ok (Inches_int 6))
  /\ (0 <= PDFImage.width img < 432 ->
      exists e,
        picture_width img = Ok e
        /\ exact_emu (PDFImage.width img) - 1 <= e <= exact_emu (PDFImage.width img)
        /\ e < Inches_int 6
        /\ (PDFImage.width img mod 9 = 0 -> e = exact_emu (PDFImage.width img)))
  /\ (PDFImage.width img = 720 -> picture_width img = Ok (Inches_int 6))
  /\ (PDFImage.width img = 360 -> picture_width img = Ok (Inches_int 5))
  /\ (forall doc e,
        0 <= PDFImage.height img < 2 ^ 1000 ->
        picture_width img = Ok e ->
        picture_error (PDFImage.data img) e = None ->
        _add_image_to_document picture_error doc img
        = doc ++ [Picture (PDFImage.data img) e None; Paragraph []]).
Proof.
  split; [apply picture_width_capped|].
  split; [|split; [|split]].
  - intros Hw. pose proof (small_width _ Hw) as Hok.
    unfold small_width_ok in Hok. rewrite <- picture_width_only_width in Hok.
    destruct (picture_width img) as [e|]; [|done].
    apply andb_prop in Hok as [[[H1%Z.leb_le H2%Z.leb_le]%andb_prop H3%Z.ltb_lt]%andb_prop H4].
    exists e. repeat split; [done..|].
    intros Hmod. apply orb_prop in H4 as [H4 | H4%Z.eqb_eq]; [|done].
    by rewrite Hmod in H4.
  - intros Hw. apply picture_width_capped. rewrite Hw. done.
  - intros Hw. rewrite picture_width_only_width, Hw. by vm_compute.
  - intros doc e Hh He Herr.
    unfold _add_image_to_document, add_image_body.
    destruct (aspect_ratio_finite img Hh) as (ratio & ->).
    by rewrite He, Herr.
Qed.

End Docx.

(** C7, as stated, fails: an image 37 pixels wide is given 469899 EMU, one
    less than the 469900 EMU that [37 / 72] inches are. *)
Lemma picture_width_37_pixels :
  ~ (forall (img : PDFImage.t) (e : Z),
       picture_width img = Ok e ->
       (inject_Z e / inject_Z EMUS_PER_INCH
        == Qmin 6 (inject_Z (PDFImage.width img) / 72))%Q).
Proof.
  intros H. specialize (H (sample_picture 37 50) 469899 ltac:(by vm_compute)).
  vm_compute in H. discriminate H.
Qed.

Lemma picture_width_in_emu_witness :
  picture_width (sample_picture 4724 7087) = Ok (Inches_int 6).
Proof.
  apply (proj1 (picture_width_in_emu no_picture_error
                  (sample_picture 4724 7087))).
  split; [by vm_compute | by vm_compute].
Defined.

End PictureFacts.

(** * Further properties *)

(** ** Font mapping, continued *)

Module FontMapperMore.
Import FontMapper FontChecks.

Lemma WEB_SAFE_FONTS_checked :
  forallb web_safe_ok
    [ "Arial"; "Times New Roman"; "Courier New"; "Verdana"; "Georgia";
      "Comic Sans MS"; "Trebuchet MS"; "Arial Black"; "Impact" ] = true.
Proof. vm_compute. reflexivity. Qed.

Lemma targets_checked :
  forallb target_ok FONT_SUBSTITUTION_items = true
  /\ forallb proper_entry FONT_SUBSTITUTION_items = true.
Proof. split; vm_compute; reflexivity. Qed.

Lemma Arial_web_safe : "Arial" ∈ WEB_SAFE_FONTS.
Proof. apply (bool_decide_unpack _). vm_compute. exact I. Qed.

Lemma FONT_SUBSTITUTION_entry (k v : string) :
  FONT_SUBSTITUTION !! k = Some v ->
  (v ∈ WEB_SAFE_FONTS \/ v = "Segoe UI") /\ k <> v.
Proof.
  intros Hkv%FontMapperFacts.FONT_SUBSTITUTION_items_lookup%list_elem_of_In.
  destruct targets_checked as [Htarget Hproper].
  rewrite forallb_forall in Htarget, Hproper.
  specialize (Htarget _ Hkv). specialize (Hproper _ Hkv).
  unfold target_ok, proper_entry in *. cbn [fst snd] in *. split.
  - apply orb_prop in Htarget as [H%bool_decide_eq_true | H%String.eqb_eq]; auto.
  - apply negb_true_iff in Hproper. by apply String.eqb_neq.
Qed.

(** X1: every font of the web-safe set is left as it is by the cleaning and
    by [map_font], and [get_font_info] reports it as [web-safe]. *)
Theorem web_safe_fonts_unchanged (name : string) :
  name ∈ WEB_SAFE_FONTS ->
  _clean_font_name name = name
  /\ map_font name = name
  /\ reason (get_font_info name) = "web-safe".
Proof.
  unfold WEB_SAFE_FONTS. rewrite elem_of_list_to_set, list_elem_of_In. intros Hin.
  pose proof WEB_SAFE_FONTS_checked as Hall. rewrite forallb_forall in Hall.
  specialize (Hall _ Hin). unfold web_safe_ok in Hall.
  apply andb_prop in Hall as [[H1%String.eqb_eq H2%String.eqb_eq]%andb_prop H3%String.eqb_eq].
  done.
Qed.

Lemma web_safe_fonts_unchanged_witness :
  _clean_font_name "Comic Sans MS" = "Comic Sans MS"
  /\ map_font "Comic Sans MS" = "Comic Sans MS"
  /\ reason (get_font_info "Comic Sans MS") = "web-safe".
Proof.
  apply (web_safe_fonts_unchanged "Comic Sans MS").
  apply (bool_decide_unpack _). vm_compute. exact I.
Defined.

(** X2: whatever the name, [map_font] returns a font of the web-safe set
    or [Segoe UI]. *)
Theorem map_font_targets (name : string) :
  map_font name ∈ WEB_SAFE_FONTS \/ map_font name = "Segoe UI".
Proof.
  unfold map_font.
  destruct (decide (_clean_font_name name ∈ WEB_SAFE_FONTS)) as [Hsafe | Hsafe]; [by left|].
  destruct (FONT_SUBSTITUTION !! _clean_font_name name) as [v|] eqn:Hv.
  - by destruct (FONT_SUBSTITUTION_entry _ _ Hv).
  - left. apply Arial_web_safe.
Qed.

(** X3: [get_font_info] reports the branch that [map_font] took: the cleaned
    name is web-safe and returned, or it is a key of the table and its entry
    is returned, or [Arial] is. *)
Theorem get_font_info_branches (name : string) :
  let info := get_font_info name in
  original info = name
  /\ cleaned info = _clean_font_name name
  /\ mapped info = map_font name
  /\ (cleaned info ∈ WEB_SAFE_FONTS ->
      reason info = "web-safe" /\ mapped info = cleaned info)
  /\ (forall v,
        cleaned info ∉ WEB_SAFE_FONTS ->
        FONT_SUBSTITUTION !! cleaned info = Some v ->
        reason info = "substituted" /\ mapped info = v)
  /\ (cleaned info ∉ WEB_SAFE_FONTS ->
      FONT_SUBSTITUTION !! cleaned info = None ->
      reason info = "fallback" /\ mapped info = "Arial").
Proof.
  cbv zeta. unfold get_font_info. cbn [original cleaned mapped reason].
  repeat split.
  - rewrite (FontMapperFacts.map_font_web_safe _ H). by rewrite decide_True.
  - by apply FontMapperFacts.map_font_web_safe.
  - rewrite (FontMapperFacts.map_font_substituted _ _ H H0).
    destruct (FONT_SUBSTITUTION_entry _ _ H0) as [_ Hne].
    rewrite decide_False by done. rewrite decide_True; [done|]. by eexists.
  - by apply FontMapperFacts.map_font_substituted.
  - rewrite (FontMapperFacts.map_font_fallback _ H H0).
    rewrite decide_False.
    + rewrite decide_False; [done|]. rewrite H0. by intros [? ?].
    + intros Heq. apply H. rewrite Heq. apply Arial_web_safe.
  - by apply FontMapperFacts.map_font_fallback.
Qed.

Lemma replace_without_head (a : ascii) (old' new k s : string) :
  StringSpec.has_char a k = false ->
  PyStr.replace (k +:+ s) (String a old') new
  = k +:+ PyStr.replace s (String a old') new.
Proof.
  unfold PyStr.replace. induction k as [|c k IH]; [done|].
  intros [Hc Hk]%orb_false_elim.
  rewrite !PyStrFacts.append_cons. cbn [PyStr.replace_from PyStr.startswith].
  rewrite Ascii.eqb_sym, Hc. by rewrite (IH Hk).
Qed.

Lemma replace_absent (a : ascii) (old' new k : string) :
  StringSpec.has_char a k = false ->
  PyStr.replace k (String a old') new = k.
Proof.
  intros Hk. rewrite <- (PyStrFacts.append_nil_r k) at 1.
  rewrite (replace_without_head _ _ _ _ _ Hk).
  by rewrite PyStrFacts.append_nil_r.
Qed.

(** X4: applying [map_font] to its own result changes it in one case only:
    [Segoe UI], the target of the two [SF Pro] entries, is neither web-safe
    nor a key of the table, and is mapped to [Arial]. *)
Theorem map_font_twice (name : string) :
  map_font (map_font name)
  = if String.eqb (map_font name) "Segoe UI" then "Arial" else map_font name.
Proof.
  destruct (String.eqb_spec (map_font name) "Segoe UI") as [-> | Hne].
  { vm_compute. reflexivity. }
  assert (map_font name ∈ WEB_SAFE_FONTS) as Hsafe.
  { unfold map_font in Hne |- *.
    destruct (decide (_clean_font_name name ∈ WEB_SAFE_FONTS)) as [Hin | Hout]; [done|].
    destruct (FONT_SUBSTITUTION !! _clean_font_name name) as [v|] eqn:Hv.
    - by destruct (FONT_SUBSTITUTION_entry _ _ Hv) as [[Hin | Heq] _].
    - apply Arial_web_safe. }
  revert Hsafe. generalize (map_font name). intros font.
  unfold WEB_SAFE_FONTS. rewrite elem_of_list_to_set, list_elem_of_In. intros Hin.
  pose proof WEB_SAFE_FONTS_checked as Hall. rewrite forallb_forall in Hall.
  specialize (Hall _ Hin). unfold web_safe_ok in Hall.
  by apply andb_prop in Hall as [[_ H%String.eqb_eq]%andb_prop _].
Qed.

(** X5: style suffixes of a name without a hyphen.  [-Bold], [-Italic] and
    [-Regular] are removed, so the variant is cleaned like the base name.
    [-BoldItalic] is not: [-Bold] is removed first, [Italic] stays, and the
    name is cleaned like the base name followed by [Italic]. *)
Theorem _clean_font_name_style_suffix (base : string) :
  StringSpec.has_char "-" base = false ->
  _clean_font_name (base +:+ "-Bold") = _clean_font_name base
  /\ _clean_font_name (base +:+ "-Italic") = _clean_font_name base
  /\ _clean_font_name (base +:+ "-Regular") = _clean_font_name base
  /\ _clean_font_name (base +:+ "-BoldItalic") = _clean_font_name (base +:+ "Italic").
Proof.
  intros Hbase. unfold _clean_font_name, suffixes. cbn [fold_left].
  repeat split.
  - rewrite (replace_without_head _ _ _ _ _ Hbase), (replace_absent _ _ _ _ Hbase).
    replace (PyStr.replace "-Bold" "-Bold" "") with EmptyString by (by vm_compute).
    by rewrite PyStrFacts.append_nil_r.
  - rewrite (replace_without_head _ _ _ _ _ Hbase), (replace_absent _ _ _ _ Hbase).
    replace (PyStr.replace "-Italic" "-Bold" "") with "-Italic" by (by vm_compute).
    rewrite (replace_without_head _ _ _ _ _ Hbase), (replace_absent _ _ _ _ Hbase).
    replace (PyStr.replace "-Italic" "-Italic" "") with EmptyString by (by vm_compute).
    by rewrite PyStrFacts.append_nil_r.
  - rewrite (replace_without_head _ _ _ _ _ Hbase), (replace_absent _ _ _ _ Hbase).
    replace (PyStr.replace "-Regular" "-Bold" "") with "-Regular" by (by vm_compute).
    rewrite (replace_without_head _ _ _ _ _ Hbase), (replace_absent _ _ _ _ Hbase).
    replace (PyStr.replace "-Regular" "-Italic" "") with "-Regular" by (by vm_compute).
    rewrite (replace_without_head _ _ _ _ _ Hbase), (replace_absent _ _ _ _ Hbase).
    replace (PyStr.replace "-Regular" "-BoldItalic" "") with "-Regular" by (by vm_compute).
    rewrite (replace_without_head _ _ _ _ _ Hbase), (replace_absent _ _ _ _ Hbase).
    replace (PyStr.replace "-Regular" "-Regular" "") with EmptyString by (by vm_compute).
    by rewrite PyStrFacts.append_nil_r.
  - rewrite !(replace_without_head "-" _ _ _ _ Hbase).
    replace (PyStr.replace "-BoldItalic" "-Bold" "") with "Italic" by (by vm_compute).
    replace (PyStr.replace "Italic" "-Bold" "") with "Italic" by (by vm_compute).
    done.
Qed.

Lemma _clean_font_name_style_suffix_witness :
  _clean_font_name ("Helvetica" +:+ "-Bold") = _clean_font_name "Helvetica"
  /\ _clean_font_name ("Helvetica" +:+ "-Italic") = _clean_font_name "Helvetica"
  /\ _clean_font_name ("Helvetica" +:+ "-Regular") = _clean_font_name "Helvetica"
  /\ _clean_font_name ("Helvetica" +:+ "-BoldItalic")
     = _clean_font_name ("Helvetica" +:+ "Italic").
Proof. apply (_clean_font_name_style_suffix "Helvetica"). reflexivity. Defined.

(** A consequence on a usual name: the bold italic variant of Times New
    Roman is not recognised and falls back to [Arial]. *)
Example map_font_TimesNewRoman_BoldItalic :
  map_font "TimesNewRoman-Bold" = "Times New Roman"
  /\ map_font "TimesNewRoman-BoldItalic" = "Arial"
  /\ reason (get_font_info "TimesNewRoman-BoldItalic") = "fallback".
Proof. vm_compute. done. Qed.

End FontMapperMore.

(** ** Paragraph grouping, continued *)

Module GroupingMore.
Import DOCXGenerator GroupingSpec RoundingSpec LineSpec.

(** X6: the paragraphs are horizontal bands of the page.  The runs of a
    paragraph lie from its first run down to 5 points below it, up to the
    error of one rounding of the float difference, and every run of the
    paragraphs that follow lies more than 5 points below that first run. *)
Theorem paragraphs_are_bands (text_blocks : list PDFTextBlock.t) :
  let paragraphs := _group_text_into_paragraphs text_blocks in
  (forall anchor members,
      (anchor :: members) ∈ paragraphs ->
      Forall
        (fun run =>
           (PDFTextBlock.y0 anchor <= PDFTextBlock.y0 run)%Q
           /\ ((PDFTextBlock.y0 run - PDFTextBlock.y0 anchor) * below <= 5)%Q)
        members)
  /\ (forall before anchor members anchor' members' after,
        paragraphs
        = before ++ (anchor :: members) :: (anchor' :: members') :: after ->
        Forall (fun run => (PDFTextBlock.y0 anchor + 5 < PDFTextBlock.y0 run)%Q)
          (anchor' :: members' ++ concat after)).
Proof.
  intros paragraphs.
  pose proof (GroupingFacts.sorted_StronglySorted text_blocks) as Hsorted.
  rewrite <- (GroupingFacts.group_with_concat 5) in Hsorted.
  change (group_with 5 text_blocks) with paragraphs in Hsorted.
  destruct (GroupingFacts.anchored_groups 5 paragraphs None
              (GroupingFacts.group_with_anchored 5 text_blocks)) as [Hin Hnext].
  split.
  - intros anchor members Hg.
    destruct (Hin _ Hg) as (a & ms & Heq & Hwithin). simplify_eq.
    apply list_elem_of_split in Hg as (before & after & Hsplit).
    rewrite Hsplit in Hsorted. apply GroupingFacts.after_anchor in Hsorted.
    apply Forall_app in Hsorted as [Hlow _].
    rewrite Forall_forall in Hlow, Hwithin. apply Forall_forall.
    intros b Hb. split; [by apply Hlow|].
    apply GroupingFacts.within_upper; [by apply Hlow | by apply Hwithin].
  - intros before anchor members anchor' members' after Hsplit.
    specialize (Hnext _ _ _ _ _ _ Hsplit).
    pose proof Hsorted as Hfirst. rewrite Hsplit in Hfirst.
    apply GroupingFacts.after_anchor in Hfirst.
    apply Forall_app in Hfirst as [_ Hfirst]. rewrite concat_cons in Hfirst.
    rewrite <- app_comm_cons in Hfirst. apply Forall_cons in Hfirst as [Hle _].
    pose proof (GroupingFacts.not_within_above _ _ Hle Hnext) as Hgap.
    pose proof Hsorted as Hsecond.
    rewrite Hsplit, (cons_middle (anchor :: members)), app_assoc in Hsecond.
    apply GroupingFacts.after_anchor in Hsecond.
    apply Forall_cons. split; [exact Hgap|].
    eapply Forall_impl; [exact Hsecond|]. intros b Hb. cbv beta in Hb. lra.
Qed.

(** The loop over runs that all lie within the tolerance of the anchor
    only extends the open paragraph. *)
Lemma fold_group_step_within (tol : Q) (rest : list PDFTextBlock.t) (st : Grouping) :
  Forall (within tol (current_y st)) rest ->
  fold_left (group_step tol) rest st
  = {| paragraphs := paragraphs st;
       current_para := current_para st ++ rest;
       current_y := current_y st |}.
Proof.
  revert st. induction rest as [|b rest IH]; intros st Hall.
  - rewrite app_nil_r. by destruct st.
  - apply Forall_cons in Hall as [Hb Hrest]. cbn [fold_left].
    assert (group_step tol st b
            = {| paragraphs := paragraphs st;
                 current_para := current_para st ++ [b];
                 current_y := current_y st |}) as ->.
    { unfold group_step. apply GroupingFacts.within_tolerance_iff in Hb. by rewrite Hb. }
    rewrite IH by done. cbn. by rewrite <- app_assoc.
Qed.

Lemma group_with_one_band (T : Z) (y : Q) (text_blocks : list PDFTextBlock.t) :
  0 <= T < 2 ^ 53 ->
  text_blocks <> [] ->
  Forall (in_band (inject_Z T) y) text_blocks ->
  group_with (inject_Z T) text_blocks = [sorted text_blocks].
Proof.
  intros HT Hne Hband.
  destruct (sorted text_blocks) as [|first rest] eqn:Hs.
  { by apply GroupingFacts.sorted_nil_inv in Hs. }
  assert (Forall (in_band (inject_Z T) y) (first :: rest)) as Hall.
  { rewrite <- Hs. eapply Permutation_Forall; [|exact Hband].
    symmetry. apply GroupingFacts.sorted_Permutation. }
  pose proof (GroupingFacts.sorted_StronglySorted text_blocks) as Hsorted.
  rewrite Hs in Hsorted.
  apply StronglySorted_cons in Hsorted as [Hlow _].
  apply Forall_cons in Hall as [Hfirst Hrest].
  unfold group_with. destruct text_blocks as [|b bs]; [done|]. rewrite Hs.
  rewrite fold_group_step_within.
  - done.
  - cbn [current_y]. rewrite Forall_forall in Hlow, Hrest. apply Forall_forall.
    intros b' Hb'. specialize (Hlow _ Hb'). apply GroupingFacts.key_le_y0 in Hlow.
    specialize (Hrest _ Hb'). unfold in_band in *.
    apply GroupingFacts.within_exact; [done | done | lra].
Qed.

(** X7: runs that all lie in one band of 5 points form one paragraph, which
    holds them sorted by [(y0, x0)]. *)
Theorem paragraphs_one_band (y : Q) (text_blocks : list PDFTextBlock.t) :
  text_blocks <> [] ->
  Forall (fun run => (y <= PDFTextBlock.y0 run <= y + 5)%Q) text_blocks ->
  _group_text_into_paragraphs text_blocks = [sorted text_blocks].
Proof. by apply (group_with_one_band 5 y). Qed.

Lemma paragraphs_one_band_witness :
  _group_text_into_paragraphs [block_at 12 40; block_at 10 0; block_at 15 20]
  = [sorted [block_at 12 40; block_at 10 0; block_at 15 20]].
Proof.
  apply (paragraphs_one_band 10); [done|].
  repeat constructor; by vm_compute.
Defined.

(** Being apart is kept by the sort. *)
Lemma apart_sym (a b : PDFTextBlock.t) : apart a b -> apart b a.
Proof.
  unfold apart. intros H.
  assert (PDFTextBlock.y0 b - PDFTextBlock.y0 a
          == - (PDFTextBlock.y0 a - PDFTextBlock.y0 b))%Q as -> by ring.
  by rewrite Qabs_opp.
Qed.

Lemma insert_sorted_apart (b : PDFTextBlock.t) (l : list PDFTextBlock.t) :
  ForallOrdPairs apart (b :: l) -> ForallOrdPairs apart (insert_sorted b l).
Proof.
  induction l as [|c l IH]; [done|]. intros Hall. cbn [insert_sorted].
  destruct (key_lt (key c) (key b)); [|done].
  inversion Hall as [|? ? Hb Hcl]; subst. inversion Hcl as [|? ? Hc Hl]; subst.
  apply Forall_cons in Hb as [Hbc Hb].
  constructor.
  - eapply Permutation_Forall; [symmetry; apply GroupingFacts.insert_sorted_Permutation|].
    constructor; [by apply apart_sym | done].
  - apply IH. by constructor.
Qed.

Lemma sorted_apart (l : list PDFTextBlock.t) :
  ForallOrdPairs apart l -> ForallOrdPairs apart (sorted l).
Proof.
  induction l as [|a l IH]; [done|]. intros Hall.
  inversion Hall as [|? ? Ha Hl]; subst. cbn [sorted foldr].
  apply insert_sorted_apart. constructor; [|by apply IH].
  eapply Permutation_Forall; [|exact Ha]. symmetry. apply GroupingFacts.sorted_Permutation.
Qed.

(** A run that is apart from the anchor and below it fails the test. *)
Lemma apart_not_within (a b : PDFTextBlock.t) :
  (PDFTextBlock.y0 a <= PDFTextBlock.y0 b)%Q ->
  apart a b ->
  within_tolerance 5 (PDFTextBlock.y0 b) (PDFTextBlock.y0 a) = false.
Proof.
  intros Hlow Hfar%apart_sym. unfold apart in Hfar.
  set (d := (PDFTextBlock.y0 b - PDFTextBlock.y0 a)%Q) in *.
  assert (0 <= d)%Q as Hd0 by (unfold d; lra).
  rewrite Qabs_pos in Hfar by done.
  assert (below <= 1)%Q as Hb1 by (by vm_compute).
  assert (0 <= below)%Q as Hb0 by (by vm_compute).
  assert (5 < d)%Q as Hd5.
  { apply Qlt_le_trans with (d * below)%Q; [done|].
    apply Qle_trans with (d * 1)%Q; [|lra].
    rewrite !(Qmult_comm d). by apply Qmult_le_compat_r. }
  unfold within_tolerance, PyFloat.sub. fold d.
  destruct (PyFloat.round d) as [v|] eqn:Hv; [|done].
  assert (5 < v)%Q as Hv5.
  { destruct (Qlt_le_dec d 6) as [Hd6 | Hd6].
    - destruct (PyFloatFacts.round_error d v) as [Hbelow _]; [lra | | | done | lra].
      + apply Qle_trans with 6%Q; [lra | by vm_compute].
      + apply Qle_trans with (5 * inject_Z (2 ^ 1022))%Q; [by vm_compute|].
        apply Qmult_le_compat_r; [lra | by vm_compute].
    - pose proof (PyFloatFacts.round_ge d v 6 ltac:(done) Hd6 Hv) as Hv6.
      change (inject_Z 6) with 6%Q in Hv6. lra. }
  destruct (Qle_bool (Qabs v) 5) eqn:Hle; [|done].
  apply Qle_bool_iff in Hle. rewrite Qabs_pos in Hle by lra. lra.
Qed.

(** The loop over sorted runs that each lie apart from the run before
    closes a paragraph at every run. *)
Lemma fold_group_step_apart (rest : list PDFTextBlock.t)
    (closed : list (list PDFTextBlock.t)) (a : PDFTextBlock.t) :
  ForallOrdPairs apart (a :: rest) ->
  StronglySorted key_le (a :: rest) ->
  let st :=
    fold_left (group_step 5) rest
      {| paragraphs := closed; current_para := [a]; current_y := PDFTextBlock.y0 a |} in
  current_para st <> []
  /\ paragraphs st ++ [current_para st] = closed ++ map (fun b => [b]) (a :: rest).
Proof.
  revert closed a. induction rest as [|b rest IH]; intros closed a Hall Hsorted; [done|].
  inversion Hall as [|? ? Ha Hrest]; subst.
  apply Forall_cons in Ha as [Hab Ha].
  apply StronglySorted_cons in Hsorted as [Hlow Hsorted].
  apply Forall_cons in Hlow as [Hlow _]. apply GroupingFacts.key_le_y0 in Hlow.
  cbn [fold_left].
  assert (group_step 5
            {| paragraphs := closed; current_para := [a]; current_y := PDFTextBlock.y0 a |} b
          = {| paragraphs := closed ++ [[a]]; current_para := [b];
               current_y := PDFTextBlock.y0 b |}) as ->.
  { unfold group_step. cbn [current_y paragraphs current_para].
    by rewrite (apart_not_within a b Hlow Hab). }
  destruct (IH (closed ++ [[a]]) b Hrest Hsorted) as [Hne Heq].
  split; [exact Hne|]. rewrite Heq. by rewrite <- app_assoc.
Qed.

(** X8: runs whose [y0] are more than 5 points apart from each other, by
    more than the error of one rounding, get a paragraph each, in the order
    of their [y0]. *)
Theorem paragraphs_separate_lines (text_blocks : list PDFTextBlock.t) :
  ForallOrdPairs
    (fun a b => (5 < Qabs (PDFTextBlock.y0 a - PDFTextBlock.y0 b) * below)%Q)
    text_blocks ->
  _group_text_into_paragraphs text_blocks = map (fun run => [run]) (sorted text_blocks).
Proof.
  intros Hall. change (ForallOrdPairs apart text_blocks) in Hall.
  apply sorted_apart in Hall.
  pose proof (GroupingFacts.sorted_StronglySorted text_blocks) as Hsorted.
  destruct (sorted text_blocks) as [|first rest] eqn:Hs.
  { apply GroupingFacts.sorted_nil_inv in Hs. by subst. }
  unfold _group_text_into_paragraphs, group_with. destruct text_blocks as [|b bs]; [done|]. rewrite Hs.
  destruct (fold_group_step_apart rest [] first Hall Hsorted) as [Hne Heq].
  cbv zeta in Hne, Heq.
  destruct (current_para _) eqn:Hcur; [done|]. exact Heq.
Qed.

Lemma paragraphs_separate_lines_witness :
  _group_text_into_paragraphs [block_at 24 0; block_at 0 0; block_at 12 0]
  = map (fun run => [run]) (sorted [block_at 24 0; block_at 0 0; block_at 12 0]).
Proof.
  apply (paragraphs_separate_lines [block_at 24 0; block_at 0 0; block_at 12 0]).
  repeat constructor; by vm_compute.
Defined.

(** X9: the paragraphs are there exactly when runs are: no run, no
    paragraph, and with runs the first paragraph starts with a run of the
    smallest [y0]. *)
Theorem paragraphs_first_run (text_blocks : list PDFTextBlock.t) :
  (_group_text_into_paragraphs text_blocks = [] <-> text_blocks = [])
  /\ (forall first members more,
        _group_text_into_paragraphs text_blocks = (first :: members) :: more ->
        Forall (fun run => (PDFTextBlock.y0 first <= PDFTextBlock.y0 run)%Q) text_blocks).
Proof.
  split; [split|].
  - intros Hnil.
    pose proof (GroupingFacts.group_with_concat 5 text_blocks) as Hcat.
    unfold _group_text_into_paragraphs in Hnil. rewrite Hnil in Hcat.
    symmetry in Hcat. by apply GroupingFacts.sorted_nil_inv in Hcat.
  - by intros ->.
  - intros first members more Heq.
    pose proof (GroupingFacts.group_with_concat 5 text_blocks) as Hcat.
    pose proof (GroupingFacts.sorted_StronglySorted text_blocks) as Hsorted.
    unfold _group_text_into_paragraphs in Heq. rewrite Heq in Hcat.
    rewrite <- Hcat in Hsorted. rewrite concat_cons, <- app_comm_cons in Hsorted.
    apply StronglySorted_cons in Hsorted as [Hlow _].
    eapply Permutation_Forall; [apply GroupingFacts.sorted_Permutation|].
    rewrite <- Hcat. rewrite concat_cons, <- app_comm_cons.
    constructor; [lra|].
    eapply Forall_impl; [exact Hlow|]. intros b. apply GroupingFacts.key_le_y0.
Qed.

End GroupingMore.

(** ** Document assembly, continued *)

Module DocumentMore.
Import DOCXGenerator DocumentSpec DocumentView.

Lemma runs_of_app (a b : Document) : runs_of (a ++ b) = runs_of a ++ runs_of b.
Proof. apply flat_map_app. Qed.

Lemma text_runs_app (a b : Document) : text_runs (a ++ b) = text_runs a ++ text_runs b.
Proof. unfold text_runs. by rewrite runs_of_app, List.filter_app. Qed.

Lemma has_text_run_of_block (block : PDFTextBlock.t) :
  has_text (run_of_block block) = true.
Proof. unfold has_text, run_of_block. cbn. by destruct (PDFTextBlock.text block). Qed.

Lemma text_runs_blocks (blocks : list PDFTextBlock.t) :
  List.filter has_text (map run_of_block blocks) = map run_of_block blocks.
Proof.
  induction blocks as [|b blocks IH]; [done|].
  cbn [map List.filter]. by rewrite has_text_run_of_block, IH.
Qed.

Lemma pictures_of_app (a b : Document) :
  pictures_of (a ++ b) = pictures_of a ++ pictures_of b.
Proof. apply omap_app. Qed.

Lemma runs_of_paragraphs (groups : list (list PDFTextBlock.t)) :
  runs_of (map (fun para_blocks => Paragraph (map run_of_block para_blocks)) groups)
  = map run_of_block (concat groups).
Proof.
  induction groups as [|g groups IH]; [done|].
  rewrite concat_cons, map_app, <- IH. done.
Qed.

Lemma pictures_of_paragraphs (groups : list (list PDFTextBlock.t)) :
  pictures_of (map (fun para_blocks => Paragraph (map run_of_block para_blocks)) groups)
  = [].
Proof. by induction groups. Qed.

Section Docx.

Variable picture_error : bytes -> Z -> option exn.
Variable run_error : PDFTextBlock.t -> option exn.

Local Abbreviation add_image := (_add_image_to_document picture_error).
Local Abbreviation add_page := (_add_page_to_document picture_error).
Local Abbreviation create := (create_document picture_error).

(** What one image adds: nothing, the paragraph with an empty run that a
    refused picture leaves, or a picture and an empty paragraph. *)
Lemma _add_image_to_document_cases (img : PDFImage.t) :
  add_image [] img = []
  \/ add_image [] img = [Paragraph [empty_run]]
  \/ exists w, add_image [] img = [Picture (PDFImage.data img) w None; Paragraph []].
Proof.
  unfold _add_image_to_document, add_image_body.
  destruct (if 0 <? PDFImage.width img then _ else _); [|by left].
  destruct (picture_width img) as [w|]; [|by left].
  destruct (picture_error _ _); [by right; left|]. right. right. by exists w.
Qed.

Lemma runs_of_images (images : list PDFImage.t) :
  text_runs (fold_left add_image images []) = []
  /\ Forall (fun run => run = empty_run) (runs_of (fold_left add_image images [])).
Proof.
  induction images as [|img images [IH1 IH2]]; [by split; [|constructor]|].
  cbn [fold_left].
  rewrite DocumentFacts.add_images_app, text_runs_app, runs_of_app, IH1, app_nil_r.
  destruct (_add_image_to_document_cases img) as [-> | [-> | [w ->]]].
  - by split.
  - split; [done|]. by constructor.
  - by split.
Qed.

Lemma runs_of_page (page : PDFPage.t) :
  text_runs (add_page [] page) = map run_of_block (sorted (PDFPage.text_blocks page))
  /\ Forall (fun run => has_text run = false -> run = empty_run)
       (runs_of (add_page [] page)).
Proof.
  rewrite DocumentFacts._add_page_to_document_content, app_nil_l.
  rewrite text_runs_app, runs_of_app.
  destruct (runs_of_images (PDFPage.images page)) as [-> Hempty].
  rewrite app_nil_r, runs_of_paragraphs.
  unfold text_runs. rewrite runs_of_paragraphs, text_runs_blocks.
  unfold _group_text_into_paragraphs. rewrite GroupingFacts.group_with_concat.
  split; [done|]. apply Forall_app. split.
  - apply Forall_fmap, Forall_true. intros block. cbn.
    by rewrite has_text_run_of_block.
  - eapply Forall_impl; [exact Hempty|]. by intros run ->.
Qed.

(** The loop of [create_document], whatever the numbers of the pages. *)
Lemma create_document_loop_any (total : nat) (pages : list PDFPage.t) (doc : Document) :
  fold_left
    (fun doc page =>
       let doc := add_page doc page in
       if PDFPage.page_number page <? Z.of_nat total - 1 then add_page_break doc else doc)
    pages doc
  = doc
    ++ flat_map
         (fun page =>
            add_page [] page ++ if break_after total page then [PageBreak] else [])
         pages.
Proof.
  revert doc. induction pages as [|page pages IH]; intros doc.
  - by rewrite app_nil_r.
  - cbn [fold_left flat_map]. rewrite IH. cbv zeta.
    rewrite (DocumentFacts._add_page_to_document_app picture_error doc page).
    unfold break_after, add_page_break.
    destruct (PDFPage.page_number page <? Z.of_nat total - 1).
    + by rewrite <- !app_assoc.
    + by rewrite app_nil_r, <- !app_assoc.
Qed.

Lemma create_document_flat_map (pages : list PDFPage.t) :
  create pages
  = flat_map
      (fun page =>
         add_page [] page
         ++ if break_after (length pages) page then [PageBreak] else [])
      pages.
Proof. unfold create_document. by rewrite create_document_loop_any. Qed.

(** The runs of pages laid out one after the other, with or without page
    breaks between them. *)
Lemma runs_of_pages (break : PDFPage.t -> bool) (pages : list PDFPage.t) :
  let doc :=
    flat_map
      (fun page => add_page [] page ++ if break page then [PageBreak] else []) pages in
  text_runs doc
  = flat_map (fun page => map run_of_block (sorted (PDFPage.text_blocks page))) pages
  /\ Forall (fun run => has_text run = false -> run = empty_run) (runs_of doc).
Proof.
  induction pages as [|page pages [IH1 IH2]]; [by split; [|constructor]|].
  cbn [flat_map]. rewrite !text_runs_app, !runs_of_app, IH1.
  destruct (runs_of_page page) as [-> Hpage].
  split.
  - destruct (break page); cbn; by rewrite ?app_nil_r.
  - apply Forall_app. split; [|exact IH2].
    apply Forall_app. split; [exact Hpage|]. destruct (break page); constructor.
Qed.

(** When python-docx takes every run, the loops that can raise build what
    the loops without exceptions build. *)
Lemma add_runs_accepted (runs : list Run) (para_blocks : list PDFTextBlock.t) :
  Forall (fun block => run_error block = None) para_blocks ->
  DOCXGeneratorRaising.add_runs run_error runs para_blocks
  = Ok (runs ++ map run_of_block para_blocks).
Proof.
  revert runs. induction para_blocks as [|block rest IH]; intros runs Hall.
  - cbn. by rewrite app_nil_r.
  - apply Forall_cons in Hall as [Hblock Hrest]. cbn. rewrite Hblock.
    rewrite IH by done. by rewrite <- app_assoc.
Qed.

Lemma add_paragraphs_accepted (doc : Document) (paragraphs : list (list PDFTextBlock.t)) :
  Forall (Forall (fun block => run_error block = None)) paragraphs ->
  DOCXGeneratorRaising.add_paragraphs run_error doc paragraphs
  = Ok (fold_left
          (fun doc para_blocks => doc ++ [Paragraph (map run_of_block para_blocks)])
          paragraphs doc).
Proof.
  revert doc. induction paragraphs as [|para_blocks rest IH]; intros doc Hall; [done|].
  apply Forall_cons in Hall as [Hpara Hrest]. cbn.
  rewrite (add_runs_accepted [] para_blocks Hpara). cbn. by apply IH.
Qed.

Lemma _add_page_to_document_accepted (doc : Document) (page : PDFPage.t) :
  runs_accepted run_error page ->
  DOCXGeneratorRaising._add_page_to_document picture_error run_error doc page
  = Ok (add_page doc page).
Proof.
  intros Hall. unfold DOCXGeneratorRaising._add_page_to_document.
  rewrite add_paragraphs_accepted; [done|].
  apply Forall_concat. unfold _group_text_into_paragraphs.
  rewrite GroupingFacts.group_with_concat.
  eapply Permutation_Forall; [|exact Hall].
  symmetry. apply GroupingFacts.sorted_Permutation.
Qed.

Lemma add_pages_accepted (total : nat) (doc : Document) (pages : list PDFPage.t) :
  Forall (runs_accepted run_error) pages ->
  DOCXGeneratorRaising.add_pages picture_error run_error total doc pages
  = Ok (fold_left
          (fun doc page =>
             let doc := add_page doc page in
             if PDFPage.page_number page <? Z.of_nat total - 1
             then add_page_break doc
             else doc)
          pages doc).
Proof.
  revert doc. induction pages as [|page rest IH]; intros doc Hall; [done|].
  apply Forall_cons in Hall as [Hpage Hrest]. cbn [DOCXGeneratorRaising.add_pages].
  rewrite (_add_page_to_document_accepted doc page Hpage). cbn [fold_left].
  by apply IH.
Qed.

Lemma create_document_accepted (pages : list PDFPage.t) :
  Forall (runs_accepted run_error) pages ->
  DOCXGeneratorRaising.create_document picture_error run_error pages = Ok (create pages).
Proof. apply add_pages_accepted. Qed.

(** A run that python-docx refuses ends [create_document]. *)
Example create_document_control_character :
  DOCXGeneratorRaising.create_document no_picture_error control_character_error
    [ sample_page 0
        [ GroupingSpec.block_at 0 0;
          {| PDFTextBlock.page_number := None;
             PDFTextBlock.text := String (ascii_of_N 12) "word";
             PDFTextBlock.x0 := 0; PDFTextBlock.y0 := 20;
             PDFTextBlock.x1 := 20; PDFTextBlock.y1 := 30;
             PDFTextBlock.font_name := "Helvetica"; PDFTextBlock.font_size := 10 |} ]
        [] ]
  = Raise (LibraryError "All strings must be XML compatible").
Proof. by vm_compute. Qed.

(** X10: when python-docx takes the run of every block, [create_document]
    hands a document to [save] whose runs that carry text are the text
    blocks of the pages: one run for each block, page after page in the
    order of the list, and within a page in the order of [(y0, x0)].  Every
    other run is the empty run that a picture refused by python-docx leaves
    behind. *)
Theorem create_document_runs (pages : list PDFPage.t) :
  Forall
    (fun page => Forall (fun block => run_error block = None) (PDFPage.text_blocks page))
    pages ->
  exists doc,
    DOCXGeneratorRaising.create_document picture_error run_error pages = Ok doc
    /\ text_runs doc
       = flat_map (fun page => map run_of_block (sorted (PDFPage.text_blocks page))) pages
    /\ Forall (fun run => has_text run = false -> run = empty_run) (runs_of doc).
Proof.
  intros Hall. exists (create pages).
  split; [by apply create_document_accepted|].
  rewrite create_document_flat_map.
  apply (runs_of_pages (break_after (length pages))).
Qed.

(** X11: whatever the numbers of the pages, the document is the content of
    each page followed by a page break exactly when the number of the page
    is below the length of the list less one; the page breaks are as many as
    such pages. *)
Theorem create_document_page_break_rule (pages : list PDFPage.t) :
  create pages
  = flat_map
      (fun page =>
         add_page [] page
         ++ if break_after (length pages) page then [PageBreak] else [])
      pages
  /\ page_breaks (create pages)
     = length (List.filter (break_after (length pages)) pages).
Proof.
  split; [apply create_document_flat_map|].
  rewrite create_document_flat_map. generalize (length pages). intros total.
  induction pages as [|page pages IH]; [done|].
  cbn [flat_map List.filter]. rewrite !DocumentFacts.page_breaks_app, IH.
  rewrite (DocumentFacts.page_breaks_none (add_page [] page))
    by apply DocumentFacts._add_page_to_document_no_break.
  by destruct (break_after total page).
Qed.

(** The width is computed for every image that is not of enormous size. *)
Lemma picture_width_total (img : PDFImage.t) :
  0 <= PDFImage.width img < 2 ^ 1000 ->
  exists e,
    picture_width img = Ok e
    /\ 0 <= e <= Inches_int 6
    /\ (0 < PDFImage.width img -> 0 < e).
Proof.
  intros [Hlow Hhigh].
  destruct (Z.lt_ge_cases (PDFImage.width img) 432) as [Hsmall | Hlarge].
  - pose proof (PictureFacts.small_width _ (conj Hlow Hsmall)) as Hok.
    unfold PictureSpec.small_width_ok in Hok.
    rewrite <- PictureFacts.picture_width_only_width in Hok.
    destruct (picture_width img) as [e|]; [|done].
    apply andb_prop in Hok as
      [[[H1%Z.leb_le H2%Z.leb_le]%andb_prop H3%Z.ltb_lt]%andb_prop H4].
    assert (PictureSpec.exact_emu (PDFImage.width img) = PDFImage.width img * 12700)
      as Hexact.
    { unfold PictureSpec.exact_emu. change EMUS_PER_INCH with (12700 * 72).
      by rewrite Z.mul_assoc, Z.div_mul. }
    rewrite Hexact in *. change max_width with (Inches_int 6) in H3.
    exists e. split; [done|]. split; [split; [|lia] | lia].
    destruct (Z.eq_dec (PDFImage.width img) 0) as [H0 | H0]; [|lia].
    rewrite H0 in *. apply orb_prop in H4 as [H4 | H4%Z.eqb_eq]; [done | lia].
  - exists (Inches_int 6). split; [|by vm_compute].
    by apply PictureFacts.picture_width_capped.
Qed.

(** X12: for an image of sizes from 0 up to [2 ^ 1000] the arithmetic of
    [_add_image_to_document] raises nothing: the width is computed, lies
    between 0 and six inches and is positive for a positive pixel width, and
    the attempt fails exactly when python-docx refuses the picture. *)
Theorem try_add_image_arithmetic (doc : Document) (img : PDFImage.t) :
  0 <= PDFImage.width img < 2 ^ 1000 ->
  0 <= PDFImage.height img < 2 ^ 1000 ->
  exists e,
    picture_width img = Ok e
    /\ 0 <= e <= Inches_int 6
    /\ (0 < PDFImage.width img -> 0 < e)
    /\ try_add_image picture_error doc img
       = match picture_error (PDFImage.data img) e with
         | Some error => Raise error
         | None => Ok (doc ++ [Picture (PDFImage.data img) e None; Paragraph []])
         end.
Proof.
  intros Hw Hh. destruct (picture_width_total img Hw) as (e & He & Hrange & Hpos).
  exists e. repeat split; [done | lia | lia | done |].
  unfold try_add_image, add_image_body.
  destruct (PictureFacts.aspect_ratio_finite img Hh) as (ratio & ->).
  rewrite He. by destruct (picture_error _ _).
Qed.

Lemma pictures_of_image (img : PDFImage.t) :
  0 <= PDFImage.height img < 2 ^ 1000 ->
  pictures_of (add_image [] img) = option_list (accepted picture_error img).
Proof.
  intros Hh. unfold _add_image_to_document, add_image_body, accepted.
  destruct (PictureFacts.aspect_ratio_finite img Hh) as (ratio & ->).
  destruct (picture_width img) as [w|]; [|done].
  by destruct (picture_error _ _).
Qed.

Lemma pictures_of_images (images : list PDFImage.t) :
  Forall (fun img => 0 <= PDFImage.height img < 2 ^ 1000) images ->
  pictures_of (fold_left add_image images []) = omap (accepted picture_error) images.
Proof.
  induction 1 as [|img images Himg _ IH]; [done|]. cbn [fold_left].
  rewrite DocumentFacts.add_images_app, pictures_of_app, IH.
  rewrite (pictures_of_image img Himg).
  destruct (accepted picture_error img) eqn:Hacc; simpl; by rewrite Hacc.
Qed.

(** X13: the pictures of the document are the images of the pages that
    python-docx accepts at their computed width, in the order of the pages
    and of their image lists; an image that is refused is left out and the
    others are kept. *)
Theorem create_document_pictures (pages : list PDFPage.t) :
  Forall
    (fun page =>
       Forall (fun img => 0 <= PDFImage.height img < 2 ^ 1000) (PDFPage.images page))
    pages ->
  pictures_of (create pages)
  = flat_map (fun page => omap (accepted picture_error) (PDFPage.images page)) pages.
Proof.
  rewrite create_document_flat_map. generalize (length pages). intros total.
  induction 1 as [|page pages Hpage _ IH]; [done|].
  cbn [flat_map]. rewrite !pictures_of_app, IH.
  rewrite DocumentFacts._add_page_to_document_content, app_nil_l, pictures_of_app.
  rewrite pictures_of_paragraphs, (pictures_of_images _ Hpage).
  destruct (break_after total page); cbn; by rewrite ?app_nil_r.
Qed.

End Docx.

Lemma create_document_runs_witness :
  exists doc,
    DOCXGeneratorRaising.create_document zero_byte_error control_character_error
      [ sample_page 0 [GroupingSpec.block_at 20 0; GroupingSpec.block_at 0 0]
          [ {| PDFImage.data := [Byte.x00]; PDFImage.width := 10; PDFImage.height := 10;
               PDFImage.dpi := 72; PDFImage.format := "png";
               PDFImage.position := (0, 0, 10, 10)%Q |} ];
        sample_page 1 [GroupingSpec.block_at 0 40] [] ]
    = Ok doc
    /\ map run_text (runs_of doc) = ["word "; "word "; ""; "word "].
Proof.
  destruct (create_document_runs zero_byte_error control_character_error
              [ sample_page 0 [GroupingSpec.block_at 20 0; GroupingSpec.block_at 0 0]
                  [ {| PDFImage.data := [Byte.x00]; PDFImage.width := 10;
                       PDFImage.height := 10; PDFImage.dpi := 72;
                       PDFImage.format := "png";
                       PDFImage.position := (0, 0, 10, 10)%Q |} ];
                sample_page 1 [GroupingSpec.block_at 0 40] [] ])
    as (doc & Hdoc & _).
  - repeat constructor.
  - exists doc. split; [exact Hdoc|].
    vm_compute in Hdoc. injection Hdoc as <-. reflexivity.
Defined.

Lemma try_add_image_arithmetic_witness :
  exists e,
    picture_width (sample_picture 360 200) = Ok e
    /\ 0 <= e <= Inches_int 6
    /\ (0 < PDFImage.width (sample_picture 360 200) -> 0 < e)
    /\ try_add_image no_picture_error [] (sample_picture 360 200)
       = match no_picture_error (PDFImage.data (sample_picture 360 200)) e with
         | Some error => Raise error
         | None =>
             Ok ([] ++ [Picture (PDFImage.data (sample_picture 360 200)) e None;
                        Paragraph []])
         end.
Proof.
  apply (try_add_image_arithmetic no_picture_error [] (sample_picture 360 200));
    by vm_compute.
Defined.

Lemma create_document_pictures_witness :
  pictures_of
    (create_document zero_byte_error
       [ sample_page 0 []
           [ sample_picture 360 200;
             {| PDFImage.data := [Byte.x00]; PDFImage.width := 10; PDFImage.height := 10;
                PDFImage.dpi := 72; PDFImage.format := "png";
                PDFImage.position := (0, 0, 10, 10)%Q |} ];
         sample_page 1 [] [sample_picture 720 200] ])
  = [ ([Byte.x89; Byte.x50], Inches_int 5); ([Byte.x89; Byte.x50], Inches_int 6) ].
Proof.
  rewrite (create_document_pictures zero_byte_error).
  - by vm_compute.
  - repeat constructor; by vm_compute.
Defined.

End DocumentMore.

(** ** Page extraction, continued *)

Module PDFProcessorMore.
Import PDFProcessor PDFSamples ProcessSpec.

Section Services.

Variable ocr_extract_text_from_image :
  OCRProcessor.t -> bytes -> Z -> list PDFTextBlock.t.

Local Abbreviation extract_text := (extract_text_blocks ocr_extract_text_from_image).
Local Abbreviation fallback := (ocr_fallback ocr_extract_text_from_image).
Local Abbreviation process := (process_page ocr_extract_text_from_image).
Local Abbreviation process_all := (process_all_pages ocr_extract_text_from_image).
Local Abbreviation record := (page_record ocr_extract_text_from_image).

(** A page that both libraries give is processed into its record, and the
    trace grows by the OCR call of the page, if there is one. *)
Lemma process_page_record
    (self : t) (p : Z) (pg : PlumberPage) (imgs : list EmbeddedImage)
    (tr : list OcrCall) :
  py_index (pages (pdf_path self)) p = Ok pg ->
  extract_images self p = Ok (map pdf_image_of imgs) ->
  process self p tr = (Ok (record self p pg imgs), tr ++ ocr_calls self p pg imgs).
Proof.
  intros Hindex Himages.
  unfold process_page, bind at 1.
  rewrite (PDFProcessorFacts.extract_text_blocks_in_range _ _ _ _ Hindex).
  unfold page_record, page_text, ocr_calls, ocr_target.
  unfold ocr_fallback, bind, lift, ret, invoke_ocr.
  rewrite Himages, Hindex.
  destruct (words pg) as [|w ws]; cbn [map].
  - destruct (enable_ocr self); [|by rewrite app_nil_r].
    destruct (ocr_processor self) as [ocr|]; [|by rewrite app_nil_r].
    destruct (map pdf_image_of imgs) as [|first rest]; [by rewrite app_nil_r|].
    done.
  - by rewrite app_nil_r.
Qed.

Lemma extract_images_at (self : t) (i : nat) (imgs : list EmbeddedImage) :
  doc (pdf_path self) !! i = Some imgs ->
  extract_images self (Z.of_nat i) = Ok (map pdf_image_of imgs).
Proof.
  intros Himgs. pose proof (lookup_lt_Some _ _ _ Himgs) as Hlt.
  unfold extract_images. rewrite (proj2 (Z.leb_gt _ _)) by lia.
  by rewrite (PDFProcessorFacts.fitz_index_nonnegative _ _ _ Himgs).
Qed.

(** The loop of [process_all_pages] over the pages [first], ...,
    [first + count - 1]. *)
Lemma for_each_records (self : t) (count first : nat) (tr : list OcrCall) :
  length (doc (pdf_path self)) = length (pages (pdf_path self)) ->
  (first + count <= length (pages (pdf_path self)))%nat ->
  exists processed calls,
    for_each (process self) (map Z.of_nat (seq first count)) tr
    = (Ok processed, tr ++ calls)
    /\ length processed = count
    /\ (forall j page,
          processed !! j = Some page ->
          exists pg imgs,
            pages (pdf_path self) !! (first + j)%nat = Some pg
            /\ doc (pdf_path self) !! (first + j)%nat = Some imgs
            /\ page = record self (Z.of_nat (first + j)) pg imgs)
    /\ StronglySorted Z.lt (map call_page calls)
    /\ Forall
         (fun c =>
            exists i pg imgs,
              (first <= i < first + count)%nat
              /\ pages (pdf_path self) !! i = Some pg
              /\ doc (pdf_path self) !! i = Some imgs
              /\ ocr_calls self (Z.of_nat i) pg imgs = [c])
         calls.
Proof.
  intros Hlen. revert first tr.
  induction count as [|count IH]; intros first tr Hcount.
  - exists [], []. cbn. rewrite app_nil_r.
    repeat split; [done | constructor | constructor].
  - destruct (lookup_lt_is_Some_2 (pages (pdf_path self)) first ltac:(lia)) as [pg Hpg].
    destruct (lookup_lt_is_Some_2 (doc (pdf_path self)) first ltac:(lia)) as [imgs Himgs].
    pose proof (process_page_record self (Z.of_nat first) pg imgs tr
                  (PDFProcessorFacts.py_index_nonnegative _ _ _ Hpg)
                  (extract_images_at _ _ _ Himgs)) as Hpage.
    destruct (IH (S first) (tr ++ ocr_calls self (Z.of_nat first) pg imgs) ltac:(lia))
      as (processed & calls & Hrest & Hlength & Hrecords & Hsorted & Hcalls).
    exists (record self (Z.of_nat first) pg imgs :: processed),
           (ocr_calls self (Z.of_nat first) pg imgs ++ calls).
    cbn [seq map for_each]. unfold bind at 1. rewrite Hpage.
    unfold bind at 1. rewrite Hrest. unfold ret.
    split; [by rewrite app_assoc|].
    split; [cbn; by rewrite Hlength|].
    split; [|split].
    + intros [|j] page Hj.
      * cbn in Hj. simplify_eq. exists pg, imgs. by rewrite Nat.add_0_r.
      * cbn in Hj. destruct (Hrecords _ _ Hj) as (pg' & imgs' & H1 & H2 & H3).
        exists pg', imgs'. by rewrite <- Nat.add_succ_comm.
    + rewrite map_app. apply StronglySorted_app_2; [| |done].
      * intros x1 x2 Hx1 Hx2.
        apply list_elem_of_fmap in Hx1 as (c1 & -> & Hc1).
        apply list_elem_of_fmap in Hx2 as (c2 & -> & Hc2).
        rewrite Forall_forall in Hcalls.
        destruct (Hcalls _ Hc2) as (i & pg' & imgs' & Hi & _ & _ & Hcall).
        unfold ocr_calls in Hc1, Hcall.
        destruct (ocr_target self pg imgs) as [[? ?]|]; [|by apply elem_of_nil in Hc1].
        apply list_elem_of_singleton in Hc1 as ->.
        destruct (ocr_target self pg' imgs') as [[? ?]|]; [|done].
        simplify_eq. cbn. lia.
      * unfold ocr_calls. destruct (ocr_target self pg imgs) as [[? ?]|]; cbn.
        -- repeat constructor.
        -- constructor.
    + apply Forall_app. split.
      * destruct (ocr_calls self (Z.of_nat first) pg imgs) as [|c [|c' cs]] eqn:Hc.
        -- constructor.
        -- repeat constructor. exists first, pg, imgs. repeat split; [lia..|done|done|done].
        -- unfold ocr_calls in Hc. by destruct (ocr_target self pg imgs) as [[? ?]|].
      * eapply Forall_impl; [exact Hcalls|].
        intros c (i & pg' & imgs' & Hi & H1 & H2 & H3).
        exists i, pg', imgs'. repeat split; [lia..|done|done|done].
Qed.

Lemma process_all_pages_records (self : t) (tr : list OcrCall) :
  length (doc (pdf_path self)) = length (pages (pdf_path self)) ->
  exists processed calls,
    process_all self tr = (Ok processed, tr ++ calls)
    /\ length processed = length (pages (pdf_path self))
    /\ (forall j page,
          processed !! j = Some page ->
          exists pg imgs,
            pages (pdf_path self) !! j = Some pg
            /\ doc (pdf_path self) !! j = Some imgs
            /\ page = record self (Z.of_nat j) pg imgs)
    /\ StronglySorted Z.lt (map call_page calls)
    /\ Forall
         (fun c =>
            exists i pg imgs,
              pages (pdf_path self) !! i = Some pg
              /\ doc (pdf_path self) !! i = Some imgs
              /\ ocr_calls self (Z.of_nat i) pg imgs = [c])
         calls.
Proof.
  intros Hlen. unfold process_all_pages, get_page_count. rewrite Nat2Z.id.
  destruct (for_each_records self (length (pages (pdf_path self))) 0 tr Hlen ltac:(lia))
    as (processed & calls & Hrun & Hlength & Hrecords & Hsorted & Hcalls).
  exists processed, calls. repeat split; [done..|].
  eapply Forall_impl; [exact Hcalls|].
  intros c (i & pg & imgs & _ & H1 & H2 & H3). by exists i, pg, imgs.
Qed.

(** X14: on a file that both libraries read with the same page count,
    [process_all_pages] returns one record for each page, in the order of
    the pages: the record at position [i] has the number [i], the size that
    pdfplumber gives for the page, the images that PyMuPDF gives for it, the
    words of the page as its text when it has words, and flags that tell
    whether its text and its images are non-empty. *)
Theorem process_all_pages_complete (self : t) (tr : list OcrCall) :
  length (doc (pdf_path self)) = length (pages (pdf_path self)) ->
  exists processed tr',
    process_all self tr = (Ok processed, tr')
    /\ length processed = length (pages (pdf_path self))
    /\ (forall i page,
          processed !! i = Some page ->
          exists pg imgs,
            pages (pdf_path self) !! i = Some pg
            /\ doc (pdf_path self) !! i = Some imgs
            /\ PDFPage.page_number page = Z.of_nat i
            /\ PDFPage.width page = page_width pg
            /\ PDFPage.height page = page_height pg
            /\ PDFPage.images page = map pdf_image_of imgs
            /\ (words pg <> [] ->
                PDFPage.text_blocks page = map text_block_of_word (words pg))
            /\ (PDFPage.has_text page = true <-> PDFPage.text_blocks page <> [])
            /\ (PDFPage.has_images page = true <-> imgs <> [])).
Proof.
  intros Hlen.
  destruct (process_all_pages_records self tr Hlen)
    as (processed & calls & Hrun & Hlength & Hrecords & _).
  exists processed, (tr ++ calls). repeat split; [done..|].
  intros i page Hi. destruct (Hrecords _ _ Hi) as (pg & imgs & Hpg & Himgs & ->).
  exists pg, imgs. unfold page_record. cbn.
  repeat split; try done.
  - intros Hwords. unfold page_text, ocr_target. by destruct (words pg).
  - intros H%bool_decide_eq_true. by destruct (page_text _ _ _ _ _); [cbn in H; lia|].
  - intros H. apply bool_decide_eq_true. destruct (page_text _ _ _ _ _); [done | cbn; lia].
  - intros H%bool_decide_eq_true. by destruct imgs; [cbn in H; lia|].
  - intros H. apply bool_decide_eq_true. destruct imgs; [done | cbn; lia].
Qed.

(** X15: the OCR calls of [process_all_pages] are appended to the trace in
    the order of the pages, at most one for a page: the page numbers of the
    new calls increase strictly, and each call is made for a page without
    words, with OCR enabled, on the data of one of the images of that
    page. *)
Theorem process_all_pages_ocr_calls (self : t) (tr : list OcrCall) :
  length (doc (pdf_path self)) = length (pages (pdf_path self)) ->
  exists processed calls,
    process_all self tr = (Ok processed, tr ++ calls)
    /\ StronglySorted Z.lt (map call_page calls)
    /\ Forall
         (fun c =>
            exists i pg imgs,
              call_page c = Z.of_nat i
              /\ pages (pdf_path self) !! i = Some pg
              /\ doc (pdf_path self) !! i = Some imgs
              /\ words pg = []
              /\ enable_ocr self = true
              /\ call_image c ∈ map img_image imgs)
         calls.
Proof.
  intros Hlen.
  destruct (process_all_pages_records self tr Hlen)
    as (processed & calls & Hrun & _ & _ & Hsorted & Hcalls).
  exists processed, calls. repeat split; [done..|].
  eapply Forall_impl; [exact Hcalls|].
  intros c (i & pg & imgs & Hpg & Himgs & Hcall).
  exists i, pg, imgs. unfold ocr_calls, ocr_target in Hcall.
  destruct (words pg); [|done]. destruct (enable_ocr self); [|done].
  destruct (ocr_processor self); [|done].
  destruct (map pdf_image_of imgs) as [|first rest] eqn:Hmap; [done|].
  simplify_eq. cbn. repeat split; [done..|].
  destruct (PDFProcessorFacts.py_max_by_first_largest area first rest)
    as (pre & post & Hsplit & _).
  assert (py_max_by area first rest ∈ map pdf_image_of imgs) as Hin.
  { rewrite Hmap, Hsplit. apply elem_of_app. right. by apply elem_of_cons; left. }
  apply list_elem_of_fmap in Hin as (img & -> & Hin).
  apply list_elem_of_fmap. by exists img.
Qed.

Lemma process_all_pages_native (self : t) (tr : list OcrCall) :
  length (doc (pdf_path self)) = length (pages (pdf_path self)) ->
  enable_ocr self = false \/ ocr_processor self = None ->
  exists processed,
    process_all self tr = (Ok processed, tr)
    /\ map PDFPage.text_blocks processed
       = map (fun pg => map text_block_of_word (words pg)) (pages (pdf_path self)).
Proof.
  intros Hlen Hoff.
  assert (forall pg imgs, ocr_target self pg imgs = None) as Hnone.
  { intros pg imgs. unfold ocr_target. destruct (words pg); [|done].
    destruct Hoff as [-> | ->]; [done|]. by destruct (enable_ocr self). }
  destruct (process_all_pages_records self tr Hlen)
    as (processed & calls & Hrun & Hlength & Hrecords & _ & Hcalls).
  exists processed. split.
  - destruct calls as [|c calls]; [by rewrite app_nil_r in Hrun|].
    apply Forall_cons in Hcalls as [(i & pg & imgs & _ & _ & Hcall) _].
    unfold ocr_calls in Hcall. by rewrite Hnone in Hcall.
  - apply list_eq. intros i. rewrite !list_lookup_fmap.
    destruct (processed !! i) as [page|] eqn:Hi.
    + destruct (Hrecords _ _ Hi) as (pg & imgs & -> & _ & ->).
      cbn. unfold page_text. by rewrite Hnone.
    + apply lookup_ge_None in Hi. rewrite Hlength in Hi.
      apply lookup_ge_None in Hi. by rewrite Hi.
Qed.

(** X16: with OCR disabled, or without an OCR processor,
    [process_all_pages] leaves the trace of OCR calls as it was, and the
    text of every page is the words of the page, none for a page without
    words. *)
Theorem process_all_pages_without_ocr (self : t) (tr : list OcrCall) :
  length (doc (pdf_path self)) = length (pages (pdf_path self)) ->
  enable_ocr self = false \/ ocr_processor self = None ->
  exists processed,
    process_all self tr = (Ok processed, tr)
    /\ map PDFPage.text_blocks processed
       = map (fun pg => map text_block_of_word (words pg)) (pages (pdf_path self)).
Proof. apply process_all_pages_native. Qed.

(** X17: on a non-empty file that both libraries read with the same page
    count [n], [process_page] gives a record for the indices from [-n] to
    [n - 1], which keeps the index as its page number, and raises
    [IndexError] without calling OCR for every other index. *)
Theorem process_page_index_range (self : t) (p : Z) (tr : list OcrCall) :
  length (doc (pdf_path self)) = length (pages (pdf_path self)) ->
  let n := Z.of_nat (length (pages (pdf_path self))) in
  (- n <= p < n ->
   exists page tr',
     process self p tr = (Ok page, tr') /\ PDFPage.page_number page = p)
  /\ (p < - n \/ n <= p -> process self p tr = (Raise IndexError, tr)).
Proof.
  intros Hlen n. split.
  - intros Hp.
    assert (exists i : nat,
               (i < length (pages (pdf_path self)))%nat
               /\ (p = Z.of_nat i
                   \/ exists k : nat,
                        p = - Z.of_nat k
                        /\ (1 <= k <= length (pages (pdf_path self)))%nat
                        /\ i = (length (pages (pdf_path self)) - k)%nat))
      as (i & Hi & Hcase).
    { destruct (Z.lt_ge_cases p 0) as [Hneg | Hpos].
      - exists (length (pages (pdf_path self)) - Z.to_nat (- p))%nat.
        split; [lia|]. right. exists (Z.to_nat (- p)). lia.
      - exists (Z.to_nat p). split; [lia|]. left. lia. }
    destruct (lookup_lt_is_Some_2 (pages (pdf_path self)) i Hi) as [pg Hpg].
    destruct (lookup_lt_is_Some_2 (doc (pdf_path self)) i ltac:(lia)) as [imgs Himgs].
    exists (record self p pg imgs), (tr ++ ocr_calls self p pg imgs).
    split; [|done]. apply process_page_record.
    + destruct Hcase as [-> | (k & -> & Hk & ->)].
      * by apply PDFProcessorFacts.py_index_nonnegative.
      * by apply PDFProcessorFacts.py_index_from_end.
    + destruct Hcase as [-> | (k & -> & Hk & ->)].
      * by apply extract_images_at.
      * unfold extract_images. rewrite (proj2 (Z.leb_gt _ _)) by lia.
        rewrite <- Hlen in Himgs, Hk.
        by rewrite (PDFProcessorFacts.fitz_index_from_end _ _ _ Hk Himgs).
  - intros [Hlow | Hhigh].
    + unfold process_page, bind at 1.
      by rewrite (PDFProcessorFacts.extract_text_blocks_below_range _ _ _ _ Hlow).
    + unfold process_page, extract_text_blocks, extract_images, bind, lift, ret.
      rewrite !(proj2 (Z.leb_le _ _)) by lia.
      rewrite PDFProcessorFacts.py_index_too_large by lia. done.
Qed.

End Services.

(** X18: the constructor of [PDFProcessor] fails exactly when OCR is asked
    for, the OCR module is there and the constructor of [OCRProcessor]
    fails, and then with the same exception; built on the constructor of
    [OCRProcessor], that is [ImportError] without pytesseract and
    [RuntimeError] without the Tesseract program. *)
Theorem init_failure
    (OCR_AVAILABLE : bool)
    (OCRProcessor_new : option (list string) -> result OCRProcessor.t)
    (pdf : PDF) (enable : bool) (languages : option (list string)) (e : exn) :
  (__init__ OCR_AVAILABLE OCRProcessor_new pdf enable languages = Raise e
   <-> enable = true /\ OCR_AVAILABLE = true /\ OCRProcessor_new languages = Raise e)
  /\ (forall TESSERACT_AVAILABLE get_tesseract_version,
        __init__ OCR_AVAILABLE
          (OCRProcessor.__init__ TESSERACT_AVAILABLE get_tesseract_version)
          pdf enable languages = Raise e ->
        (e = ImportError /\ TESSERACT_AVAILABLE = false)
        \/ (e = RuntimeError /\ TESSERACT_AVAILABLE = true
            /\ exists e', get_tesseract_version = Raise e')).
Proof.
  assert (__init__ OCR_AVAILABLE OCRProcessor_new pdf enable languages = Raise e
          <-> enable = true /\ OCR_AVAILABLE = true
              /\ OCRProcessor_new languages = Raise e) as Hiff.
  { unfold __init__. destruct enable, OCR_AVAILABLE; cbn.
    - destruct (OCRProcessor_new languages); split; [done | | |].
      + by intros (_ & _ & ?).
      + intros ?. by simplify_eq.
      + intros (_ & _ & ?). by simplify_eq.
    - split; [done | by intros (_ & ? & _)].
    - split; [done | by intros (? & _)].
    - split; [done | by intros (? & _)]. }
  split; [exact Hiff|].
  intros tess version Hfail.
  unfold __init__ in Hfail. destruct (enable && OCR_AVAILABLE); [|done].
  unfold OCRProcessor.__init__ in Hfail.
  destruct tess; cbn in Hfail.
  - destruct version as [v | e']; [done|]. simplify_eq. right. eauto.
  - simplify_eq. by left.
Qed.

Lemma process_all_pages_complete_witness :
  exists processed tr',
    process_all_pages sample_recognition (sample_processor true) [] = (Ok processed, tr')
    /\ length processed = 3%nat.
Proof.
  destruct (process_all_pages_complete sample_recognition (sample_processor true) [])
    as (processed & tr' & Hrun & Hlength & _); [done|].
  by exists processed, tr'.
Defined.

Lemma process_all_pages_ocr_calls_witness :
  exists processed calls,
    process_all_pages sample_recognition (sample_processor true) []
    = (Ok processed, [] ++ calls)
    /\ StronglySorted Z.lt (map call_page calls).
Proof.
  destruct (process_all_pages_ocr_calls sample_recognition (sample_processor true) [])
    as (processed & calls & Hrun & Hsorted & _); [done|].
  by exists processed, calls.
Defined.

Lemma process_all_pages_without_ocr_witness :
  exists processed,
    process_all_pages sample_recognition (sample_processor false) [] = (Ok processed, [])
    /\ map PDFPage.text_blocks processed
       = map (fun pg => map text_block_of_word (words pg)) (pages sample_pdf).
Proof.
  apply (process_all_pages_without_ocr sample_recognition (sample_processor false) []);
    [done | by left].
Defined.

Lemma process_page_index_range_witness :
  exists page tr',
    process_page sample_recognition (sample_processor true) (-2) [] = (Ok page, tr')
    /\ PDFPage.page_number page = -2.
Proof.
  apply (proj1 (process_page_index_range sample_recognition (sample_processor true)
                  (-2) [] eq_refl)).
  by vm_compute.
Defined.

End PDFProcessorMore.

(** ** Strings, continued *)

Module PyStrMore.
Import PyStr.

Lemma lstrip_head (s : string) :
  match lstrip s with
  | EmptyString => True
  | String c _ => isspace c = false
  end.
Proof.
  induction s as [|c s IH]; [done|]. cbn [lstrip].
  destruct (isspace c) eqn:Hc; [exact IH | by rewrite Hc].
Qed.

Lemma rstrip_head (c : ascii) (s : string) :
  isspace c = false -> exists r, rstrip (String c s) = String c r.
Proof.
  intros Hc. cbn [rstrip]. destruct (rstrip s); [rewrite Hc|]; by eexists.
Qed.

Lemma rstrip_rstrip (s : string) : rstrip (rstrip s) = rstrip s.
Proof.
  induction s as [|c s IH]; [done|]. cbn [rstrip].
  destruct (rstrip s) as [|c' r] eqn:Hr.
  - destruct (isspace c) eqn:Hc; [done|]. cbn [rstrip]. by rewrite Hc.
  - cbn [rstrip] in IH |- *. by rewrite IH.
Qed.

Lemma lstrip_fixed (s : string) :
  match s with EmptyString => True | String c _ => isspace c = false end ->
  lstrip s = s.
Proof. destruct s as [|c s]; [done|]. cbn [lstrip]. by intros ->. Qed.

(** What [strip] returns has no white space at either end: stripping it
    again changes nothing. *)
Lemma strip_strip (s : string) : strip (strip s) = strip s.
Proof.
  unfold strip. pose proof (lstrip_head s) as Hhead.
  destruct (lstrip s) as [|c u] eqn:Hu; [done|].
  destruct (rstrip_head c u Hhead) as [r Hr]. rewrite Hr.
  rewrite lstrip_fixed by done. rewrite <- Hr. apply rstrip_rstrip.
Qed.

Lemma strip_head (s : string) :
  match strip s with
  | EmptyString => True
  | String c _ => isspace c = false
  end.
Proof.
  unfold strip. pose proof (lstrip_head s) as Hhead.
  destruct (lstrip s) as [|c u]; [done|].
  destruct (rstrip_head c u Hhead) as [r ->]. done.
Qed.

End PyStrMore.

(** ** OCR, continued *)

Module OCRMore.
Import OCRProcessor OCRSamples.

Section Engine.

Variable Raster : Type.
Variable Image_open : bytes -> result (Image Raster).
Variable convert : Raster -> string -> result Raster.
Variable resize : Raster -> Z * Z -> result Raster.
Variable image_to_string : Image Raster -> string -> string -> result string.
Variable image_to_osd : Image Raster -> result string.

Local Abbreviation preprocess := (_preprocess_image Raster convert resize).
Local Abbreviation extract :=
  (extract_text_from_image Raster Image_open convert resize image_to_string).
Local Abbreviation detect :=
  (detect_language Raster Image_open convert resize image_to_osd).

Lemma extract_text_from_image_cases (self : t) (data : bytes) (page_number : Z) :
  extract self data page_number = []
  \/ exists recognized x1 y1,
       PyStr.strip recognized <> ""
       /\ extract self data page_number
          = [ {| PDFTextBlock.page_number := Some page_number;
                 PDFTextBlock.text := PyStr.strip recognized;
                 PDFTextBlock.x0 := 0;
                 PDFTextBlock.y0 := 0;
                 PDFTextBlock.x1 := x1;
                 PDFTextBlock.y1 := y1;
                 PDFTextBlock.font_name := "OCR-Result";
                 PDFTextBlock.font_size := 12 |} ].
Proof.
  unfold extract_text_from_image.
  destruct (Image_open data) as [image|]; [|by left].
  destruct (preprocess image) as [image'|]; [|by left].
  destruct (image_to_string _ _ _) as [recognized|]; [|by left].
  destruct (PyStr.truthy (PyStr.strip recognized)) eqn:Htruthy; [|by left].
  right. eexists recognized, _, _. split; [|done].
  intros Hempty. by rewrite Hempty in Htruthy.
Qed.

(** X19: whatever the stream and the engine, [extract_text_from_image]
    returns at most one run, and a run that it returns is at the origin, has
    the font name [OCR-Result] and the size 12, carries the page number it was
    given, and its text is not empty and has no white space at either
    end. *)
Theorem extract_text_from_image_shape (self : t) (data : bytes) (page_number : Z) :
  (length (extract self data page_number) <= 1)%nat
  /\ Forall
       (fun run =>
          PDFTextBlock.page_number run = Some page_number
          /\ PDFTextBlock.font_name run = "OCR-Result"
          /\ PDFTextBlock.font_size run = 12%Q
          /\ PDFTextBlock.x0 run = 0%Q /\ PDFTextBlock.y0 run = 0%Q
          /\ PDFTextBlock.text run <> ""
          /\ PyStr.strip (PDFTextBlock.text run) = PDFTextBlock.text run)
       (extract self data page_number).
Proof.
  destruct (extract_text_from_image_cases self data page_number)
    as [-> | (recognized & x1 & y1 & Hne & ->)].
  - split; [cbn; lia | constructor].
  - split; [cbn; lia|]. repeat constructor; cbn; try done.
    apply PyStrMore.strip_strip.
Qed.

Lemma scan_osd_codes (lines : list string) (code : string) :
  scan_osd lines = Ok (Some code) -> code ∈ [ "chi_sim"; "eng"; "vie" ].
Proof.
  induction lines as [|line lines IH]; [done|]. cbn [scan_osd].
  destruct (PyStr.startswith line "Script:"); [|exact IH].
  destruct (PyStr.split ":" line !! 1%nat) as [piece|]; [|done].
  intros Hcode. simplify_eq. rewrite OCRFacts.script_map_lookup.
  repeat case_match; set_solver.
Qed.

(** X20: whatever the stream and the engine, [detect_language] returns one
    of the codes [chi_sim], [eng] and [vie]. *)
Theorem detect_language_codes (self : t) (data : bytes) :
  detect self data ∈ [ "chi_sim"; "eng"; "vie" ].
Proof.
  unfold detect_language.
  assert ("eng" ∈ [ "chi_sim"; "eng"; "vie" ]) as Heng by set_solver.
  destruct (Image_open data) as [image|]; [|done].
  destruct (preprocess image) as [image'|]; [|done].
  destruct (image_to_osd image') as [osd|]; [|done].
  destruct (scan_osd _) as [[code|]|] eqn:Hscan; [|done..].
  by apply scan_osd_codes in Hscan.
Qed.

End Engine.

(** X21: a processor that the constructor builds has a language list that
    is not empty: the list given, or [chi_sim] and [eng] when none or an
    empty one is given; its language string is the list joined by [+].  The
    constructor fails exactly without pytesseract or without the Tesseract
    program. *)
Theorem init_languages
    (TESSERACT_AVAILABLE : bool) (get_tesseract_version : result string)
    (given : option (list string)) :
  (forall self,
      __init__ TESSERACT_AVAILABLE get_tesseract_version given = Ok self ->
      languages self <> []
      /\ lang_string self = PyStr.join "+" (languages self)
      /\ languages self
         = match given with
           | Some (l :: ls) => l :: ls
           | _ => [ "chi_sim"; "eng" ]
           end)
  /\ ((exists self, __init__ TESSERACT_AVAILABLE get_tesseract_version given = Ok self)
      <-> TESSERACT_AVAILABLE = true
          /\ exists version, get_tesseract_version = Ok version).
Proof.
  unfold __init__. split.
  - intros self Hself.
    destruct TESSERACT_AVAILABLE; [|done]. cbn in Hself.
    destruct get_tesseract_version; [|done]. simplify_eq. cbn.
    by destruct given as [[|l ls]|].
  - destruct TESSERACT_AVAILABLE; cbn.
    + destruct get_tesseract_version as [v|e].
      * split; [eauto | intros _; eauto].
      * split; [by intros [? ?] | by intros [_ [? ?]]].
    + split; [by intros [? ?] | by intros [? _]].
Qed.

End OCRMore.

(** ** From the file to the document *)

Module ConversionFacts.
Import DOCXGenerator DocumentSpec DocumentView PDFProcessor.

Lemma flat_map_fmap {A B C} (f : B -> list C) (g : A -> B) (l : list A) :
  flat_map f (map g l) = flat_map (fun a => f (g a)) l.
Proof. induction l as [|a l IH]; [done|]. cbn. by rewrite IH. Qed.


Section Conversion.

Variable picture_error : bytes -> Z -> option exn.
Variable run_error : PDFTextBlock.t -> option exn.
Variable ocr_extract_text_from_image :
  OCRProcessor.t -> bytes -> Z -> list PDFTextBlock.t.

Local Abbreviation add_page := (_add_page_to_document picture_error).
Local Abbreviation create := (create_document picture_error).
Local Abbreviation process_all := (process_all_pages ocr_extract_text_from_image).

(** X22: the words that pdfplumber gives without a [y0] entry all get the
    default 0, so the words of such a page, when there are some, form one
    paragraph, sorted by [x0]. *)
Theorem words_without_y0_one_paragraph (pg : PlumberPage) :
  words pg <> [] ->
  Forall (fun word => w_y0 word = None) (words pg) ->
  _group_text_into_paragraphs (map text_block_of_word (words pg))
  = [sorted (map text_block_of_word (words pg))].
Proof.
  intros Hne Hy0. apply (GroupingMore.group_with_one_band 5 0); [done | |].
  - by destruct (words pg).
  - apply Forall_fmap. eapply Forall_impl; [exact Hy0|].
    intros word Hword. unfold LineSpec.in_band. cbn. rewrite Hword.
    split; by vm_compute.
Qed.

(** X23: without OCR, for a file that both libraries read with the same
    page count and the runs of whose words python-docx takes, the pages are
    processed and [create_document] hands a document to [save] whose runs
    that carry text are the words of the file: one run for each word, page
    after page, and within a page in the order of [(y0, x0)], with the text
    of the word followed by a space, the mapped font of the word and its
    height as size.  Every other run is the empty run that a refused picture
    leaves. *)
Theorem conversion_runs (self : PDFProcessor.t) (tr : list OcrCall) :
  length (doc (pdf_path self)) = length (pages (pdf_path self)) ->
  enable_ocr self = false \/ ocr_processor self = None ->
  Forall
    (fun pg => Forall (fun word => run_error (text_block_of_word word) = None) (words pg))
    (pages (pdf_path self)) ->
  exists processed document,
    process_all self tr = (Ok processed, tr)
    /\ DOCXGeneratorRaising.create_document picture_error run_error processed
       = Ok document
    /\ text_runs document
       = flat_map
           (fun pg => map run_of_block (sorted (map text_block_of_word (words pg))))
           (pages (pdf_path self))
    /\ Forall (fun run => has_text run = false -> run = empty_run) (runs_of document)
    /\ (forall word,
          run_of_block (text_block_of_word word)
          = {| run_text := default "" (w_text word) +:+ " ";
               run_font_name :=
                 Some (FontMapper.map_font (default "Arial" (w_fontname word)));
               run_font_size := Some (default 12%Q (w_height word)) |}).
Proof.
  intros Hlen Hoff Haccepted.
  destruct (PDFProcessorMore.process_all_pages_native
              ocr_extract_text_from_image self tr Hlen Hoff) as (processed & Hrun & Htext).
  exists processed, (create processed). split; [done|].
  split.
  { apply DocumentMore.create_document_accepted.
    assert (Forall (Forall (fun block => run_error block = None))
              (map PDFPage.text_blocks processed)) as Hblocks.
    { rewrite Htext. apply Forall_fmap. eapply Forall_impl; [exact Haccepted|].
      intros pg Hpg. cbn in Hpg |- *. by apply Forall_fmap. }
    apply Forall_forall. intros page Hpage. unfold runs_accepted.
    rewrite Forall_forall in Hblocks. apply Hblocks.
    apply list_elem_of_fmap. by exists page. }
  rewrite DocumentMore.create_document_flat_map.
  destruct (DocumentMore.runs_of_pages picture_error
              (break_after (length processed)) processed) as [Hruns Hempty].
  cbv zeta in Hruns, Hempty. rewrite Hruns.
  split; [|by split].
  rewrite <- (flat_map_fmap
                (fun blocks => map run_of_block (sorted blocks)) PDFPage.text_blocks).
  rewrite Htext. by rewrite flat_map_fmap.
Qed.

End Conversion.

Section Recognition.

Variable picture_error : bytes -> Z -> option exn.
Variable run_error : PDFTextBlock.t -> option exn.
Variable Raster : Type.
Variable Image_open : bytes -> result (OCRProcessor.Image Raster).
Variable convert : Raster -> string -> result Raster.
Variable resize : Raster -> Z * Z -> result Raster.
Variable image_to_string : OCRProcessor.Image Raster -> string -> string -> result string.

Local Abbreviation add_page := (_add_page_to_document picture_error).
Local Abbreviation extract :=
  (OCRProcessor.extract_text_from_image Raster Image_open convert resize image_to_string).


End Recognition.

Lemma words_without_y0_one_paragraph_witness :
  let pg :=
    {| words :=
         [ {| w_text := Some "second"; w_x0 := Some 40%Q; w_y0 := None;
              w_x1 := Some 70%Q; w_y1 := None; w_fontname := None; w_height := None |};
           {| w_text := Some "first"; w_x0 := Some 0%Q; w_y0 := None;
              w_x1 := Some 30%Q; w_y1 := None; w_fontname := None; w_height := None |} ];
       page_width := 612; page_height := 792 |} in
  _group_text_into_paragraphs (map text_block_of_word (words pg))
  = [sorted (map text_block_of_word (words pg))].
Proof.
  intros pg. apply (words_without_y0_one_paragraph pg); [done|].
  by repeat constructor.
Defined.

Lemma conversion_runs_witness :
  exists processed document,
    process_all_pages PDFSamples.sample_recognition (PDFSamples.sample_processor false) []
    = (Ok processed, [])
    /\ DOCXGeneratorRaising.create_document zero_byte_error control_character_error
         processed
       = Ok document
    /\ length (text_runs document) = 4%nat.
Proof.
  destruct (conversion_runs zero_byte_error control_character_error
              PDFSamples.sample_recognition
              (PDFSamples.sample_processor false) [] eq_refl (or_introl eq_refl))
    as (processed & document & Hrun & Hdocument & Hruns & _).
  - vm_compute. repeat constructor.
  - exists processed, document. split; [exact Hrun|]. split; [exact Hdocument|].
    by rewrite Hruns.
Defined.


End ConversionFacts.

(** ** Settings *)

Module SettingsFacts.
Import Settings StringSpec UploadSpec.

Lemma split_not_nil (sep : ascii) (s : string) : PyStr.split sep s <> [].
Proof.
  induction s as [|c s IH]; [done|]. cbn [PyStr.split].
  destruct (Ascii.eqb c sep); [done|]. by destruct (PyStr.split sep s).
Qed.

Lemma split_length (sep : ascii) (s : string) :
  length (PyStr.split sep s) = S (count_char sep s).
Proof.
  induction s as [|c s IH]; [done|]. cbn [PyStr.split count_char].
  destruct (Ascii.eqb c sep); [cbn; by rewrite IH|].
  pose proof (split_not_nil sep s) as Hne.
  destruct (PyStr.split sep s); [done|]. exact IH.
Qed.

Lemma split_pieces (sep : ascii) (s : string) :
  Forall (fun piece => has_char sep piece = false) (PyStr.split sep s).
Proof.
  induction s as [|c s IH]; [by repeat constructor|]. cbn [PyStr.split].
  destruct (Ascii.eqb c sep) eqn:Hc; [by constructor|].
  destruct (PyStr.split sep s) as [|piece rest].
  - repeat constructor. cbn. by rewrite Hc.
  - apply Forall_cons in IH as [Hpiece Hrest]. constructor; [|done].
    cbn. by rewrite Hc, Hpiece.
Qed.

Lemma lstrip_has_char (c : ascii) (s : string) :
  has_char c s = false -> has_char c (PyStr.lstrip s) = false.
Proof.
  induction s as [|a s IH]; [done|]. cbn [PyStr.lstrip].
  destruct (PyStr.isspace a); [|done].
  cbn. intros [_ H]%orb_false_elim. by apply IH.
Qed.

Lemma rstrip_has_char (c : ascii) (s : string) :
  has_char c s = false -> has_char c (PyStr.rstrip s) = false.
Proof.
  induction s as [|a s IH]; [done|]. cbn [PyStr.rstrip has_char].
  intros [Ha Hs]%orb_false_elim. specialize (IH Hs).
  destruct (PyStr.rstrip s).
  - destruct (PyStr.isspace a); [done|]. cbn. by rewrite Ha.
  - cbn [has_char]. rewrite Ha. exact IH.
Qed.

Lemma strip_has_char (c : ascii) (s : string) :
  has_char c s = false -> has_char c (PyStr.strip s) = false.
Proof. intros H. unfold PyStr.strip. by apply rstrip_has_char, lstrip_has_char. Qed.

(** X25: [cors_origins] has one origin more than [allowed_origins] has
    commas, so it is never empty; no origin holds a comma or has white space
    at an end; the default setting gives the two local origins. *)
Theorem cors_origins_shape (self : t) :
  length (cors_origins self) = S (count_char "," (allowed_origins self))
  /\ Forall
       (fun origin => has_char "," origin = false /\ PyStr.strip origin = origin)
       (cors_origins self)
  /\ cors_origins defaults = [ "http://localhost:3000"; "http://localhost:8000" ].
Proof.
  unfold cors_origins. split; [|split].
  - by rewrite length_map, split_length.
  - apply Forall_fmap. eapply Forall_impl; [apply split_pieces|].
    intros piece Hpiece. cbn. split; [by apply strip_has_char|].
    apply PyStrMore.strip_strip.
  - by vm_compute.
Qed.

End SettingsFacts.

(** ** The conversion endpoints *)

Module ConvertFacts.
Import Convert PyStrCase UploadSpec.

Lemma endswith_iff (s suffix : string) :
  endswith s suffix = true <-> exists stem, s = stem +:+ suffix.
Proof.
  induction s as [|c s IH]; cbn [endswith].
  - rewrite orb_false_r, String.eqb_eq. split.
    + intros <-. by exists "".
    + intros [[|a stem] Hstem]; [done|]. by rewrite PyStrFacts.append_cons in Hstem.
  - rewrite orb_true_iff, String.eqb_eq, IH. split.
    + intros [<- | [stem ->]]; [by exists ""|]. by exists (String c stem).
    + intros [[|a stem] Hstem]; [by left|].
      rewrite PyStrFacts.append_cons in Hstem. simplify_eq. right. by exists stem.
Qed.

Lemma lower_app (a b : string) : lower (a +:+ b) = lower a +:+ lower b.
Proof.
  induction a as [|c a IH]; [done|].
  rewrite PyStrFacts.append_cons. cbn [lower].
  by rewrite PyStrFacts.append_cons, IH.
Qed.

Lemma lower_app_inv (s a b : string) :
  lower s = a +:+ b ->
  exists a' b', s = a' +:+ b' /\ lower a' = a /\ lower b' = b.
Proof.
  revert s. induction a as [|x a IH]; intros s Hs.
  - by exists "", s.
  - rewrite PyStrFacts.append_cons in Hs. destruct s as [|c s]; [done|].
    cbn [lower] in Hs. simplify_eq.
    destruct (IH s ltac:(done)) as (a' & b' & -> & <- & <-).
    by exists (String c a'), b'.
Qed.

Lemma lower_char_dot (c : ascii) : lower_char c = "."%char -> c = "."%char.
Proof. lower_char_cases c. Qed.

Lemma lower_char_p (c : ascii) : lower_char c = "p"%char -> (c = "p" \/ c = "P")%char.
Proof. lower_char_cases c. Qed.

Lemma lower_char_d (c : ascii) : lower_char c = "d"%char -> (c = "d" \/ c = "D")%char.
Proof. lower_char_cases c. Qed.

Lemma lower_char_f (c : ascii) : lower_char c = "f"%char -> (c = "f" \/ c = "F")%char.
Proof. lower_char_cases c. Qed.

Lemma pdf_name_iff (file_name : string) :
  endswith (lower file_name) ".pdf" = true <-> pdf_name file_name.
Proof.
  rewrite endswith_iff. split.
  - intros [stem Hstem].
    apply lower_app_inv in Hstem as (stem' & ext & -> & _ & Hext).
    destruct ext as [|e0 [|p [|d [|f [|? ?]]]]]; try done.
    cbn [lower] in Hext. simplify_eq.
    exists stem', p, d, f.
    rewrite (lower_char_dot e0) by done.
    split; [done|]. auto using lower_char_p, lower_char_d, lower_char_f.
  - intros (stem & p & d & f & -> & Hp & Hd & Hf).
    exists (lower stem). rewrite lower_app. f_equal.
    by destruct Hp as [-> | ->], Hd as [-> | ->], Hf as [-> | ->].
Qed.

Section Endpoints.

Variable settings : Settings.t.
Variable read_pdf : bytes -> result PDFProcessor.PDF.
Variable OCR_AVAILABLE : bool.
Variable OCRProcessor_new : option (list string) -> result OCRProcessor.t.
Variable ocr_extract_text_from_image :
  OCRProcessor.t -> bytes -> Z -> list PDFTextBlock.t.
Variable picture_error : bytes -> Z -> option exn.
Variable run_error : PDFTextBlock.t -> option exn.
Variable save_error :
  string -> DOCXGenerator.Document -> option (exn * option DOCXGenerator.Document).

Local Abbreviation pages_of :=
  (convert_pages read_pdf OCR_AVAILABLE OCRProcessor_new ocr_extract_text_from_image
     picture_error run_error).
Local Abbreviation convert :=
  (convert_pdf_to_docx settings read_pdf OCR_AVAILABLE OCRProcessor_new
     ocr_extract_text_from_image picture_error run_error save_error).
Local Abbreviation process_all :=
  (PDFProcessor.process_all_pages ocr_extract_text_from_image).

Lemma convert_accepted
    (file_id file_name : string) (file_content : bytes) (fs : Files) (tasks : list Path) :
  pdf_name file_name ->
  Z.of_nat (length file_content) <= Settings.max_file_size_bytes settings ->
  convert file_id file_name file_content fs tasks
  = match pages_of file_content with
    | Ok (pages, document) =>
        match save_error (file_id +:+ ".docx") document with
        | None =>
            (Respond
               {| file_id := file_id;
                  status := "completed";
                  message := Some "PDF successfully converted to DOCX";
                  download_url := Some ("/api/download/" +:+ file_id);
                  pages_processed := Some (Z.of_nat (length pages)) |},
             {| upload_dir := <[file_id +:+ ".pdf" := file_content]> (upload_dir fs);
                output_dir := <[file_id +:+ ".docx" := document]> (output_dir fs) |},
             tasks ++ [UploadPath (file_id +:+ ".pdf"); OutputPath (file_id +:+ ".docx")])
        | Some (_, remains) =>
            (HTTPException 500,
             {| upload_dir := delete (file_id +:+ ".pdf") (upload_dir fs);
                output_dir :=
                  match remains with
                  | Some part => <[file_id +:+ ".docx" := part]> (output_dir fs)
                  | None => output_dir fs
                  end |},
             tasks)
        end
    | Raise _ =>
        (HTTPException 500,
         {| upload_dir := delete (file_id +:+ ".pdf") (upload_dir fs);
            output_dir := output_dir fs |},
         tasks)
    end.
Proof.
  intros Hname%pdf_name_iff Hsize. unfold convert_pdf_to_docx.
  rewrite Hname. cbn [negb].
  rewrite (proj2 (Z.ltb_ge _ _)) by done.
  destruct (pages_of file_content) as [[pages document]|].
  - destruct (save_error _ document) as [[e remains]|]; [|done].
    cbn [exists_ upload_dir]. rewrite lookup_insert_eq.
    rewrite bool_decide_eq_true_2 by (by eexists).
    cbn [unlink upload_dir output_dir]. by rewrite delete_insert_eq.
  - cbn [exists_ upload_dir]. rewrite lookup_insert_eq.
    rewrite bool_decide_eq_true_2 by (by eexists).
    cbn [unlink upload_dir output_dir]. by rewrite delete_insert_eq.
Qed.

(** X26: the checks of [convert_pdf_to_docx].  A file whose name does not
    end with [.pdf], in some mix of cases, is answered with 400; a file of
    such a name that is longer than [max_file_size_mb] times [2 ^ 20] bytes
    with 413; both leave the files and the background tasks as they were.
    Every other file is written to the upload directory and is answered with
    a response or with 500. *)
Theorem convert_pdf_to_docx_checks
    (file_id file_name : string) (file_content : bytes) (fs : Files) (tasks : list Path) :
  (~ pdf_name file_name ->
   convert file_id file_name file_content fs tasks = (HTTPException 400, fs, tasks))
  /\ (pdf_name file_name ->
      Settings.max_file_size_mb settings * 2 ^ 20 < Z.of_nat (length file_content) ->
      convert file_id file_name file_content fs tasks = (HTTPException 413, fs, tasks))
  /\ (pdf_name file_name ->
      Z.of_nat (length file_content) <= Settings.max_file_size_mb settings * 2 ^ 20 ->
      exists answer fs' tasks',
        convert file_id file_name file_content fs tasks = (answer, fs', tasks')
        /\ (answer = HTTPException 500 \/ exists response, answer = Respond response)).
Proof.
  assert (Settings.max_file_size_bytes settings
          = Settings.max_file_size_mb settings * 2 ^ 20) as Hlimit.
  { unfold Settings.max_file_size_bytes. lia. }
  split; [|split].
  - intros Hname. unfold convert_pdf_to_docx.
    destruct (endswith _ _) eqn:Hends; [|done].
    by apply pdf_name_iff in Hends.
  - intros Hname%pdf_name_iff Hsize. unfold convert_pdf_to_docx.
    rewrite Hname. cbn [negb]. by rewrite (proj2 (Z.ltb_lt _ _)) by lia.
  - intros Hname Hsize. rewrite convert_accepted by (done || lia).
    destruct (pages_of file_content) as [[pages document]|]; [|eauto 10].
    destruct (save_error _ document) as [[e remains]|]; eauto 10.
Qed.

Lemma convert_pages_success
    (file_content : bytes) (pdf : PDFProcessor.PDF) (processor : PDFProcessor.t) :
  read_pdf file_content = Ok pdf ->
  length (PDFProcessor.doc pdf) = length (PDFProcessor.pages pdf) ->
  PDFProcessor.__init__ OCR_AVAILABLE OCRProcessor_new pdf true None = Ok processor ->
  (forall pages,
      fst (run (process_all processor)) = Ok pages ->
      Forall (DocumentView.runs_accepted run_error) pages) ->
  exists pages,
    fst (run (process_all processor)) = Ok pages
    /\ pages_of file_content = Ok (pages, DOCXGenerator.create_document picture_error pages)
    /\ length pages = length (PDFProcessor.pages pdf)
    /\ map PDFPage.page_number pages
       = map Z.of_nat (seq 0 (length (PDFProcessor.pages pdf))).
Proof.
  intros Hread Hlen Hinit Haccepted. unfold convert_pages. rewrite Hread, Hinit.
  destruct (PDFProcessorFacts.init_enable_ocr _ _ _ _ _ _ Hinit) as (Hpdf & _).
  rewrite <- Hpdf in Hlen |- *.
  destruct (PDFProcessorFacts.process_all_pages_numbered
              ocr_extract_text_from_image processor [] Hlen)
    as (pages & tr' & Hrun & Hnum).
  exists pages. unfold run in Haccepted |- *. rewrite Hrun in Haccepted |- *.
  cbn [fst] in Haccepted |- *.
  rewrite (DocumentMore.create_document_accepted picture_error run_error pages)
    by (by apply Haccepted).
  split; [done|]. split; [done|]. split; [|done].
  apply (f_equal length) in Hnum. by rewrite !length_map, length_seq in Hnum.
Qed.

(** X27: a file that passes the checks, that both libraries read with the
    same page count, for which the processor can be built, and on the pages
    of which python-docx takes every run and saves the document, is
    converted: the answer is [completed] with the number of pages of the
    file and the download URL of the identifier, the upload and the document
    are in their directories, one cleanup task is scheduled for each of them,
    and the download of the identifier now finds the document. *)
Theorem convert_pdf_to_docx_success
    (file_id file_name : string) (file_content : bytes) (fs : Files) (tasks : list Path)
    (pdf : PDFProcessor.PDF) (processor : PDFProcessor.t) :
  pdf_name file_name ->
  Z.of_nat (length file_content) <= Settings.max_file_size_bytes settings ->
  read_pdf file_content = Ok pdf ->
  length (PDFProcessor.doc pdf) = length (PDFProcessor.pages pdf) ->
  PDFProcessor.__init__ OCR_AVAILABLE OCRProcessor_new pdf true None = Ok processor ->
  (forall pages,
      fst (run (process_all processor)) = Ok pages ->
      Forall
        (fun page =>
           Forall (fun block => run_error block = None) (PDFPage.text_blocks page))
        pages
      /\ save_error (file_id +:+ ".docx")
           (DOCXGenerator.create_document picture_error pages)
         = None) ->
  exists pages fs',
    convert file_id file_name file_content fs tasks
    = (Respond
         {| file_id := file_id;
            status := "completed";
            message := Some "PDF successfully converted to DOCX";
            download_url := Some ("/api/download/" +:+ file_id);
            pages_processed := Some (Z.of_nat (length (PDFProcessor.pages pdf))) |},
       fs',
       tasks ++ [UploadPath (file_id +:+ ".pdf"); OutputPath (file_id +:+ ".docx")])
    /\ upload_dir fs' = <[file_id +:+ ".pdf" := file_content]> (upload_dir fs)
    /\ output_dir fs'
       = <[file_id +:+ ".docx" := DOCXGenerator.create_document picture_error pages]>
           (output_dir fs)
    /\ length pages = length (PDFProcessor.pages pdf)
    /\ exists response, download_converted_file file_id fs' = Respond response.
Proof.
  intros Hname Hsize Hread Hlen Hinit Hdocx.
  destruct (convert_pages_success _ _ _ Hread Hlen Hinit
              (fun pages Hpages => proj1 (Hdocx pages Hpages)))
    as (pages & Hprocessed & Hpages & Hcount & _).
  rewrite (convert_accepted _ _ _ _ _ Hname Hsize), Hpages.
  cbv zeta. rewrite (proj2 (Hdocx pages Hprocessed)).
  eexists pages, _. rewrite Hcount.
  split; [reflexivity|]. cbn [upload_dir output_dir].
  split; [done|]. split; [done|]. split; [done|].
  unfold download_converted_file. cbn [exists_ output_dir].
  rewrite lookup_insert_eq. rewrite bool_decide_eq_true_2 by (by eexists).
  by eexists.
Qed.


End Endpoints.

(** X29: [download_converted_file] answers 404 exactly when the output
    directory has no document of the identifier; it does after the cleanup
    of that document, and the cleanup of an upload does not change its
    answer. *)
Theorem download_converted_file_found (file_id : string) (fs : Files) :
  (download_converted_file file_id fs = HTTPException 404
   <-> output_dir fs !! (file_id +:+ ".docx") = None)
  /\ download_converted_file file_id (cleanup_file (OutputPath (file_id +:+ ".docx")) fs)
     = HTTPException 404
  /\ (forall name,
        download_converted_file file_id (cleanup_file (UploadPath name) fs)
        = download_converted_file file_id fs).
Proof.
  split; [|split].
  - unfold download_converted_file. cbn [exists_].
    destruct (output_dir fs !! (file_id +:+ ".docx")) as [document|] eqn:Hfile.
    + rewrite bool_decide_eq_true_2 by (by eexists). by cbn.
    + rewrite bool_decide_eq_false_2 by (by intros [? ?]). by cbn.
  - unfold cleanup_file.
    destruct (exists_ (OutputPath (file_id +:+ ".docx")) fs) eqn:Hfile.
    + unfold download_converted_file. cbn [unlink exists_ output_dir].
      rewrite lookup_delete_eq.
      rewrite bool_decide_eq_false_2 by (by intros [? ?]). by cbn.
    + unfold download_converted_file. by rewrite Hfile.
  - intros name. unfold download_converted_file, cleanup_file.
    by destruct (exists_ (UploadPath name) fs).
Qed.

Lemma convert_pdf_to_docx_success_witness :
  exists pages fs',
    convert_pdf_to_docx Settings.defaults sample_read false (fun _ => Raise ImportError)
      PDFSamples.sample_recognition DocumentSpec.no_picture_error
    DocumentView.control_character_error saved
      "0001" "Report.PDF" sample_upload no_files []
    = (Respond
         {| file_id := "0001";
            status := "completed";
            message := Some "PDF successfully converted to DOCX";
            download_url := Some ("/api/download/" +:+ "0001");
            pages_processed := Some (Z.of_nat (length (PDFProcessor.pages PDFSamples.sample_pdf))) |},
       fs',
       [] ++ [UploadPath ("0001" +:+ ".pdf"); OutputPath ("0001" +:+ ".docx")])
    /\ upload_dir fs' = <["0001" +:+ ".pdf" := sample_upload]> (upload_dir no_files)
    /\ output_dir fs'
       = <["0001" +:+ ".docx" :=
             DOCXGenerator.create_document DocumentSpec.no_picture_error pages]>
           (output_dir no_files)
    /\ length pages = length (PDFProcessor.pages PDFSamples.sample_pdf)
    /\ exists response, download_converted_file "0001" fs' = Respond response.
Proof.
  apply (convert_pdf_to_docx_success Settings.defaults sample_read false
           (fun _ => Raise ImportError) PDFSamples.sample_recognition
           DocumentSpec.no_picture_error DocumentView.control_character_error saved
           "0001" "Report.PDF" sample_upload no_files []
           PDFSamples.sample_pdf (PDFSamples.sample_processor false)).
  - exists "Report", "P"%char, "D"%char, "F"%char. auto.
  - by vm_compute.
  - reflexivity.
  - reflexivity.
  - reflexivity.
  - intros pages Hpages. vm_compute in Hpages. injection Hpages as <-.
    split; [repeat constructor | reflexivity].
Defined.


End ConvertFacts.

(** ** The resizing of large images *)

Module ResizeFacts.
Import PyFloat PyFloatFacts RoundingSpec OCRProcessor.

Lemma Qmult_le_l_weak (a b c : Q) : (0 <= c)%Q -> (a <= b)%Q -> (c * a <= c * b)%Q.
Proof.
  intros Hc Hab. rewrite (Qmult_comm c a), (Qmult_comm c b).
  by apply Qmult_le_compat_r.
Qed.

Lemma below_above : (3999 < 4000 * below)%Q /\ (4000 * above * above * above < 4001)%Q.
Proof. split; by vm_compute. Qed.

(** The ratio [4000 / m] as a float. *)
Lemma truediv_max_dimension (m : Z) :
  4000 < m < 2 ^ 31 ->
  exists ratio,
    truediv max_dimension m = Ok ratio
    /\ (0 <= ratio)%Q
    /\ (4000 * below <= ratio * inject_Z m)%Q
    /\ (ratio * inject_Z m <= 4000 * above)%Q.
Proof.
  intros Hm. unfold truediv, max_dimension.
  rewrite (proj2 (Z.eqb_neq m 0)) by lia.
  rewrite (Z.sgn_pos m), (Z.abs_eq m), Z.mul_1_r by lia.
  set (q := Qmake 4000 (Z.to_pos m)).
  assert (q * inject_Z m == 4000)%Q as Hq.
  { unfold q, Qeq. cbn [Qnum Qden Qmult inject_Z].
    rewrite Pos.mul_1_r, Z2Pos.id by lia. lia. }
  assert (0 < inject_Z m)%Q as Hm0.
  { unfold Qlt. cbn. lia. }
  assert (0 < q)%Q as Hq0 by (unfold q, Qlt; cbn; lia).
  assert (q <= 1)%Q as Hq1.
  { unfold q, Qle. cbn [Qnum Qden]. rewrite Z2Pos.id by lia. lia. }
  destruct (round_finite q 0) as (ratio & Hround & Hlow & _);
    [lia | by apply Qlt_le_weak | done |].
  destruct (round_error q ratio) as [Hbelow Habove]; [done | | | done |].
  { apply Qle_trans with 1%Q; [done|]. unfold Qle. cbn. lia. }
  { unfold q, Qle. cbn [Qnum Qden Qmult inject_Z].
    assert (2 ^ 31 < 2 ^ 1022) by (apply Z.pow_lt_mono_r; lia). lia. }
  rewrite Hround. exists ratio. split; [done|]. split; [done|].
  split.
  - assert (4000 * below == q * below * inject_Z m)%Q as Heq by (rewrite <- Hq; ring).
    rewrite Heq. apply Qmult_le_compat_r; [done | by apply Qlt_le_weak].
  - assert (4000 * above == q * above * inject_Z m)%Q as Heq by (rewrite <- Hq; ring).
    rewrite Heq. apply Qmult_le_compat_r; [done | by apply Qlt_le_weak].
Qed.

(** [float(dim)] for a side of an image. *)
Lemma of_int_side (dim : Z) :
  0 <= dim < 2 ^ 31 ->
  exists y,
    of_int dim = Ok y
    /\ (inject_Z dim <= y)%Q /\ (y <= inject_Z dim * above)%Q.
Proof.
  intros Hdim. unfold of_int.
  destruct (Z.eq_dec dim 0) as [-> | Hpos].
  { exists 0%Q. repeat split; by vm_compute. }
  destruct (round_finite (inject_Z dim) 31) as (y & Hround & _ & _); [lia | | |].
  { unfold Qle. cbn. lia. }
  { rewrite <- Zle_Qle. lia. }
  rewrite Hround. exists y. split; [done|]. split.
  - apply (round_ge (inject_Z dim) y dim); [|apply Qle_refl | done].
    assert (2 ^ 31 < 2 ^ 53) by done. lia.
  - apply (round_error (inject_Z dim) y); [| | | done].
    + unfold Qlt. cbn. lia.
    + rewrite <- Zle_Qle. assert (2 ^ 31 < 2 ^ 52) by done. lia.
    + unfold Qle. cbn [Qnum Qden Qmult inject_Z].
      assert (0 < 2 ^ 1022) by done. nia.
Qed.

(** One side of the new size: [int(dim * ratio)]. *)
Lemma scaled_side (ratio : Q) (m dim : Z) :
  4000 < m < 2 ^ 31 ->
  (0 <= ratio)%Q ->
  (4000 * below <= ratio * inject_Z m)%Q ->
  (ratio * inject_Z m <= 4000 * above)%Q ->
  0 <= dim <= m ->
  exists e,
    int_of_product ratio dim = Ok e
    /\ 0 <= e <= 4000
    /\ (dim = m -> 3999 <= e).
Proof.
  intros Hm Hratio Hlow Hhigh Hdim.
  destruct below_above as [Hbelow Habove].
  pose proof above_ge_1 as Habove1.
  destruct (of_int_side dim ltac:(lia)) as (y & Hy & Hy1 & Hy2).
  unfold int_of_product, mul. rewrite Hy.
  assert (0 <= inject_Z dim)%Q as Hdim0 by (rewrite <- (Zle_Qle 0); lia).
  assert (inject_Z dim <= inject_Z m)%Q as Hdimm by (rewrite <- Zle_Qle; lia).
  assert (0 <= y)%Q as Hy0 by (by apply Qle_trans with (inject_Z dim)).
  assert (0 <= ratio * y)%Q as Hp0 by (by apply Qmult_le_0_compat).
  assert (ratio * y <= 4000 * above * above)%Q as Hp1.
  { apply Qle_trans with (ratio * (inject_Z m * above))%Q.
    - apply Qmult_le_l_weak; [done|].
      apply Qle_trans with (inject_Z dim * above)%Q; [done|].
      apply Qmult_le_compat_r; [done|]. by apply Qle_trans with 1%Q.
    - rewrite Qmult_assoc. apply Qmult_le_compat_r; [done|].
      by apply Qle_trans with 1%Q. }
  assert (4000 * above * above <= inject_Z (2 ^ 12))%Q as Hp2 by (by vm_compute).
  destruct (round_finite (ratio * y) 12) as (v & Hv & Hv0 & _);
    [lia | done | by apply Qle_trans with (4000 * above * above)%Q |].
  rewrite Hv.
  assert (v < inject_Z (4000 + 1))%Q as Hv1.
  { destruct (Qlt_le_dec 1 (ratio * y)) as [Hbig | Hsmall].
    - destruct (round_error (ratio * y) v) as [_ Hup]; [| | | done |].
      + by apply Qlt_trans with 1%Q.
      + apply Qle_trans with (4000 * above * above)%Q; [done|]. by vm_compute.
      + apply Qle_trans with (ratio * y * 1)%Q.
        * rewrite Qmult_1_r. by apply Qlt_le_weak.
        * apply Qmult_le_l_weak; [done | by vm_compute].
      + apply Qle_lt_trans with (ratio * y * above)%Q; [done|].
        apply Qle_lt_trans with (4000 * above * above * above)%Q; [|done].
        apply Qmult_le_compat_r; [done | by apply Qle_trans with 1%Q].
    - destruct (round_finite (ratio * y) 0) as (v' & Hv' & _ & Hle); [lia | done | done |].
      rewrite Hv in Hv'. simplify_eq.
      apply Qle_lt_trans with (inject_Z (2 ^ 0)); [done | by vm_compute]. }
  destruct (to_int_lt v 4000 Hv0 Hv1) as (e & He & Hrange).
  exists e. split; [done|]. split; [done|].
  intros ->.
  assert (inject_Z 3999 <= ratio * y)%Q as Hp3.
  { apply Qle_trans with (4000 * below)%Q; [by apply Qlt_le_weak|].
    apply Qle_trans with (ratio * inject_Z m)%Q; [done|].
    by apply Qmult_le_l_weak. }
  pose proof (round_ge (ratio * y) v 3999 ltac:(done) Hp3 Hv) as Hv3.
  destruct (to_int_ge v 3999 Hv3) as (e' & He' & Hge).
  rewrite He in He'. by simplify_eq.
Qed.

End ResizeFacts.

Module PreprocessFacts.
Import PyFloat OCRProcessor OCRSamples.

Section Engine.

Variable Raster : Type.
Variable convert : Raster -> string -> result Raster.
Variable resize : Raster -> Z * Z -> result Raster.

Local Abbreviation preprocess := (_preprocess_image Raster convert resize).

(** The resizing step, on an image that is already grayscale or has just
    been converted. *)
Lemma resize_step (image : Image Raster) :
  0 <= image_width image -> 0 <= image_height image ->
  max_dimension < Z.max (image_width image) (image_height image) < 2 ^ 31 ->
  exists w h,
    0 <= w <= max_dimension /\ 0 <= h <= max_dimension /\ 3999 <= Z.max w h
    /\ (let longest := Z.max (image_width image) (image_height image) in
        if max_dimension <? longest then
          match PyFloat.truediv max_dimension longest with
          | Raise e => Raise e
          | Ok ratio =>
              match PyFloat.int_of_product ratio (image_width image),
                    PyFloat.int_of_product ratio (image_height image) with
              | Ok w, Ok h =>
                  match resize (raster image) (w, h) with
                  | Ok r => Ok {| mode := mode image; size := (w, h); raster := r |}
                  | Raise e => Raise e
                  end
              | Raise e, _ => Raise e
              | _, Raise e => Raise e
              end
          end
        else Ok image)
       = match resize (raster image) (w, h) with
         | Ok r => Ok {| mode := mode image; size := (w, h); raster := r |}
         | Raise e => Raise e
         end.
Proof.
  intros Hw Hh Hlongest. cbv zeta.
  set (longest := Z.max (image_width image) (image_height image)) in *.
  rewrite (proj2 (Z.ltb_lt _ _)) by lia.
  unfold max_dimension in Hlongest.
  destruct (ResizeFacts.truediv_max_dimension longest Hlongest)
    as (ratio & -> & Hratio & Hlow & Hhigh).
  destruct (ResizeFacts.scaled_side ratio longest (image_width image)
              Hlongest Hratio Hlow Hhigh ltac:(lia)) as (w & -> & Hw' & Hwl).
  destruct (ResizeFacts.scaled_side ratio longest (image_height image)
              Hlongest Hratio Hlow Hhigh ltac:(lia)) as (h & -> & Hh' & Hhl).
  exists w, h. unfold max_dimension. repeat split; lia.
Qed.

(** X30: an image whose longest side is above 4000 pixels, and below
    [2 ^ 31], is resized so that no side is above 4000 and the longest side
    is 3999 or 4000, by the rounding of the two float operations; the result
    is grayscale, and preprocessing it again keeps its size.  The arithmetic
    raises nothing: preprocessing fails only when the conversion to
    grayscale or the resizing does. *)
Theorem _preprocess_image_resized (image : Image Raster) :
  0 <= image_width image -> 0 <= image_height image ->
  max_dimension < Z.max (image_width image) (image_height image) < 2 ^ 31 ->
  (forall image',
      preprocess image = Ok image' ->
      mode image' = "L"
      /\ 0 <= image_width image' <= 4000
      /\ 0 <= image_height image' <= 4000
      /\ 3999 <= Z.max (image_width image') (image_height image')
      /\ (forall image'', preprocess image' = Ok image'' -> size image'' = size image'))
  /\ (forall e,
        preprocess image = Raise e ->
        (mode image <> "L" /\ convert (raster image) "L" = Raise e)
        \/ exists r new_size, resize r new_size = Raise e).
Proof.
  intros Hw Hh Hlongest. split.
  - intros image' Hpre.
    pose proof (OCRFacts._preprocess_image_mode _ _ _ _ _ Hpre) as Hmode.
    assert (0 <= image_width image' <= 4000 /\ 0 <= image_height image' <= 4000
            /\ 3999 <= Z.max (image_width image') (image_height image')) as Hsize.
    { unfold _preprocess_image in Hpre.
      destruct (decide (mode image = "L")) as [HL | HL].
      - destruct (resize_step image Hw Hh Hlongest) as (w & h & Hw' & Hh' & Hmax & Heq).
        cbv zeta in Heq. rewrite Heq in Hpre.
        destruct (resize (raster image) (w, h)); [|done]. by simplify_eq.
      - destruct (convert (raster image) "L") as [r|]; [|done].
        destruct (resize_step {| mode := "L"; size := size image; raster := r |}
                    Hw Hh Hlongest) as (w & h & Hw' & Hh' & Hmax & Heq).
        cbv zeta in Heq. rewrite Heq in Hpre. cbn [raster] in Hpre.
        destruct (resize r (w, h)); [|done]. by simplify_eq. }
    split; [done|]. split; [lia|]. split; [lia|]. split; [lia|].
    intros image'' Hagain.
    apply (OCRFacts._preprocess_image_small Raster convert resize image' image'');
      [unfold max_dimension; lia | done].
  - intros e Hpre. unfold _preprocess_image in Hpre.
    destruct (decide (mode image = "L")) as [HL | HL].
    + destruct (resize_step image Hw Hh Hlongest) as (w & h & _ & _ & _ & Heq).
      cbv zeta in Heq. rewrite Heq in Hpre.
      destruct (resize (raster image) (w, h)) eqn:Hresize; [done|].
      right. simplify_eq. eauto.
    + destruct (convert (raster image) "L") as [r|] eqn:Hconvert.
      * destruct (resize_step {| mode := "L"; size := size image; raster := r |}
                    Hw Hh Hlongest) as (w & h & _ & _ & _ & Heq).
        cbv zeta in Heq. rewrite Heq in Hpre. cbn [raster] in Hpre.
        destruct (resize r (w, h)) eqn:Hresize; [done|].
        right. simplify_eq. eauto.
      * left. by simplify_eq.
Qed.

End Engine.

(** Both cases of the longest side occur: 4724 by 7087 pixels are resized
    to 2666 by 4000, and 4210 by 2000 to 3999 by 1900. *)
Example _preprocess_image_3999 :
  _preprocess_image unit (fun r _ => Ok r) (fun r _ => Ok r) (sample_image 4724 7087)
  = Ok {| mode := "L"; size := (2666, 4000); raster := tt |}
  /\ _preprocess_image unit (fun r _ => Ok r) (fun r _ => Ok r) (sample_image 4210 2000)
     = Ok {| mode := "L"; size := (3999, 1900); raster := tt |}.
Proof. split; by vm_compute. Qed.

Lemma _preprocess_image_resized_witness :
  (forall image',
      _preprocess_image unit (fun r _ => Ok r) (fun r _ => Ok r) (sample_image 4210 2000)
      = Ok image' ->
      mode image' = "L"
      /\ 0 <= image_width image' <= 4000
      /\ 0 <= image_height image' <= 4000
      /\ 3999 <= Z.max (image_width image') (image_height image')
      /\ (forall image'',
            _preprocess_image unit (fun r _ => Ok r) (fun r _ => Ok r) image' = Ok image'' ->
            size image'' = size image'))
  /\ (forall e,
        _preprocess_image unit (fun r _ => Ok r) (fun r _ => Ok r) (sample_image 4210 2000)
        = Raise e ->
        (mode (sample_image 4210 2000) <> "L"
         /\ (fun (r : unit) (_ : string) => Ok r) (raster (sample_image 4210 2000)) "L"
            = Raise e)
        \/ exists r new_size, (fun (r : unit) (_ : Z * Z) => Ok r) r new_size = Raise e).
Proof.
  apply (_preprocess_image_resized unit (fun r _ => Ok r) (fun r _ => Ok r)
           (sample_image 4210 2000)); by vm_compute.
Defined.

End PreprocessFacts.
